(** * Stock journal: the portfolio accounting engine

    A shallow embedding of [portfolio_analytics.py], of [stock_journal.py]
    and of the accounting code of [app.py] (the costs of a transaction and
    the validation loop of the bulk import), with the properties of the
    specification proved (or refuted) on it and further properties read off
    the code.

    Modelling choices.
    - A pandas DataFrame of transactions is a list of rows in row order.
    - Money and prices are exact rationals ([Q]) and [round(2)] is rounding
      of the exact value to two decimals, ties to even.  The code computes in
      binary floating point, whose results agree with the exact ones up to a
      relative error of some 1e-16 per operation: enough to move an amount
      that lies within that error of a half-cent tie to the neighbouring
      cent, and to make a sum depend on the order of its terms.  A property
      that names a rounded amount is therefore stated in one of two ways:
      as an identity between amounts that the code computes from the same
      rows in the same order, or as a bound with a tolerance of a cent on
      the distance to the exact amount.  Equality of money is [Qeq].
    - Quantities are integers ([Z]); a calendar date is its ordinal ([Z]).
    - A ticker and a transaction type are strings, compared as the code
      compares them.
    - Python exceptions are the [Err] results of an error monad; a division
      is a fallible operation that raises on a zero divisor.
    - [DataFrame.sort_values] sorts with numpy's quicksort unless told
      otherwise, and that sort is not stable: the frame comes back in key
      order, with the rows of one key in an order that the call does not
      determine.  The Historical Performance Reconstructor, whose values
      depend on that order, is modelled for every sort of the kind
      ([calculate_historical_performance_by]); the stable sort is one of
      them.  The other calls of [sort_values] are on keys without ties or
      feed properties that hold for every order of the ties. *)

From Stdlib Require Import List ZArith QArith Qabs Qround Bool String Ascii.
From Stdlib Require Import Lia Lqa Morphisms.
From Stdlib Require Import Permutation Sorted DecimalString.
Import ListNotations.

Local Open Scope string_scope.
Local Open Scope list_scope.
Local Open Scope Z_scope.

(** ** Exceptions and results *)

Inductive exn : Type :=
| ZeroDivisionError
| KeyError (column : string)
| IndexError.

Inductive result (A : Type) : Type :=
| Ok (a : A)
| Err (e : exn).

Arguments Ok {A} a.
Arguments Err {A} e.

Definition bind {A B : Type} (m : result A) (k : A -> result B) : result B :=
  match m with
  | Ok a => k a
  | Err e => Err e
  end.

Notation "x <- m ;; k" := (bind m (fun x => k))
  (at level 61, m at next level, right associativity).

(** ** Numbers *)

Definition Qltb (a b : Q) : bool := negb (Qle_bool b a).

(** [a / b] of Python: raises on a zero divisor. *)
Definition div (a b : Q) : result Q :=
  if Qeq_bool b 0 then Err ZeroDivisionError else Ok (a / b)%Q.

(** Nearest integer, ties to the even one. *)
Definition round_half_even (x : Q) : Z :=
  let q := Qfloor x in
  match (x - inject_Z q ?= 1 # 2)%Q with
  | Lt => q
  | Gt => q + 1
  | Eq => if Z.even q then q else q + 1
  end.

(** [Series.round(2)]. *)
Definition round2 (x : Q) : Q := (round_half_even (x * 100) # 100)%Q.

Definition Qsum (l : list Q) : Q := fold_right Qplus 0%Q l.
Definition Zsum (l : list Z) : Z := fold_right Z.add 0 l.

(** ** Data frames *)

(** A frame either has its named columns and some rows, or was built from
    an empty list of records and has no column at all ([pd.DataFrame([])]). *)
Inductive Frame (A : Type) : Type :=
| NoColumns
| Table (rows : list A).

Arguments NoColumns {A}.
Arguments Table {A} rows.

(** [pd.DataFrame(records)] *)
Definition DataFrame {A : Type} (records : list A) : Frame A :=
  match records with
  | [] => NoColumns
  | _ => Table records
  end.

Definition rows {A : Type} (f : Frame A) : list A :=
  match f with
  | NoColumns => []
  | Table l => l
  end.

(** [df.empty] *)
Definition empty {A : Type} (f : Frame A) : bool :=
  match rows f with
  | [] => true
  | _ => false
  end.

Definition is_nil {A : Type} (l : list A) : bool :=
  match l with
  | [] => true
  | _ => false
  end.

Definition map_rows {A : Type} (g : A -> A) (f : Frame A) : Frame A :=
  match f with
  | NoColumns => NoColumns
  | Table l => Table (map g l)
  end.

(** [df[name]] for a column of the frame's schema: a [KeyError] when the
    frame has no columns. *)
Definition column {A B : Type} (name : string) (proj : A -> B) (f : Frame A)
  : result (list B) :=
  match f with
  | NoColumns => Err (KeyError name)
  | Table l => Ok (map proj l)
  end.

(** [values[0]] *)
Definition first_value {A : Type} (l : list A) : result A :=
  match l with
  | [] => Err IndexError
  | x :: _ => Ok x
  end.

(** [iloc[-1]] *)
Fixpoint iloc_last {A : Type} (l : list A) : result A :=
  match l with
  | [] => Err IndexError
  | [x] => Ok x
  | _ :: t => iloc_last t
  end.

(** ** Stable sorting and first occurrences *)

Section Sort.
Context {A : Type}.
Variable leb : A -> A -> bool.

Fixpoint insert_sorted (x : A) (l : list A) : list A :=
  match l with
  | [] => [x]
  | y :: t => if leb x y then x :: l else y :: insert_sorted x t
  end.

(** Insertion from the right: an element is placed before the elements
    it does not exceed, so equal keys keep their order. *)
Fixpoint stable_sort (l : list A) : list A :=
  match l with
  | [] => []
  | x :: t => insert_sorted x (stable_sort t)
  end.
End Sort.

Section Unique.
Context {A : Type}.
Variable eqb : A -> A -> bool.

Definition mem (x : A) (l : list A) : bool := existsb (eqb x) l.

(** [Series.unique()]: distinct values in order of first appearance. *)
Fixpoint unique (l : list A) : list A :=
  match l with
  | [] => []
  | x :: t => x :: filter (fun y => negb (eqb x y)) (unique t)
  end.
End Unique.

(** ** The ledger *)

Record Transaction : Type := mkTransaction {
  Date : Z;
  Ticker : string;
  TransactionType : string;
  Price : Q;
  Quantity : Z;
  Total : Q
}.

Definition Ledger : Type := list Transaction.

Definition is_type (ty : string) (r : Transaction) : bool :=
  String.eqb (TransactionType r) ty.

Definition has_ticker (t : string) (r : Transaction) : bool :=
  String.eqb (Ticker r) t.

(** [df.groupby('Ticker')]: the groups in ascending key order, each with
    its rows in frame order. *)
Definition groupby_ticker (df : Ledger) : list (string * Ledger) :=
  map (fun k => (k, filter (has_ticker k) df))
      (stable_sort String.leb (unique String.eqb (map Ticker df))).

(** ** Holdings Calculator *)

Record Holding : Type := mkHolding {
  hTicker : string;
  Shares : Z;
  AverageCost : Q;
  TotalCost : Q;
  CurrentValue : Q;
  ProfitLoss : Q;
  ReturnPct : Q
}.

(** Line 22: the quantity of a Sell row is negated. *)
Definition negate_sell (r : Transaction) : Transaction :=
  if is_type "Sell" r
  then mkTransaction (Date r) (Ticker r) (TransactionType r) (Price r)
                     (- Quantity r) (Total r)
  else r.

(** Lines 37-63: the record built for one group with positive shares. *)
Definition holding_record (ticker : string) (group : Ledger) (shares : Z)
  : result Holding :=
  let buys := filter (is_type "Buy") group in
  avg_cost <-
    (if negb (is_nil buys) then
       let total_cost := Qsum (map Total buys) in
       let total_bought_shares := Zsum (map Quantity buys) in
       if 0 <? total_bought_shares
       then div total_cost (inject_Z total_bought_shares)
       else Ok 0%Q
     else Ok 0%Q) ;;
  last <- iloc_last group ;;
  let last_price := Price last in
  let current_value := (inject_Z shares * last_price)%Q in
  let profit_loss := (current_value - avg_cost * inject_Z shares)%Q in
  return_pct <-
    (if Qltb 0 (avg_cost * inject_Z shares)
     then q <- div profit_loss (avg_cost * inject_Z shares) ;; Ok (q * 100)%Q
     else Ok 0%Q) ;;
  Ok (mkHolding ticker shares avg_cost (avg_cost * inject_Z shares)
                current_value profit_loss return_pct).

(** Lines 30-63: the loop over the groups. *)
Fixpoint holdings_loop (groups : list (string * Ledger)) : result (list Holding) :=
  match groups with
  | [] => Ok []
  | (ticker, group) :: rest =>
      let shares := Zsum (map Quantity group) in
      if shares <=? 0 then holdings_loop rest
      else
        h <- holding_record ticker group shares ;;
        hs <- holdings_loop rest ;;
        Ok (h :: hs)
  end.

(** The unrounded [holdings_list] of a non-empty ledger. *)
Definition holdings_list (df : Ledger) : result (list Holding) :=
  holdings_loop (groupby_ticker (map negate_sell df)).

(** Lines 69-72. *)
Definition round_holding (h : Holding) : Holding :=
  mkHolding (hTicker h) (Shares h) (round2 (AverageCost h))
            (round2 (TotalCost h)) (round2 (CurrentValue h))
            (round2 (ProfitLoss h)) (round2 (ReturnPct h)).

Definition get_current_holdings (df : Ledger) : result (Frame Holding) :=
  if is_nil df then Ok (Table [])
  else
    holdings_list <- holdings_list df ;;
    let holdings_df := DataFrame holdings_list in
    Ok (if negb (empty holdings_df)
        then map_rows round_holding holdings_df
        else holdings_df).

(** ** Portfolio Summary Aggregator *)

Record PortfolioSummary : Type := mkSummary {
  total_invested : Q;
  current_value : Q;
  profit_loss : Q;
  return_pct : Q;
  total_transactions : nat;
  total_buys : nat;
  total_sells : nat
}.

Definition get_portfolio_summary (df : Ledger) : result PortfolioSummary :=
  if is_nil df then Ok (mkSummary 0 0 0 0 0 0 0)
  else
    holdings <- get_current_holdings df ;;
    total_invested <-
      (if negb (empty holdings)
       then c <- column "Total Cost" TotalCost holdings ;; Ok (Qsum c)
       else Ok 0%Q) ;;
    current_value <-
      (if negb (empty holdings)
       then c <- column "Current Value" CurrentValue holdings ;; Ok (Qsum c)
       else Ok 0%Q) ;;
    let profit_loss := (current_value - total_invested)%Q in
    return_pct <-
      (if Qltb 0 total_invested
       then q <- div profit_loss total_invested ;; Ok (q * 100)%Q
       else Ok 0%Q) ;;
    Ok (mkSummary total_invested current_value profit_loss return_pct
                  (List.length df)
                  (List.length (filter (is_type "Buy") df))
                  (List.length (filter (is_type "Sell") df))).

(** ** Historical Performance Reconstructor *)

Record PerformancePoint : Type := mkPoint {
  pDate : Z;
  PortfolioValue : Q
}.

(** [df.sort_values('Date')], when rows of one date keep their row order. *)
Definition sort_values_date (df : Ledger) : Ledger :=
  stable_sort (fun a b => Date a <=? Date b) df.

(** [sorted_df[sorted_df['Date'] <= date]] *)
Definition transactions_until (date : Z) (sorted_df : Ledger) : Ledger :=
  filter (fun r => Date r <=? date) sorted_df.

(** Lines 143-151: the loop over the dates. *)
Fixpoint performance_loop (sorted_df : Ledger) (dates : list Z)
  : result (list PerformancePoint) :=
  match dates with
  | [] => Ok []
  | date :: rest =>
      let transactions_until_date := transactions_until date sorted_df in
      holdings <- get_current_holdings transactions_until_date ;;
      portfolio_value <-
        (if negb (empty holdings)
         then c <- column "Current Value" CurrentValue holdings ;; Ok (Qsum c)
         else Ok 0%Q) ;;
      ps <- performance_loop sorted_df rest ;;
      Ok (mkPoint date portfolio_value :: ps)
  end.

(** Lines 121-153, with the sort of line 135 as an argument: the default
    sort of pandas orders the rows by date and leaves the order of the rows
    of one date to the sorting algorithm. *)
Definition calculate_historical_performance_by
           (sort_values : Ledger -> Ledger) (df : Ledger)
  : result (Frame PerformancePoint) :=
  if is_nil df then Ok (Table [])
  else
    let sorted_df := sort_values df in
    let dates := unique Z.eqb (map Date sorted_df) in
    performance_data <- performance_loop sorted_df dates ;;
    Ok (DataFrame performance_data).

(** The Reconstructor when the sort keeps the row order of equal dates. *)
Definition calculate_historical_performance (df : Ledger)
  : result (Frame PerformancePoint) :=
  calculate_historical_performance_by sort_values_date df.

(** ** Profit/Loss Report Generator *)

Record ReportRow : Type := mkReportRow {
  rTicker : string;
  BuyCost : Q;
  SellRevenue : Q;
  RealizedProfitLoss : Q;
  UnrealizedProfitLoss : Q;
  TotalProfitLoss : Q
}.

(** ['Ticker' in current_holdings.columns] *)
Definition has_columns {A : Type} (f : Frame A) : bool :=
  match f with
  | NoColumns => false
  | Table _ => true
  end.

(** Lines 198-204. *)
Definition unrealized_of (current_holdings : Frame Holding) (ticker : string)
  : result Q :=
  if negb (empty current_holdings) && has_columns current_holdings then
    tickers <- column "Ticker" hTicker current_holdings ;;
    if mem String.eqb ticker tickers then
      let ticker_holding :=
        filter (fun h => String.eqb (hTicker h) ticker) (rows current_holdings) in
      first_value (map ProfitLoss ticker_holding)
    else Ok 0%Q
  else Ok 0%Q.

(** Lines 177-216: the record built for one group. *)
Definition report_record (current_holdings : Frame Holding)
           (ticker : string) (group : Ledger) : result ReportRow :=
  let buys := filter (is_type "Buy") group in
  let buy_cost := if negb (is_nil buys) then Qsum (map Total buys) else 0%Q in
  let sells := filter (is_type "Sell") group in
  let sell_revenue :=
    if negb (is_nil sells) then Qsum (map (fun r => Qabs (Total r)) sells)
    else 0%Q in
  let total_bought_shares :=
    if negb (is_nil buys) then Zsum (map Quantity buys) else 0 in
  let total_sold_shares :=
    if negb (is_nil sells) then Zsum (map Quantity sells) else 0 in
  avg_cost_per_share <-
    (if 0 <? total_bought_shares
     then div buy_cost (inject_Z total_bought_shares)
     else Ok 0%Q) ;;
  let cost_basis_sold :=
    if Qltb 0 avg_cost_per_share && (0 <? total_sold_shares)
    then (avg_cost_per_share * inject_Z total_sold_shares)%Q
    else 0%Q in
  let realized_profit_loss := (sell_revenue - cost_basis_sold)%Q in
  unrealized_profit_loss <- unrealized_of current_holdings ticker ;;
  let total_profit_loss := (realized_profit_loss + unrealized_profit_loss)%Q in
  Ok (mkReportRow ticker buy_cost sell_revenue realized_profit_loss
                  unrealized_profit_loss total_profit_loss).

Fixpoint report_loop (current_holdings : Frame Holding)
         (groups : list (string * Ledger)) : result (list ReportRow) :=
  match groups with
  | [] => Ok []
  | (ticker, group) :: rest =>
      r <- report_record current_holdings ticker group ;;
      rs <- report_loop current_holdings rest ;;
      Ok (r :: rs)
  end.

Definition round_report_row (r : ReportRow) : ReportRow :=
  mkReportRow (rTicker r) (round2 (BuyCost r)) (round2 (SellRevenue r))
              (round2 (RealizedProfitLoss r)) (round2 (UnrealizedProfitLoss r))
              (round2 (TotalProfitLoss r)).

(** [sort_values('Total Profit/Loss', ascending=False)]; the properties of
    the report hold for every order of rows of equal totals. *)
Definition sort_values_total_desc (f : Frame ReportRow) : Frame ReportRow :=
  match f with
  | NoColumns => NoColumns
  | Table l =>
      Table (stable_sort
               (fun a b => Qle_bool (TotalProfitLoss b) (TotalProfitLoss a)) l)
  end.

Definition generate_profit_loss_report (df : Ledger) : result (Frame ReportRow) :=
  if is_nil df then Ok (Table [])
  else
    current_holdings <- get_current_holdings df ;;
    report_data <- report_loop current_holdings (groupby_ticker df) ;;
    let report_df := DataFrame report_data in
    Ok (if negb (empty report_df)
        then map_rows round_report_row (sort_values_total_desc report_df)
        else report_df).

(** ** Transaction validation *)

(** [str] of an integer, as an f-string prints it. *)
Definition str_of_Z (z : Z) : string := NilZero.string_of_int (Z.to_int z).

(** [validate_transaction(transaction, current_holdings)]: the proposed
    transaction is a record of the ledger's row type, of which the function
    reads the ticker, the quantity and the type. *)
Definition validate_transaction (transaction : Transaction)
           (current_holdings : Frame Holding) : result (bool * string) :=
  let ticker := Ticker transaction in
  let quantity := Quantity transaction in
  let transaction_type := TransactionType transaction in
  if String.eqb ticker "" then Ok (false, "Ticker symbol is required.")
  else if quantity <=? 0 then Ok (false, "Quantity must be greater than zero.")
  else if String.eqb transaction_type "Sell" then
    tickers <- column "Ticker" hTicker current_holdings ;;
    if negb (mem String.eqb ticker tickers) then
      Ok (false, ("Cannot sell " ++ ticker
                  ++ ". You don't own any shares of this stock.")%string)
    else
      owned_quantity <-
        first_value
          (map Shares
               (filter (fun h => String.eqb (hTicker h) ticker)
                       (rows current_holdings))) ;;
      if owned_quantity <? quantity then
        Ok (false, ("Cannot sell " ++ str_of_Z quantity ++ " shares of "
                    ++ ticker ++ ". You only own " ++ str_of_Z owned_quantity
                    ++ " shares.")%string)
      else Ok (true, "")
  else Ok (true, "").

(** ** Transaction totals and costs *)

(** [stock_journal.calculate_transaction_total] *)
Definition calculate_transaction_total (price : Q) (quantity : Z)
           (transaction_type : string) : Q :=
  let total := (price * inject_Z quantity)%Q in
  if String.eqb transaction_type "Sell" then (- total)%Q else total.

(** The amounts stored with a new transaction. *)
Record Costs : Type := mkCosts {
  cTotal : Q;
  Fee : Q;
  VAT : Q;
  NetTotal : Q
}.

(** [app.py], lines 206-212 (and again 366-389, 575-593, 844-860): the
    total, the commission, its VAT and the net total of a transaction. *)
Definition transaction_costs (price : Q) (quantity : Z)
           (transaction_type : string) (fee_rate vat_rate : Q) : Costs :=
  let total := (price * inject_Z quantity)%Q in
  let total := if String.eqb transaction_type "Sell" then (- total)%Q else total in
  let fee := (Qabs total * fee_rate)%Q in
  let vat := (fee * vat_rate)%Q in
  let net_total :=
    if String.eqb transaction_type "Buy" then (total - (fee + vat))%Q
    else (total + (fee + vat))%Q in
  mkCosts total fee vat net_total.

(** ** Filter/Summary Utility *)

(** Truth value of an optional string argument: [None] and the empty
    string are false. *)
Definition truthy (s : option string) : bool :=
  match s with
  | Some s => negb (String.eqb s "")
  | None => false
  end.

Definition get_string (s : option string) : string :=
  match s with
  | Some s => s
  | None => ""
  end.

(** [stock_journal.filter_transactions]; a date argument that is given is
    always true. *)
Definition filter_transactions (df : Ledger) (ticker trans_type : option string)
           (start_date end_date : option Z) : Ledger :=
  let filtered_df := df in
  let filtered_df :=
    if truthy ticker && negb (is_nil filtered_df)
    then filter (fun r => String.eqb (Ticker r) (get_string ticker)) filtered_df
    else filtered_df in
  let filtered_df :=
    if truthy trans_type && negb (is_nil filtered_df)
    then filter (fun r => String.eqb (TransactionType r) (get_string trans_type))
                filtered_df
    else filtered_df in
  let filtered_df :=
    match start_date with
    | Some d =>
        if negb (is_nil filtered_df)
        then filter (fun r => d <=? Date r) filtered_df
        else filtered_df
    | None => filtered_df
    end in
  let filtered_df :=
    match end_date with
    | Some d =>
        if negb (is_nil filtered_df)
        then filter (fun r => Date r <=? d) filtered_df
        else filtered_df
    | None => filtered_df
    end in
  filtered_df.

(** Two decimals of a non-negative count of hundredths. *)
Definition two_digits (n : Z) : string :=
  if n <? 10 then ("0" ++ str_of_Z n)%string else str_of_Z n.

(** [f"{x:.2f}"]: the value rounded to two decimals, written with its sign,
    its integer part and two decimals. *)
Definition format_2f (x : Q) : string :=
  let n := Z.abs (round_half_even (x * 100)) in
  ((if Qltb x 0 then "-" else "")
   ++ str_of_Z (n / 100) ++ "." ++ two_digits (n mod 100))%string.

Record SummaryRow : Type := mkSummaryRow {
  sTicker : string;
  BuyShares : Z;
  BuyAvgPrice : string;
  BuyTotal : string;
  SellShares : Z;
  SellAvgPrice : string;
  SellTotal : string;
  NetShares : Z
}.

(** Lines 107-136 of [stock_journal.py]: the row of one ticker. *)
Definition summary_row (df : Ledger) (ticker : string) : result SummaryRow :=
  let ticker_df := filter (fun r => String.eqb (Ticker r) ticker) df in
  let buys := filter (is_type "Buy") ticker_df in
  let sells := filter (is_type "Sell") ticker_df in
  let buy_shares := if negb (is_nil buys) then Zsum (map Quantity buys) else 0 in
  let buy_total := if negb (is_nil buys) then Qsum (map Total buys) else 0%Q in
  buy_avg_price <-
    (if 0 <? buy_shares then div buy_total (inject_Z buy_shares) else Ok 0%Q) ;;
  let sell_shares :=
    if negb (is_nil sells) then Zsum (map Quantity sells) else 0 in
  let sell_total :=
    if negb (is_nil sells) then Qabs (Qsum (map Total sells)) else 0%Q in
  sell_avg_price <-
    (if 0 <? sell_shares then div sell_total (inject_Z sell_shares) else Ok 0%Q) ;;
  Ok (mkSummaryRow ticker buy_shares
                   ("$" ++ format_2f buy_avg_price)%string
                   ("$" ++ format_2f buy_total)%string
                   sell_shares
                   ("$" ++ format_2f sell_avg_price)%string
                   ("$" ++ format_2f sell_total)%string
                   (buy_shares - sell_shares)).

Fixpoint summary_loop (df : Ledger) (tickers : list string)
  : result (list SummaryRow) :=
  match tickers with
  | [] => Ok []
  | ticker :: rest =>
      row <- summary_row df ticker ;;
      summary_data <- summary_loop df rest ;;
      Ok (row :: summary_data)
  end.

(** [summary_df.sort_values('Ticker')] *)
Definition sort_values_ticker (f : Frame SummaryRow) : Frame SummaryRow :=
  match f with
  | NoColumns => NoColumns
  | Table l => Table (stable_sort (fun a b => String.leb (sTicker a) (sTicker b)) l)
  end.

(** [stock_journal.generate_transaction_summary] *)
Definition generate_transaction_summary (df : Ledger) : result (Frame SummaryRow) :=
  if is_nil df then Ok NoColumns
  else
    let tickers := unique String.eqb (map Ticker df) in
    summary_data <- summary_loop df tickers ;;
    let summary_df := DataFrame summary_data in
    Ok (if negb (empty summary_df) then sort_values_ticker summary_df
        else summary_df).

(** ** Bulk import validation ([app.py], lines 601-639) *)

(** The loop reads and writes two columns of its copy of the holdings: the
    ticker and the shares. *)
Record ShareRow : Type := mkShareRow {
  srTicker : string;
  srShares : Z
}.

(** [holdings_copy = current_holdings.copy()], with the two columns. *)
Definition holdings_copy_of (current_holdings : Frame Holding) : Frame ShareRow :=
  match current_holdings with
  | NoColumns => NoColumns
  | Table l => Table (map (fun h => mkShareRow (hTicker h) (Shares h)) l)
  end.

(** [holdings_copy.loc[holdings_copy['Ticker'] == ticker, 'Shares'] += delta] *)
Definition add_shares (ticker : string) (delta : Z) (f : Frame ShareRow)
  : Frame ShareRow :=
  map_rows (fun r => if String.eqb (srTicker r) ticker
                     then mkShareRow (srTicker r) (srShares r + delta)
                     else r) f.

(** [pd.concat([holdings_copy, new_holding], ignore_index=True)] *)
Definition concat_row (f : Frame ShareRow) (r : ShareRow) : Frame ShareRow :=
  Table (rows f ++ [r]).

(** The verdict on one row of the file and the holdings after it: [None]
    for a row that is imported, the reason for one that is not. *)
Definition import_row (holdings_copy : Frame ShareRow) (row : Transaction)
  : result (Frame ShareRow * option string) :=
  let ticker := Ticker row in
  let trans_type := TransactionType row in
  let quantity := Quantity row in
  if String.eqb trans_type "Sell" then
    tickers <- column "Ticker" srTicker holdings_copy ;;
    if mem String.eqb ticker tickers then
      owned_shares <-
        first_value
          (map srShares
               (filter (fun r => String.eqb (srTicker r) ticker)
                       (rows holdings_copy))) ;;
      if owned_shares <? quantity then
        Ok (holdings_copy,
            Some ("Cannot sell " ++ str_of_Z quantity ++ " shares. Only "
                  ++ str_of_Z owned_shares ++ " available.")%string)
      else Ok (add_shares ticker (- quantity) holdings_copy, None)
    else Ok (holdings_copy, Some "Cannot sell shares of stock you don't own.")
  else if String.eqb trans_type "Buy" then
    tickers <- column "Ticker" srTicker holdings_copy ;;
    if mem String.eqb ticker tickers
    then Ok (add_shares ticker quantity holdings_copy, None)
    else Ok (concat_row holdings_copy (mkShareRow ticker quantity), None)
  else Ok (holdings_copy, None).

Record ImportOutcome : Type := mkImportOutcome {
  valid_transactions : list Transaction;
  invalid_transactions : list (nat * string * string);
  final_holdings : Frame ShareRow
}.

(** The loop over the rows of the file, [idx] being the index of the row. *)
Fixpoint import_loop (holdings_copy : Frame ShareRow) (idx : nat)
         (imported_df : list Transaction) : result ImportOutcome :=
  match imported_df with
  | [] => Ok (mkImportOutcome [] [] holdings_copy)
  | row :: rest =>
      step <- import_row holdings_copy row ;;
      out <- import_loop (fst step) (S idx) rest ;;
      Ok (match snd step with
          | None =>
              mkImportOutcome (row :: valid_transactions out)
                              (invalid_transactions out) (final_holdings out)
          | Some reason =>
              mkImportOutcome (valid_transactions out)
                              ((idx, Ticker row, reason) :: invalid_transactions out)
                              (final_holdings out)
          end)
  end.

(** Validation of a file against the ledger, and the ledger after the
    import (lines 602 and 644). *)
Definition validate_import (transactions imported_df : Ledger)
  : result ImportOutcome :=
  current_holdings <- get_current_holdings transactions ;;
  import_loop (holdings_copy_of current_holdings) 0 imported_df.

(** ** The vocabulary of the specification *)

(** The data model of a transaction: the type is Buy or Sell, the price is a
    positive amount, the quantity a positive count, and the total is
    price times quantity, negated for a Sell. *)
Definition typed (r : Transaction) : Prop :=
  TransactionType r = "Buy" \/ TransactionType r = "Sell".

Definition signed_total (r : Transaction) : Q :=
  if is_type "Sell" r then (- (Price r * inject_Z (Quantity r)))%Q
  else (Price r * inject_Z (Quantity r))%Q.

Definition well_formed (r : Transaction) : Prop :=
  typed r /\ (0 < Price r)%Q /\ 0 < Quantity r /\ (Total r == signed_total r)%Q.

(** The part of it the average cost relies on: a Buy row has a positive
    quantity. *)
Definition buy_quantity_positive (r : Transaction) : Prop :=
  is_type "Buy" r = true -> 0 < Quantity r.

(** The part of it the sign of a cost basis relies on: a Buy row has a
    non-negative total. *)
Definition buy_total_nonnegative (r : Transaction) : Prop :=
  is_type "Buy" r = true -> (0 <= Total r)%Q.

(** The rows of one ticker, its Buy rows and its Sell rows, in ledger order. *)
Definition ticker_rows (t : string) (l : Ledger) : Ledger :=
  filter (has_ticker t) l.

Definition buys_of (t : string) (l : Ledger) : Ledger :=
  filter (is_type "Buy") (ticker_rows t l).

Definition sells_of (t : string) (l : Ledger) : Ledger :=
  filter (is_type "Sell") (ticker_rows t l).

(** Net shares: sum of Buy quantities minus sum of Sell quantities. *)
Definition net_shares (t : string) (l : Ledger) : Z :=
  Zsum (map Quantity (buys_of t l)) - Zsum (map Quantity (sells_of t l)).

(** sum(Buy.Total) / sum(Buy.Quantity), 0 if no buys exist. *)
Definition average_buy_cost (t : string) (l : Ledger) : Q :=
  if is_nil (buys_of t l) then 0%Q
  else (Qsum (map Total (buys_of t l))
        / inject_Z (Zsum (map Quantity (buys_of t l))))%Q.

(** Sum of the absolute Sell totals, and the shares sold. *)
Definition sell_revenue_of (t : string) (l : Ledger) : Q :=
  Qsum (map (fun r => Qabs (Total r)) (sells_of t l)).

Definition sold_shares (t : string) (l : Ledger) : Z :=
  Zsum (map Quantity (sells_of t l)).

(** Rows in non-decreasing date order. *)
Definition chronological (l : Ledger) : Prop :=
  StronglySorted (fun a b => Date a <= Date b) l.

(** What [sort_values('Date')] guarantees whatever the algorithm: the rows
    of the frame, each once, in non-decreasing date order. *)
Definition date_sort (sort_values : Ledger -> Ledger) : Prop :=
  forall df, Permutation (sort_values df) df /\ chronological (sort_values df).

(** The rows of every ticker are in strictly increasing date order: a
    ticker is traded at most once a day and its transactions are entered as
    they happen.  Rows of different tickers may share a date and may be
    entered in any order. *)
Definition ticker_chronological (l : Ledger) : Prop :=
  forall t, StronglySorted Z.lt (map Date (ticker_rows t l)).

(** The rows dated up to a day, in the order of the frame. *)
Definition dated_until (d : Z) (l : Ledger) : Ledger :=
  filter (fun r => Date r <=? d) l.

(** An amount in whole cents, and two amounts less than a cent apart. *)
Definition whole_cents (x : Q) : Prop := exists n : Z, (x == n # 100)%Q.

Definition within_a_cent (x y : Q) : Prop := (Qabs (x - y) < 1 # 100)%Q.

(** The criteria [filter_transactions] was called with, as one test on a
    row: an argument that is absent (or an empty string) admits every row. *)
Definition matches (ticker trans_type : option string)
           (start_date end_date : option Z) (r : Transaction) : bool :=
  (if truthy ticker then String.eqb (Ticker r) (get_string ticker) else true)
  && (if truthy trans_type
      then String.eqb (TransactionType r) (get_string trans_type) else true)
  && match start_date with Some d => d <=? Date r | None => true end
  && match end_date with Some d => Date r <=? d | None => true end.

(** The position a holding stands for: the ticker and the shares held. *)
Definition position (h : Holding) : string * Z := (hTicker h, Shares h).

(** The shares the import loop reads for a ticker in its copy of the
    holdings: those of the first row of the ticker, none without a row. *)
Definition tracked_shares (t : string) (f : Frame ShareRow) : Z :=
  match find (fun r => String.eqb (srTicker r) t) (rows f) with
  | Some r => srShares r
  | None => 0
  end.

(** ** The values the loops compute *)

(** What [holding_record] returns for a group, as a total function. *)
Definition avg_cost_of (group : Ledger) : Q :=
  let buys := filter (is_type "Buy") group in
  if negb (is_nil buys) && (0 <? Zsum (map Quantity buys))
  then (Qsum (map Total buys) / inject_Z (Zsum (map Quantity buys)))%Q
  else 0%Q.

Definition last_price_of (group : Ledger) : Q :=
  match iloc_last group with
  | Ok r => Price r
  | Err _ => 0%Q
  end.

Definition return_pct_of (pl cost : Q) : Q :=
  if Qltb 0 cost then (pl / cost * 100)%Q else 0%Q.

Definition holding_of (ticker : string) (group : Ledger) : Holding :=
  let shares := Zsum (map Quantity group) in
  let avg_cost := avg_cost_of group in
  let current_value := (inject_Z shares * last_price_of group)%Q in
  let profit_loss := (current_value - avg_cost * inject_Z shares)%Q in
  mkHolding ticker shares avg_cost (avg_cost * inject_Z shares)
            current_value profit_loss
            (return_pct_of profit_loss (avg_cost * inject_Z shares)).

Definition open_position (kg : string * Ledger) : bool :=
  negb (Zsum (map Quantity (snd kg)) <=? 0).

(** The group of a ticker as the holdings loop sees it: Sell quantities
    negated. *)
Definition group_of (t : string) (df : Ledger) : Ledger :=
  ticker_rows t (map negate_sell df).

Definition raw_holdings (df : Ledger) : list Holding :=
  map (fun kg => holding_of (fst kg) (snd kg))
      (filter open_position (groupby_ticker (map negate_sell df))).

Definition holdings_frame (df : Ledger) : Frame Holding :=
  if is_nil df then Table []
  else match raw_holdings df with
       | [] => NoColumns
       | hs => Table (map round_holding hs)
       end.

(** The portfolio value of a holdings frame (lines 102 and 146). *)
Definition value_of (holdings : Frame Holding) : Q :=
  if negb (empty holdings) then Qsum (map CurrentValue (rows holdings))
  else 0%Q.

(** The series of a non-empty ledger, for a sort and for the stable one. *)
Definition performance_points_by (sort_values : Ledger -> Ledger) (df : Ledger)
  : list PerformancePoint :=
  map (fun d => mkPoint d
                  (value_of (holdings_frame
                               (transactions_until d (sort_values df)))))
      (unique Z.eqb (map Date (sort_values df))).

Definition performance_points (df : Ledger) : list PerformancePoint :=
  map (fun d => mkPoint d
                  (value_of (holdings_frame
                               (transactions_until d (sort_values_date df)))))
      (unique Z.eqb (map Date (sort_values_date df))).

(** The total cost of a holdings frame (line 101) and the summary of a
    non-empty ledger. *)
Definition cost_of (holdings : Frame Holding) : Q :=
  if negb (empty holdings) then Qsum (map TotalCost (rows holdings))
  else 0%Q.

Definition summary_of (df : Ledger) : PortfolioSummary :=
  let total_invested := cost_of (holdings_frame df) in
  let current_value := value_of (holdings_frame df) in
  let profit_loss := (current_value - total_invested)%Q in
  mkSummary total_invested current_value profit_loss
            (return_pct_of profit_loss total_invested)
            (List.length df)
            (List.length (filter (is_type "Buy") df))
            (List.length (filter (is_type "Sell") df)).

(** What [report_record] returns for a group, as a total function. *)
Definition unrealized_value (current_holdings : Frame Holding)
           (ticker : string) : Q :=
  match unrealized_of current_holdings ticker with
  | Ok q => q
  | Err _ => 0%Q
  end.

Definition report_row_of (current_holdings : Frame Holding)
           (ticker : string) (group : Ledger) : ReportRow :=
  let buys := filter (is_type "Buy") group in
  let buy_cost := if negb (is_nil buys) then Qsum (map Total buys) else 0%Q in
  let sells := filter (is_type "Sell") group in
  let sell_revenue :=
    if negb (is_nil sells) then Qsum (map (fun r => Qabs (Total r)) sells)
    else 0%Q in
  let total_bought_shares :=
    if negb (is_nil buys) then Zsum (map Quantity buys) else 0 in
  let total_sold_shares :=
    if negb (is_nil sells) then Zsum (map Quantity sells) else 0 in
  let avg_cost_per_share :=
    if 0 <? total_bought_shares
    then (buy_cost / inject_Z total_bought_shares)%Q else 0%Q in
  let cost_basis_sold :=
    if Qltb 0 avg_cost_per_share && (0 <? total_sold_shares)
    then (avg_cost_per_share * inject_Z total_sold_shares)%Q
    else 0%Q in
  let realized_profit_loss := (sell_revenue - cost_basis_sold)%Q in
  let unrealized_profit_loss := unrealized_value current_holdings ticker in
  mkReportRow ticker buy_cost sell_revenue realized_profit_loss
              unrealized_profit_loss
              (realized_profit_loss + unrealized_profit_loss).

Definition report_data_of (df : Ledger) : list ReportRow :=
  map (fun kg => report_row_of (holdings_frame df) (fst kg) (snd kg))
      (groupby_ticker df).

(** The shares held in a ticker according to a holdings table: those of
    the first row of the ticker. *)
Definition held_shares (t : string) (hs : list Holding) : option Z :=
  option_map Shares (find (fun h => String.eqb (hTicker h) t) hs).

(** A proposed transaction with another price. *)
Definition with_price (p : Q) (r : Transaction) : Transaction :=
  mkTransaction (Date r) (Ticker r) (TransactionType r) p (Quantity r) (Total r).

(** ** Example ledgers *)

Definition tx (d : Z) (t ty : string) (p : Q) (q : Z) : Transaction :=
  mkTransaction d t ty p q
    (if String.eqb ty "Sell" then - (p * inject_Z q) else p * inject_Z q)%Q.

(** The ledger of the specification's example. *)
Definition ledger_example : Ledger :=
  [tx 1 "AAPL" "Buy" 150 10; tx 2 "AAPL" "Sell" 155 3].

(** A position bought and fully sold at a profit. *)
Definition ledger_exited : Ledger :=
  [tx 1 "AAPL" "Buy" 100 10; tx 2 "AAPL" "Sell" 150 10].

(** The example, and shares of a second ticker that entered the ledger
    without a Buy row. *)
Definition ledger_mixed : Ledger :=
  [tx 1 "AAPL" "Buy" 150 10; tx 2 "AAPL" "Sell" 155 3;
   tx 3 "MSFT" "Transfer" 10 5].

(** One position of five shares. *)
Definition ledger_five : Ledger := [tx 1 "AAPL" "Buy" 100 5].

(** Two tickers, each traded on the same two days. *)
Definition ledger_two_tickers : Ledger :=
  [tx 1 "MSFT" "Buy" 300 4; tx 1 "AAPL" "Buy" 150 10;
   tx 2 "AAPL" "Sell" 155 3; tx 2 "MSFT" "Buy" 310 1].

(** A later fill entered before an earlier one. *)
Definition ledger_backdated : Ledger :=
  [tx 2 "AAPL" "Buy" 150 10; tx 1 "AAPL" "Buy" 100 10].

(** Three holdings whose costs each round down. *)
Definition ledger_thirds : Ledger :=
  [mkTransaction 1 "AAA" "Buy" (1 # 3) 1 (1 # 3);
   mkTransaction 1 "BBB" "Buy" (1 # 3) 1 (1 # 3);
   mkTransaction 1 "CCC" "Buy" (1 # 3) 1 (1 # 3)].

(** * Properties *)

(** ** The examples of the specification *)

Example example_holdings :
  exists h,
    get_current_holdings ledger_example = Ok (Table [h])
    /\ hTicker h = "AAPL" /\ Shares h = 7
    /\ (AverageCost h == 150)%Q /\ (TotalCost h == 1050)%Q
    /\ (CurrentValue h == 1085)%Q /\ (ProfitLoss h == 35)%Q.
Proof.
  eexists. split; [vm_compute; reflexivity|].
  repeat split; vm_compute; reflexivity.
Qed.

Example example_report :
  exists r,
    generate_profit_loss_report ledger_example = Ok (Table [r])
    /\ (BuyCost r == 1500)%Q /\ (SellRevenue r == 465)%Q
    /\ (RealizedProfitLoss r == 15)%Q /\ (UnrealizedProfitLoss r == 35)%Q
    /\ (TotalProfitLoss r == 50)%Q.
Proof.
  eexists. split; [vm_compute; reflexivity|].
  repeat split; vm_compute; reflexivity.
Qed.

Example example_insufficient_shares :
  exists holdings,
    get_current_holdings ledger_five = Ok holdings
    /\ validate_transaction (tx 2 "AAPL" "Sell" 100 10) holdings
       = Ok (false, "Cannot sell 10 shares of AAPL. You only own 5 shares.").
Proof.
  eexists. split; vm_compute; reflexivity.
Qed.

Example example_empty_summary :
  get_portfolio_summary [] = Ok (mkSummary 0 0 0 0 0 0 0).
Proof. reflexivity. Qed.

(** ** Sorting *)

Section SortFacts.
Context {A : Type}.
Variable leb : A -> A -> bool.

Lemma insert_sorted_perm (x : A) (l : list A) :
  Permutation (insert_sorted leb x l) (x :: l).
Proof.
  induction l as [|y t IH]; simpl.
  - apply Permutation_refl.
  - destruct (leb x y).
    + apply Permutation_refl.
    + eapply perm_trans; [apply perm_skip, IH | apply perm_swap].
Qed.

Lemma stable_sort_perm (l : list A) : Permutation (stable_sort leb l) l.
Proof.
  induction l as [|x t IH]; simpl.
  - constructor.
  - eapply perm_trans; [apply insert_sorted_perm | apply perm_skip, IH].
Qed.

Lemma stable_sort_In (x : A) (l : list A) :
  In x (stable_sort leb l) <-> In x l.
Proof.
  split; apply Permutation_in;
    [ | apply Permutation_sym ]; apply stable_sort_perm.
Qed.

Hypothesis leb_total : forall a b, leb a b = true \/ leb b a = true.
Hypothesis leb_trans :
  forall a b c, leb a b = true -> leb b c = true -> leb a c = true.

Lemma insert_sorted_sorted (x : A) (l : list A) :
  StronglySorted (fun a b => leb a b = true) l ->
  StronglySorted (fun a b => leb a b = true) (insert_sorted leb x l).
Proof.
  induction 1 as [|y t Ht IH Hy]; simpl.
  - repeat constructor.
  - destruct (leb x y) eqn:E.
    + constructor; [constructor; assumption|].
      constructor; [assumption|].
      eapply Forall_impl; [|exact Hy]. intros z Hz. eauto.
    + constructor; [assumption|].
      assert (Hyx : leb y x = true)
        by (destruct (leb_total x y); congruence).
      rewrite Forall_forall in *. intros z Hz.
      apply (Permutation_in _ (insert_sorted_perm x t)) in Hz.
      destruct Hz as [<-|Hz]; auto.
Qed.

Lemma stable_sort_is_sorted (l : list A) :
  StronglySorted (fun a b => leb a b = true) (stable_sort leb l).
Proof.
  induction l; simpl; [constructor | now apply insert_sorted_sorted].
Qed.
End SortFacts.

(** ** First occurrences *)

Section UniqueFacts.
Context {A : Type}.
Variable eqb : A -> A -> bool.
Hypothesis eqb_eq : forall x y, eqb x y = true <-> x = y.

Lemma mem_In (x : A) (l : list A) : mem eqb x l = true <-> In x l.
Proof.
  unfold mem. rewrite existsb_exists. split.
  - intros (y & Hy & E). apply eqb_eq in E. now subst.
  - intros H. exists x. split; [assumption | now apply eqb_eq].
Qed.

Lemma unique_In (x : A) (l : list A) : In x (unique eqb l) <-> In x l.
Proof.
  induction l as [|y t IH]; simpl; [tauto|].
  rewrite filter_In, IH. split.
  - intros [H|[H _]]; auto.
  - intros [H|H]; auto.
    destruct (eqb y x) eqn:E; [left; now apply eqb_eq | right; auto].
Qed.

Lemma unique_NoDup (l : list A) : NoDup (unique eqb l).
Proof.
  induction l as [|y t IH]; simpl; constructor.
  - rewrite filter_In. intros [_ H].
    assert (E : eqb y y = true) by now apply eqb_eq.
    rewrite E in H. discriminate.
  - now apply NoDup_filter.
Qed.
End UniqueFacts.

Lemma filter_StronglySorted {A : Type} (R : A -> A -> Prop) (p : A -> bool)
      (l : list A) :
  StronglySorted R l -> StronglySorted R (filter p l).
Proof.
  induction 1 as [|x t Ht IH Hx]; simpl; [constructor|].
  destruct (p x); [|assumption].
  constructor; [assumption|].
  rewrite Forall_forall in *. intros y Hy. apply filter_In in Hy. now apply Hx.
Qed.

(** The distinct values of a non-decreasing list are strictly increasing. *)
Lemma unique_sorted_lt (l : list Z) :
  StronglySorted Z.le l -> StronglySorted Z.lt (unique Z.eqb l).
Proof.
  induction 1 as [|x t Ht IH Hx]; simpl; constructor.
  - now apply filter_StronglySorted.
  - rewrite Forall_forall in *. intros y Hy.
    apply filter_In in Hy. destruct Hy as [Hy Hne].
    apply (proj1 (unique_In Z.eqb Z.eqb_eq y t)) in Hy. specialize (Hx y Hy).
    apply negb_true_iff, Z.eqb_neq in Hne. lia.
Qed.

Lemma StronglySorted_weaken {A : Type} (R S : A -> A -> Prop) (l : list A) :
  (forall a b, R a b -> S a b) -> StronglySorted R l -> StronglySorted S l.
Proof.
  intros HRS. induction 1 as [|x t Ht IH Hx]; constructor; [assumption|].
  eapply Forall_impl; [|exact Hx]. intros b. apply HRS.
Qed.

Lemma StronglySorted_map {A B : Type} (f : A -> B) (R : B -> B -> Prop)
      (l : list A) :
  StronglySorted (fun a b => R (f a) (f b)) l -> StronglySorted R (map f l).
Proof.
  induction 1 as [|x t Ht IH Hx]; simpl; constructor; [assumption|].
  rewrite Forall_forall in *. intros y Hy. apply in_map_iff in Hy.
  destruct Hy as (z & <- & Hz). now apply Hx.
Qed.

Lemma Zsum_perm (l l' : list Z) : Permutation l l' -> Zsum l = Zsum l'.
Proof.
  induction 1; simpl; lia.
Qed.

Lemma filter_perm {A : Type} (p : A -> bool) (l l' : list A) :
  Permutation l l' -> Permutation (filter p l) (filter p l').
Proof.
  induction 1 as [|x l l' H IH|x y l|l l' l'' H1 IH1 H2 IH2]; simpl.
  - constructor.
  - destruct (p x); [apply perm_skip|]; exact IH.
  - destruct (p x), (p y); try apply Permutation_refl. apply perm_swap.
  - eapply perm_trans; eassumption.
Qed.

(** ** Sorting the ledger by date *)

Lemma sort_values_date_perm (df : Ledger) :
  Permutation (sort_values_date df) df.
Proof. apply stable_sort_perm. Qed.

Lemma sort_values_date_chronological (df : Ledger) :
  chronological (sort_values_date df).
Proof.
  unfold chronological, sort_values_date.
  eapply StronglySorted_weaken;
    [|apply (stable_sort_is_sorted (fun a b => Date a <=? Date b))].
  - intros a b H. now apply Z.leb_le.
  - intros a b. rewrite !Z.leb_le. lia.
  - intros a b c. rewrite !Z.leb_le. lia.
Qed.

(** ** Grouping by ticker *)

Lemma groupby_ticker_keys (df : Ledger) (k : string) :
  In k (map fst (groupby_ticker df)) <-> In k (map Ticker df).
Proof.
  unfold groupby_ticker. rewrite map_map. simpl. rewrite map_id.
  rewrite stable_sort_In. apply unique_In, String.eqb_eq.
Qed.

Lemma groupby_ticker_NoDup (df : Ledger) : NoDup (map fst (groupby_ticker df)).
Proof.
  unfold groupby_ticker. rewrite map_map. simpl. rewrite map_id.
  eapply Permutation_NoDup;
    [apply Permutation_sym, stable_sort_perm | apply unique_NoDup, String.eqb_eq].
Qed.

Lemma groupby_ticker_group (df : Ledger) (k : string) (g : Ledger) :
  In (k, g) (groupby_ticker df) -> g = ticker_rows k df.
Proof.
  unfold groupby_ticker. rewrite in_map_iff.
  intros (k' & E & _). now inversion E.
Qed.

Lemma groupby_ticker_In (df : Ledger) (kg : string * Ledger) :
  In kg (groupby_ticker df) <->
  In (fst kg) (map Ticker df) /\ snd kg = ticker_rows (fst kg) df.
Proof.
  destruct kg as [k g]. simpl. split.
  - intros H. split; [|now apply groupby_ticker_group].
    apply groupby_ticker_keys, in_map_iff. now exists (k, g).
  - intros [Hk ->]. apply groupby_ticker_keys in Hk.
    apply in_map_iff in Hk. destruct Hk as ([k' g'] & E & H). simpl in E. subst.
    now rewrite <- (groupby_ticker_group _ _ _ H).
Qed.

(** ** Guarded divisions *)

Lemma Qltb_lt (a b : Q) : Qltb a b = true <-> (a < b)%Q.
Proof.
  unfold Qltb. rewrite negb_true_iff. split.
  - intros H. apply Qnot_le_lt. intros Hle.
    apply Qle_bool_iff in Hle. congruence.
  - intros H. destruct (Qle_bool b a) eqn:E; [|reflexivity].
    apply Qle_bool_iff in E. exfalso. eapply Qlt_not_le; eassumption.
Qed.

Lemma Qltb_ge (a b : Q) : Qltb a b = false <-> (b <= a)%Q.
Proof.
  unfold Qltb. rewrite negb_false_iff. apply Qle_bool_iff.
Qed.

Lemma div_nonzero (a b : Q) : ~ (b == 0)%Q -> div a b = Ok (a / b)%Q.
Proof.
  intros H. unfold div. destruct (Qeq_bool b 0) eqn:E; [|reflexivity].
  apply Qeq_bool_iff in E. contradiction.
Qed.

Lemma div_positive (a b : Q) : Qltb 0 b = true -> div a b = Ok (a / b)%Q.
Proof.
  intros H. apply div_nonzero. apply Qltb_lt in H.
  intros E. rewrite E in H. now apply Qlt_irrefl in H.
Qed.

Lemma div_positive_Z (a : Q) (n : Z) :
  (0 <? n) = true -> div a (inject_Z n) = Ok (a / inject_Z n)%Q.
Proof.
  intros H. apply Z.ltb_lt in H. apply div_nonzero.
  unfold Qeq, inject_Z. simpl. lia.
Qed.

(** ** The holdings loop never raises *)

Lemma iloc_last_nonempty {A : Type} (l : list A) :
  l <> [] -> exists x, iloc_last l = Ok x.
Proof.
  induction l as [|x t IH]; [congruence|]. intros _.
  destruct t as [|y t']; [now exists x|].
  apply IH. discriminate.
Qed.

Lemma holding_record_ok (ticker : string) (group : Ledger) :
  0 < Zsum (map Quantity group) ->
  holding_record ticker group (Zsum (map Quantity group))
  = Ok (holding_of ticker group).
Proof.
  intros Hpos.
  assert (Hne : group <> []) by (intros ->; simpl in Hpos; lia).
  destruct (iloc_last_nonempty group Hne) as [r Hr].
  unfold holding_record, holding_of, avg_cost_of, last_price_of, return_pct_of.
  rewrite Hr.
  assert (Hret : forall pl c : Q,
             (if Qltb 0 c then q <- div pl c ;; Ok (q * 100)%Q else Ok 0%Q)
             = Ok (if Qltb 0 c then (pl / c * 100)%Q else 0%Q)).
  { intros pl c. destruct (Qltb 0 c) eqn:Ec; [|reflexivity].
    now rewrite (div_positive _ _ Ec). }
  destruct (negb (is_nil (filter (is_type "Buy") group))); cbn [andb bind].
  - destruct (0 <? Zsum (map Quantity (filter (is_type "Buy") group))) eqn:E.
    + rewrite (div_positive_Z _ _ E). cbn [bind]. now rewrite Hret.
    + cbn [bind]. now rewrite Hret.
  - now rewrite Hret.
Qed.

Lemma holdings_loop_ok (groups : list (string * Ledger)) :
  holdings_loop groups
  = Ok (map (fun kg => holding_of (fst kg) (snd kg))
            (filter open_position groups)).
Proof.
  induction groups as [|[k g] rest IH]; [reflexivity|].
  cbn [holdings_loop filter]. unfold open_position at 1. cbn [snd].
  destruct (Zsum (map Quantity g) <=? 0) eqn:E; cbn [negb]; [exact IH|].
  apply Z.leb_gt in E. rewrite (holding_record_ok k g E), IH. reflexivity.
Qed.

Lemma holdings_list_ok (df : Ledger) : holdings_list df = Ok (raw_holdings df).
Proof. apply holdings_loop_ok. Qed.

Lemma get_current_holdings_ok (df : Ledger) :
  get_current_holdings df = Ok (holdings_frame df).
Proof.
  unfold get_current_holdings, holdings_frame.
  destruct (is_nil df); [reflexivity|].
  rewrite holdings_list_ok. cbn [bind].
  destruct (raw_holdings df); reflexivity.
Qed.

Lemma rows_holdings_frame (df : Ledger) :
  rows (holdings_frame df) = map round_holding (raw_holdings df).
Proof.
  unfold holdings_frame. destruct df as [|r df]; [reflexivity|].
  cbn [is_nil]. destruct (raw_holdings (r :: df)); reflexivity.
Qed.

(** ** Holdings: which tickers, how many shares *)

Lemma negate_sell_Ticker (r : Transaction) : Ticker (negate_sell r) = Ticker r.
Proof. unfold negate_sell. now destruct (is_type "Sell" r). Qed.

Lemma negate_sell_type (r : Transaction) :
  TransactionType (negate_sell r) = TransactionType r.
Proof. unfold negate_sell. now destruct (is_type "Sell" r). Qed.

Lemma negate_sell_buy (r : Transaction) :
  is_type "Buy" r = true -> negate_sell r = r.
Proof.
  unfold negate_sell, is_type. intros H. apply String.eqb_eq in H.
  now rewrite H.
Qed.

Lemma filter_map_commute {A B : Type} (f : A -> B) (p : B -> bool) (l : list A) :
  filter p (map f l) = map f (filter (fun x => p (f x)) l).
Proof.
  induction l as [|x t IH]; simpl; [reflexivity|].
  destruct (p (f x)); simpl; now rewrite IH.
Qed.

Lemma group_of_map (t : string) (df : Ledger) :
  group_of t df = map negate_sell (ticker_rows t df).
Proof.
  unfold group_of, ticker_rows. rewrite filter_map_commute.
  f_equal. apply filter_ext. intros r. unfold has_ticker.
  now rewrite negate_sell_Ticker.
Qed.

Lemma buys_of_group (t : string) (df : Ledger) :
  filter (is_type "Buy") (group_of t df) = buys_of t df.
Proof.
  rewrite group_of_map. unfold buys_of.
  induction (ticker_rows t df) as [|r g IH]; simpl; [reflexivity|].
  unfold is_type at 1. rewrite negate_sell_type. fold (is_type "Buy" r).
  destruct (is_type "Buy" r) eqn:E; [|exact IH].
  now rewrite (negate_sell_buy r E), IH.
Qed.

(** On a typed ledger the signed sum of a group is the net of its ticker. *)
Lemma group_shares_net (t : string) (df : Ledger) :
  Forall typed df -> Zsum (map Quantity (group_of t df)) = net_shares t df.
Proof.
  intros Hty. rewrite group_of_map. unfold net_shares, buys_of, sells_of.
  assert (Hg : Forall typed (ticker_rows t df)).
  { rewrite Forall_forall in *. intros r Hr. apply filter_In in Hr. now apply Hty. }
  induction Hg as [|r g Hr _ IH]; simpl; [reflexivity|].
  unfold negate_sell, is_type in *.
  destruct Hr as [E|E]; rewrite E; simpl; lia.
Qed.

Lemma ticker_rows_absent (t : string) (df : Ledger) :
  ~ In t (map Ticker df) -> ticker_rows t df = [].
Proof.
  intros H. unfold ticker_rows.
  induction df as [|r df IH]; simpl; [reflexivity|].
  unfold has_ticker at 1. destruct (String.eqb_spec (Ticker r) t) as [E|E].
  - exfalso. apply H. left. exact E.
  - apply IH. intros Hin. apply H. right. exact Hin.
Qed.

Lemma ticker_rows_present (t : string) (df : Ledger) :
  ticker_rows t df <> [] -> In t (map Ticker df).
Proof.
  intros H. destruct (in_dec string_dec t (map Ticker df)) as [Hin|Hin];
    [assumption|]. now apply ticker_rows_absent in Hin.
Qed.

Lemma raw_holdings_In (df : Ledger) (h : Holding) :
  In h (raw_holdings df) <->
  exists t, 0 < Zsum (map Quantity (group_of t df))
            /\ h = holding_of t (group_of t df).
Proof.
  unfold raw_holdings. rewrite in_map_iff. split.
  - intros ([k g] & <- & Hin). apply filter_In in Hin. destruct Hin as [Hin Hop].
    apply groupby_ticker_group in Hin. cbn [fst snd] in *. subst g.
    exists k. split; [|reflexivity].
    unfold open_position in Hop. cbn [snd] in Hop.
    apply negb_true_iff, Z.leb_gt in Hop. exact Hop.
  - intros (t & Hpos & ->). exists (t, group_of t df). split; [reflexivity|].
    apply filter_In. split.
    + apply groupby_ticker_In. cbn [fst snd]. split; [|reflexivity].
      apply ticker_rows_present. intros E. unfold group_of in Hpos.
      rewrite E in Hpos. simpl in Hpos. lia.
    + unfold open_position. cbn [snd]. apply negb_true_iff, Z.leb_gt. exact Hpos.
Qed.

(** Dropping groups keeps the keys distinct. *)
Lemma open_positions_NoDup (groups : list (string * Ledger)) :
  NoDup (map fst groups) -> NoDup (map fst (filter open_position groups)).
Proof.
  intros Hkeys. induction groups as [|kg rest IH]; [exact Hkeys|].
  cbn [map filter] in *. apply NoDup_cons_iff in Hkeys.
  destruct Hkeys as [Hfresh Hrest]. specialize (IH Hrest).
  destruct (open_position kg); [|exact IH].
  cbn [map]. apply NoDup_cons; [|exact IH].
  contradict Hfresh. apply in_map_iff in Hfresh.
  destruct Hfresh as (kg' & Hkey & Hkept). apply filter_In in Hkept.
  rewrite <- Hkey. apply in_map. tauto.
Qed.

Lemma raw_holdings_NoDup (df : Ledger) : NoDup (map hTicker (raw_holdings df)).
Proof.
  unfold raw_holdings. rewrite map_map. cbn [holding_of hTicker].
  apply open_positions_NoDup, groupby_ticker_NoDup.
Qed.

Lemma map_hTicker_round (hs : list Holding) :
  map hTicker (map round_holding hs) = map hTicker hs.
Proof. rewrite map_map. reflexivity. Qed.

(** C1. For every ledger of Buy and Sell transactions the Holdings
    Calculator returns a frame in which a ticker appears if and only if its
    net shares (Buy quantities minus Sell quantities of that ticker) are
    strictly positive; each row's Shares is that net quantity, and a ticker
    has at most one row. *)
Theorem holdings_iff_positive_net (df : Ledger) :
  Forall typed df ->
  exists holdings,
    get_current_holdings df = Ok holdings
    /\ (forall t, In t (map hTicker (rows holdings)) <-> 0 < net_shares t df)
    /\ (forall h, In h (rows holdings) -> Shares h = net_shares (hTicker h) df)
    /\ NoDup (map hTicker (rows holdings)).
Proof.
  intros Hty. exists (holdings_frame df).
  split; [apply get_current_holdings_ok|].
  rewrite rows_holdings_frame, map_hTicker_round.
  split; [|split].
  - intros t. rewrite in_map_iff. split.
    + intros (h & <- & Hin). apply raw_holdings_In in Hin.
      destruct Hin as (k & Hpos & ->). cbn [holding_of hTicker].
      now rewrite <- (group_shares_net k df Hty).
    + intros Hpos. rewrite <- (group_shares_net t df Hty) in Hpos.
      exists (holding_of t (group_of t df)). split; [reflexivity|].
      apply raw_holdings_In. now exists t.
  - intros h Hin. apply in_map_iff in Hin. destruct Hin as (h0 & <- & Hin).
    apply raw_holdings_In in Hin. destruct Hin as (k & _ & ->).
    cbn [round_holding holding_of hTicker Shares].
    apply group_shares_net, Hty.
  - apply raw_holdings_NoDup.
Qed.

Ltac solve_Forall :=
  repeat (apply Forall_cons;
          [first [ left; reflexivity | right; reflexivity
                 | intros _; reflexivity | intros ?; discriminate
                 | reflexivity ] |]);
  apply Forall_nil.

Lemma holdings_iff_positive_net_witness :
  exists holdings,
    get_current_holdings ledger_example = Ok holdings
    /\ (forall t, In t (map hTicker (rows holdings))
                  <-> 0 < net_shares t ledger_example)
    /\ (forall h, In h (rows holdings)
                  -> Shares h = net_shares (hTicker h) ledger_example)
    /\ NoDup (map hTicker (rows holdings)).
Proof.
  apply (holdings_iff_positive_net ledger_example). unfold ledger_example.
  solve_Forall.
Defined.

(** ** Holdings: the cost basis *)

Lemma Zsum_positive (l : list Z) :
  l <> [] -> Forall (fun z => 0 < z) l -> 0 < Zsum l.
Proof.
  intros Hne H. induction H as [|z t Hz Ht IH]; [congruence|].
  simpl. destruct t as [|z' t']; simpl in *; [lia|].
  assert (0 < z' + Zsum t') by (apply IH; discriminate). lia.
Qed.

Lemma buys_positive_sum (t : string) (df : Ledger) :
  Forall buy_quantity_positive df ->
  buys_of t df <> [] -> 0 < Zsum (map Quantity (buys_of t df)).
Proof.
  intros H Hne. apply Zsum_positive.
  - intros E. apply map_eq_nil in E. contradiction.
  - rewrite Forall_forall in *. intros z Hz. apply in_map_iff in Hz.
    destruct Hz as (r & <- & Hr). unfold buys_of, ticker_rows in Hr.
    apply filter_In in Hr. destruct Hr as [Hr Hb].
    apply filter_In in Hr. destruct Hr as [Hr _]. now apply H.
Qed.

Lemma avg_cost_of_group (t : string) (df : Ledger) :
  Forall buy_quantity_positive df ->
  avg_cost_of (group_of t df) = average_buy_cost t df.
Proof.
  intros H. unfold avg_cost_of, average_buy_cost. rewrite buys_of_group.
  destruct (buys_of t df) as [|r b] eqn:E; [reflexivity|]. cbn [is_nil negb andb].
  rewrite <- E.
  assert (Hpos : 0 < Zsum (map Quantity (buys_of t df))).
  { apply buys_positive_sum; [assumption|]. rewrite E. discriminate. }
  apply Z.ltb_lt in Hpos. now rewrite Hpos.
Qed.

Lemma round_half_even_comp (x y : Q) :
  (x == y)%Q -> round_half_even x = round_half_even y.
Proof.
  intros H. unfold round_half_even.
  rewrite (Qfloor_comp x y H).
  assert (E : (x - inject_Z (Qfloor y) ?= 1 # 2)%Q
              = (y - inject_Z (Qfloor y) ?= 1 # 2)%Q)
    by (apply Qcompare_comp; [now rewrite H | reflexivity]).
  now rewrite E.
Qed.

(** Rounding depends on the value only, not on the fraction denoting it. *)
Lemma round2_comp (x y : Q) : (x == y)%Q -> round2 x = round2 y.
Proof.
  intros H. unfold round2. f_equal. apply round_half_even_comp. now rewrite H.
Qed.

Lemma round2_zero (x : Q) : (x == 0)%Q -> (round2 x == 0)%Q.
Proof.
  intros H. rewrite (round2_comp x 0 H). reflexivity.
Qed.

(** ** Rounding to two decimals *)

Lemma round_half_even_bounds (x : Q) :
  Qfloor x <= round_half_even x <= Qfloor x + 1.
Proof.
  unfold round_half_even.
  destruct (x - inject_Z (Qfloor x) ?= 1 # 2)%Q; [|lia|lia].
  destruct (Z.even (Qfloor x)); lia.
Qed.

Lemma round_half_even_mono (x y : Q) :
  (x <= y)%Q -> round_half_even x <= round_half_even y.
Proof.
  intros Hxy. pose proof (Qfloor_resp_le x y Hxy) as Hq.
  destruct (Z.eq_dec (Qfloor x) (Qfloor y)) as [E|E].
  2:{ pose proof (round_half_even_bounds x). pose proof (round_half_even_bounds y).
      lia. }
  unfold round_half_even. rewrite E.
  destruct (x - inject_Z (Qfloor y) ?= 1 # 2)%Q eqn:Ex;
    destruct (y - inject_Z (Qfloor y) ?= 1 # 2)%Q eqn:Ey;
    try (destruct (Z.even (Qfloor y)); lia); try lia; exfalso;
    first [ apply (proj2 (Qeq_alt _ _)) in Ex
          | apply (proj2 (Qlt_alt _ _)) in Ex
          | apply (proj2 (Qgt_alt _ _)) in Ex ];
    first [ apply (proj2 (Qeq_alt _ _)) in Ey
          | apply (proj2 (Qlt_alt _ _)) in Ey
          | apply (proj2 (Qgt_alt _ _)) in Ey ];
    lra.
Qed.

Lemma round_half_even_close (x : Q) :
  (- (1 # 2) <= inject_Z (round_half_even x) - x <= 1 # 2)%Q.
Proof.
  pose proof (Qfloor_le x) as Hlo. pose proof (Qlt_floor x) as Hhi.
  rewrite inject_Z_plus in Hhi. change (inject_Z 1) with 1%Q in Hhi.
  unfold round_half_even.
  destruct (x - inject_Z (Qfloor x) ?= 1 # 2)%Q eqn:Ex.
  - apply (proj2 (Qeq_alt _ _)) in Ex.
    destruct (Z.even (Qfloor x)); [|rewrite inject_Z_plus;
                                     change (inject_Z 1) with 1%Q]; lra.
  - apply (proj2 (Qlt_alt _ _)) in Ex. lra.
  - apply (proj2 (Qgt_alt _ _)) in Ex. rewrite inject_Z_plus.
    change (inject_Z 1) with 1%Q. lra.
Qed.

Lemma Qmake_hundredths (n : Z) : (n # 100 == inject_Z n * (1 # 100))%Q.
Proof. unfold Qeq, inject_Z. simpl. lia. Qed.

(** A rounded amount is within half a cent of the amount. *)
Lemma round2_close (x : Q) : (- (1 # 200) <= round2 x - x <= 1 # 200)%Q.
Proof.
  unfold round2. rewrite Qmake_hundredths.
  pose proof (round_half_even_close (x * 100)). lra.
Qed.

Lemma round2_mono (x y : Q) : (x <= y)%Q -> (round2 x <= round2 y)%Q.
Proof.
  intros H. unfold round2.
  assert (Hn : round_half_even (x * 100) <= round_half_even (y * 100))
    by (apply round_half_even_mono; lra).
  unfold Qle. simpl. lia.
Qed.

Lemma round_half_even_Z (n : Z) : round_half_even (inject_Z n) = n.
Proof.
  unfold round_half_even. rewrite Qfloor_Z.
  assert (E : (inject_Z n - inject_Z n ?= 1 # 2)%Q = Lt)
    by (apply (proj1 (Qlt_alt _ _)); lra).
  now rewrite E.
Qed.

(** Rounding an amount already rounded changes nothing. *)
Lemma round2_idempotent (x : Q) : round2 (round2 x) = round2 x.
Proof.
  unfold round2. f_equal.
  rewrite (round_half_even_comp _ (inject_Z (round_half_even (x * 100)))).
  - apply round_half_even_Z.
  - rewrite Qmake_hundredths. field.
Qed.

Lemma round2_within_a_cent (x : Q) : within_a_cent (round2 x) x.
Proof.
  unfold within_a_cent. pose proof (round2_close x) as H.
  apply Qabs_Qlt_condition. lra.
Qed.

Lemma round2_whole_cents (x : Q) : whole_cents (round2 x).
Proof. exists (round_half_even (x * 100)). reflexivity. Qed.

(** C2. For every ledger whose Buy rows have positive quantities, every
    ticker of positive net shares has a row in the Holdings Calculator's
    output (on a ledger of Buy and Sell transactions), and in every row of
    the output Average Cost is sum(Buy.Total) / sum(Buy.Quantity) over the
    ticker's Buy rows alone (0 if there are none; the Sell rows do not enter
    [average_buy_cost]) and Total Cost is that average times the row's
    shares.  Both columns are amounts in whole cents, the output being
    rounded to two decimals, and lie less than a cent from the exact
    quotient and product; without Buy rows both are 0. *)
Theorem holdings_cost_basis (df : Ledger) :
  Forall buy_quantity_positive df ->
  exists holdings,
    get_current_holdings df = Ok holdings
    /\ (Forall typed df ->
        forall t, 0 < net_shares t df ->
          exists h, In h (rows holdings) /\ hTicker h = t
                    /\ Shares h = net_shares t df)
    /\ forall h, In h (rows holdings) ->
         let t := hTicker h in
         0 < Shares h
         /\ within_a_cent (AverageCost h) (average_buy_cost t df)
         /\ within_a_cent (TotalCost h)
                          (average_buy_cost t df * inject_Z (Shares h))
         /\ whole_cents (AverageCost h) /\ whole_cents (TotalCost h)
         /\ (buys_of t df = [] ->
             (AverageCost h == 0)%Q /\ (TotalCost h == 0)%Q).
Proof.
  intros Hq. exists (holdings_frame df).
  split; [apply get_current_holdings_ok|].
  rewrite rows_holdings_frame. split.
  - intros Hty t Hpos. rewrite <- (group_shares_net t df Hty) in Hpos.
    exists (round_holding (holding_of t (group_of t df))).
    split; [|split; [reflexivity | apply group_shares_net, Hty]].
    apply in_map, raw_holdings_In. now exists t.
  - intros h Hin.
    apply in_map_iff in Hin. destruct Hin as (h0 & <- & Hin).
    apply raw_holdings_In in Hin. destruct Hin as (k & Hpos & ->).
    cbn [round_holding holding_of hTicker Shares AverageCost TotalCost].
    rewrite (avg_cost_of_group k df Hq).
    split; [exact Hpos|].
    split; [apply round2_within_a_cent|].
    split; [apply round2_within_a_cent|].
    split; [apply round2_whole_cents|].
    split; [apply round2_whole_cents|].
    intros Hb. unfold average_buy_cost. rewrite Hb. cbn [is_nil].
    split; apply round2_zero; [reflexivity | apply Qmult_0_l].
Qed.

Lemma holdings_cost_basis_witness :
  exists holdings,
    get_current_holdings ledger_mixed = Ok holdings
    /\ (Forall typed ledger_mixed ->
        forall t, 0 < net_shares t ledger_mixed ->
          exists h, In h (rows holdings) /\ hTicker h = t
                    /\ Shares h = net_shares t ledger_mixed)
    /\ forall h, In h (rows holdings) ->
         let t := hTicker h in
         0 < Shares h
         /\ within_a_cent (AverageCost h) (average_buy_cost t ledger_mixed)
         /\ within_a_cent (TotalCost h)
                          (average_buy_cost t ledger_mixed * inject_Z (Shares h))
         /\ whole_cents (AverageCost h) /\ whole_cents (TotalCost h)
         /\ (buys_of t ledger_mixed = [] ->
             (AverageCost h == 0)%Q /\ (TotalCost h == 0)%Q).
Proof.
  apply (holdings_cost_basis ledger_mixed). unfold ledger_mixed.
  solve_Forall.
Defined.

(** In that ledger the second ticker is held at zero cost. *)
Example example_no_buys :
  exists h1 h2,
    get_current_holdings ledger_mixed = Ok (Table [h1; h2])
    /\ hTicker h2 = "MSFT" /\ Shares h2 = 5
    /\ (AverageCost h2 == 0)%Q /\ (TotalCost h2 == 0)%Q
    /\ (CurrentValue h2 == 50)%Q.
Proof.
  do 2 eexists. split; [vm_compute; reflexivity|].
  repeat split; vm_compute; reflexivity.
Qed.

(** ** The order of tickers *)

Lemma string_leb_trans (a b c : string) :
  String.leb a b = true -> String.leb b c = true -> String.leb a c = true.
Proof.
  revert b c. induction a as [|x a IH]; intros [|y b] [|z c];
    unfold String.leb; cbn [String.compare]; try congruence.
  assert (IH' : forall b c, String.compare a b <> Gt ->
                            String.compare b c <> Gt ->
                            String.compare a c <> Gt).
  { intros b' c' H1 H2. specialize (IH b' c'). unfold String.leb in IH.
    destruct (String.compare a b'); try congruence;
      destruct (String.compare b' c'); try congruence;
      destruct (String.compare a c'); try congruence;
      (assert (true = true) as E by reflexivity; specialize (IH E E);
       discriminate). }
  destruct (Ascii.compare x y) eqn:Exy; try congruence.
  - apply Ascii.compare_eq_iff in Exy. subst y.
    destruct (Ascii.compare x z) eqn:Exz; try congruence.
    intros H1 H2.
    assert (Hab : String.compare a b <> Gt)
      by (destruct (String.compare a b); congruence).
    assert (Hbc : String.compare b c <> Gt)
      by (destruct (String.compare b c); congruence).
    specialize (IH' b c Hab Hbc).
    destruct (String.compare a c); congruence.
  - intros _. destruct (Ascii.compare y z) eqn:Eyz; try congruence.
    + apply Ascii.compare_eq_iff in Eyz. subst z. now rewrite Exy.
    + intros _. unfold Ascii.compare in *.
      apply N.compare_lt_iff in Exy, Eyz.
      assert (Hxz : (N_of_ascii x < N_of_ascii z)%N)
        by (eapply N.lt_trans; eassumption).
      apply N.compare_lt_iff in Hxz. now rewrite Hxz.
Qed.

Lemma string_ltb_leb (a b : string) :
  String.ltb a b = true <-> String.leb a b = true /\ a <> b.
Proof.
  unfold String.ltb, String.leb. split.
  - destruct (String.compare a b) eqn:E; try discriminate.
    intros _. split; [reflexivity|]. intros ->.
    pose proof (String.compare_antisym b b) as H. rewrite E in H.
    discriminate.
  - intros [H Hne]. destruct (String.compare a b) eqn:E;
      [|reflexivity|discriminate].
    apply String.compare_eq_iff in E. contradiction.
Qed.

(** A duplicate-free list in order is in strict order. *)
Lemma sorted_NoDup_strict {A : Type} (key : A -> string) (l : list A) :
  StronglySorted (fun a b => String.leb (key a) (key b) = true) l ->
  NoDup (map key l) ->
  StronglySorted (fun a b => String.ltb (key a) (key b) = true) l.
Proof.
  induction 1 as [|x t Ht IH Hx]; intros Hnd; [constructor|].
  cbn [map] in Hnd. apply NoDup_cons_iff in Hnd. destruct Hnd as [Hfresh Hnd].
  constructor; [now apply IH|].
  rewrite Forall_forall in *. intros y Hy. apply string_ltb_leb.
  split; [now apply Hx|]. intros E. apply Hfresh. rewrite E. now apply in_map.
Qed.

Lemma sort_by_ticker_sorted {A : Type} (key : A -> string) (l : list A) :
  StronglySorted (fun a b => String.leb (key a) (key b) = true)
                 (stable_sort (fun a b => String.leb (key a) (key b)) l).
Proof.
  apply (stable_sort_is_sorted (fun a b => String.leb (key a) (key b))).
  - intros a b. apply String.leb_total.
  - intros a b c. apply string_leb_trans.
Qed.

Lemma groupby_ticker_sorted (df : Ledger) :
  StronglySorted (fun a b => String.ltb (fst a) (fst b) = true)
                 (groupby_ticker df).
Proof.
  apply sorted_NoDup_strict; [|apply groupby_ticker_NoDup].
  unfold groupby_ticker.
  assert (H : StronglySorted (fun a b => String.leb a b = true)
                (stable_sort String.leb (unique String.eqb (map Ticker df))))
    by apply (sort_by_ticker_sorted (fun k : string => k)).
  revert H.
  generalize (stable_sort String.leb (unique String.eqb (map Ticker df))).
  intros keys H. induction H as [|k t Ht IH Hk]; cbn [map]; constructor;
    [assumption|].
  rewrite Forall_forall in *. intros kg Hkg. apply in_map_iff in Hkg.
  destruct Hkg as (k' & <- & Hk'). cbn [fst]. now apply Hk.
Qed.

Lemma strict_sorted_unique (l l' : list string) :
  StronglySorted (fun a b => String.ltb a b = true) l ->
  StronglySorted (fun a b => String.ltb a b = true) l' ->
  (forall x, In x l <-> In x l') -> l = l'.
Proof.
  intros Hl. revert l'. induction Hl as [|a t Ht IH Ha]; intros l' Hl' Hsame.
  - destruct l' as [|b t']; [reflexivity|].
    exfalso. apply (Hsame b). now left.
  - destruct Hl' as [|b t' Ht' Hb].
    { exfalso. apply (Hsame a). now left. }
    rewrite Forall_forall in Ha, Hb.
    assert (Hasym : forall x y, String.ltb x y = true ->
                                String.ltb y x = true -> False).
    { intros x y Hxy Hyx. apply string_ltb_leb in Hxy, Hyx.
      destruct Hxy as [Hxy Hne], Hyx as [Hyx _].
      apply Hne. now apply String.leb_antisym. }
    assert (Eab : a = b).
    { destruct (proj1 (Hsame a) (or_introl eq_refl)) as [E|Hin]; [now symmetry|].
      destruct (proj2 (Hsame b) (or_introl eq_refl)) as [E|Hin']; [assumption|].
      exfalso. apply (Hasym a b); [now apply Ha | now apply Hb]. }
    subst b. f_equal. apply IH; [assumption|].
    intros x. split; intros Hx.
    + destruct (proj1 (Hsame x) (or_intror Hx)) as [E|Hin]; [|assumption].
      subst x. exfalso. specialize (Ha a Hx).
      apply string_ltb_leb in Ha. now destruct Ha.
    + destruct (proj2 (Hsame x) (or_intror Hx)) as [E|Hin]; [|assumption].
      subst x. exfalso. specialize (Hb a Hx).
      apply string_ltb_leb in Hb. now destruct Hb.
Qed.

Lemma ticker_keys_sorted (df : Ledger) :
  StronglySorted (fun a b => String.ltb a b = true)
                 (stable_sort String.leb (unique String.eqb (map Ticker df))).
Proof.
  apply (sorted_NoDup_strict (fun k : string => k)).
  - apply (sort_by_ticker_sorted (fun k : string => k)).
  - rewrite map_id. eapply Permutation_NoDup;
      [apply Permutation_sym, stable_sort_perm
      | apply unique_NoDup, String.eqb_eq].
Qed.

Lemma ticker_keys_perm (df df' : Ledger) :
  Permutation df df' ->
  stable_sort String.leb (unique String.eqb (map Ticker df))
  = stable_sort String.leb (unique String.eqb (map Ticker df')).
Proof.
  intros H. apply strict_sorted_unique; try apply ticker_keys_sorted.
  intros x. rewrite !stable_sort_In.
  rewrite !(unique_In String.eqb String.eqb_eq).
  split; apply Permutation_in, Permutation_map;
    [|apply Permutation_sym]; exact H.
Qed.

Lemma is_nil_perm {A : Type} (l l' : list A) :
  Permutation l l' -> is_nil l = is_nil l'.
Proof.
  intros H. apply Permutation_length in H. destruct l, l'; try reflexivity;
    discriminate.
Qed.

Lemma raw_holdings_by_key (df : Ledger) :
  raw_holdings df
  = map (fun k => holding_of k (group_of k df))
        (filter (fun k => open_position (k, group_of k df))
                (stable_sort String.leb (unique String.eqb (map Ticker df)))).
Proof.
  unfold raw_holdings, groupby_ticker.
  rewrite filter_map_commute, map_map. cbn [fst snd].
  rewrite map_map. fold negate_sell.
  rewrite (map_ext _ Ticker negate_sell_Ticker). reflexivity.
Qed.

(** ** Any sort by date *)

Lemma sort_values_date_sorts : date_sort sort_values_date.
Proof.
  intros df.
  split; [apply sort_values_date_perm | apply sort_values_date_chronological].
Qed.

(** Rows of distinct dates have one chronological order. *)
Lemma chronological_unique (l l' : Ledger) :
  StronglySorted Z.lt (map Date l) -> chronological l' ->
  Permutation l l' -> l = l'.
Proof.
  revert l'. induction l as [|a t IH]; intros l' Hl Hl' Hp.
  - apply Permutation_nil in Hp. now subst.
  - destruct l' as [|b t'].
    { apply Permutation_sym, Permutation_nil in Hp. discriminate. }
    cbn [map] in Hl. apply StronglySorted_inv in Hl. destruct Hl as [Ht Ha].
    apply StronglySorted_inv in Hl'. destruct Hl' as [Ht' Hb].
    rewrite Forall_forall in Ha, Hb.
    assert (Eab : a = b).
    { assert (Hin : In a (b :: t'))
        by (apply (Permutation_in _ Hp); now left).
      destruct Hin as [E|Hin]; [now symmetry|].
      assert (Hin' : In b (a :: t))
        by (apply (Permutation_in _ (Permutation_sym Hp)); now left).
      destruct Hin' as [E|Hin']; [assumption|].
      specialize (Hb a Hin). specialize (Ha (Date b) (in_map Date _ _ Hin')).
      lia. }
    subst b. f_equal. apply IH; [assumption | assumption |].
    now apply Permutation_cons_inv in Hp.
Qed.

(** A sort by date leaves the rows of a ticker in their order when that
    order is strictly chronological. *)
Lemma ticker_rows_date_sort (sort_values : Ledger -> Ledger) (df : Ledger)
      (t : string) :
  date_sort sort_values -> ticker_chronological df ->
  ticker_rows t (sort_values df) = ticker_rows t df.
Proof.
  intros Hs Hc. destruct (Hs df) as [Hperm Hsorted]. symmetry.
  apply chronological_unique.
  - apply Hc.
  - now apply filter_StronglySorted.
  - apply filter_perm, Permutation_sym, Hperm.
Qed.

Lemma ticker_rows_dated_until (t : string) (d : Z) (l : Ledger) :
  ticker_rows t (dated_until d l) = dated_until d (ticker_rows t l).
Proof.
  unfold ticker_rows, dated_until.
  induction l as [|r l IH]; [reflexivity|]. cbn [filter].
  destruct (Date r <=? d) eqn:Ed, (has_ticker t r) eqn:Et; cbn [filter];
    rewrite ?Ed, ?Et, IH; reflexivity.
Qed.

Lemma ticker_chronological_until (d : Z) (df : Ledger) :
  ticker_chronological df -> ticker_chronological (dated_until d df).
Proof.
  intros Hc t. rewrite ticker_rows_dated_until. unfold dated_until.
  specialize (Hc t). revert Hc. generalize (ticker_rows t df). intros l Hl.
  rewrite <- (filter_map_commute Date (fun x => x <=? d)).
  now apply filter_StronglySorted.
Qed.

(** The holdings depend on the ledger through the rows of each ticker, in
    their order. *)
Lemma holdings_frame_ext (l l' : Ledger) :
  Permutation l l' ->
  (forall t, ticker_rows t l = ticker_rows t l') ->
  holdings_frame l = holdings_frame l'.
Proof.
  intros Hp Hrows. unfold holdings_frame. rewrite (is_nil_perm l l' Hp).
  assert (Hg : forall k, group_of k l = group_of k l')
    by (intros k; now rewrite !group_of_map, Hrows).
  assert (E : raw_holdings l = raw_holdings l').
  { rewrite !raw_holdings_by_key, (ticker_keys_perm l l' Hp).
    rewrite (filter_ext _ (fun k => open_position (k, group_of k l')))
      by (intros k; now rewrite Hg).
    apply map_ext. intros k. now rewrite Hg. }
  now rewrite E.
Qed.

Lemma holdings_frame_until (sort_values : Ledger -> Ledger) (d : Z)
      (df : Ledger) :
  date_sort sort_values -> ticker_chronological df ->
  holdings_frame (dated_until d (sort_values df))
  = holdings_frame (dated_until d df).
Proof.
  intros Hs Hc. apply holdings_frame_ext.
  - apply filter_perm, Hs.
  - intros t. rewrite !ticker_rows_dated_until.
    now rewrite (ticker_rows_date_sort sort_values df t Hs Hc).
Qed.

(** ** Historical performance *)

Lemma rows_DataFrame {A : Type} (l : list A) : rows (DataFrame l) = l.
Proof. now destruct l. Qed.

(** A column read behind an [empty] test never raises. *)
Lemma guarded_column_sum {A : Type} (name : string) (proj : A -> Q)
      (f : Frame A) :
  (if negb (empty f) then c <- column name proj f ;; Ok (Qsum c) else Ok 0%Q)
  = Ok (if negb (empty f) then Qsum (map proj (rows f)) else 0%Q).
Proof.
  destruct f as [|[|x l]]; reflexivity.
Qed.

Lemma performance_loop_ok (sorted_df : Ledger) (dates : list Z) :
  performance_loop sorted_df dates
  = Ok (map (fun d => mkPoint d
                        (value_of (holdings_frame (transactions_until d sorted_df))))
            dates).
Proof.
  induction dates as [|d rest IH]; [reflexivity|].
  cbn [performance_loop map].
  rewrite get_current_holdings_ok. cbn [bind].
  rewrite guarded_column_sum. cbn [bind]. rewrite IH. reflexivity.
Qed.

Lemma calculate_historical_performance_ok (df : Ledger) :
  exists points,
    calculate_historical_performance df = Ok points
    /\ rows points = performance_points df.
Proof.
  unfold calculate_historical_performance, calculate_historical_performance_by.
  destruct df as [|r df]; [now exists (Table [])|]. cbn [is_nil].
  rewrite performance_loop_ok. cbn [bind].
  eexists. split; [reflexivity|]. apply rows_DataFrame.
Qed.

Lemma calculate_historical_performance_by_ok (sort_values : Ledger -> Ledger)
      (df : Ledger) :
  date_sort sort_values ->
  exists points,
    calculate_historical_performance_by sort_values df = Ok points
    /\ rows points = performance_points_by sort_values df.
Proof.
  intros Hs. unfold calculate_historical_performance_by.
  destruct df as [|r df].
  - exists (Table []). split; [reflexivity|]. unfold performance_points_by.
    destruct (Hs []) as [Hp _]. apply Permutation_sym, Permutation_nil in Hp.
    now rewrite Hp.
  - cbn [is_nil]. rewrite performance_loop_ok. cbn [bind].
    eexists. split; [reflexivity|]. apply rows_DataFrame.
Qed.

Lemma performance_points_by_dates (sort_values : Ledger -> Ledger)
      (df : Ledger) :
  map pDate (performance_points_by sort_values df)
  = unique Z.eqb (map Date (sort_values df)).
Proof.
  unfold performance_points_by. rewrite map_map. cbn [pDate]. apply map_id.
Qed.

Lemma sorted_dates_strict (sort_values : Ledger -> Ledger) (df : Ledger) :
  date_sort sort_values ->
  StronglySorted Z.lt (unique Z.eqb (map Date (sort_values df))).
Proof.
  intros Hs. apply unique_sorted_lt, StronglySorted_map, Hs.
Qed.

Lemma sorted_dates_In (sort_values : Ledger -> Ledger) (df : Ledger) (d : Z) :
  date_sort sort_values ->
  In d (unique Z.eqb (map Date (sort_values df))) <-> In d (map Date df).
Proof.
  intros Hs. destruct (Hs df) as [Hp _].
  rewrite (unique_In Z.eqb Z.eqb_eq). split;
    apply Permutation_in, Permutation_map;
    [|apply Permutation_sym]; exact Hp.
Qed.

(** The portfolio value of a frame is the sum of its Current Value column,
    which is empty when the frame is. *)
Lemma value_of_rows (holdings : Frame Holding) :
  value_of holdings = Qsum (map CurrentValue (rows holdings)).
Proof.
  unfold value_of, empty. now destruct (rows holdings).
Qed.

(** C3. Whatever order the sort by date gives to the rows of one date, the
    Historical Performance Reconstructor returns for every ledger a series
    with exactly one point per distinct date of the ledger, in strictly
    ascending date order.  The Portfolio Value of a point is the sum of
    Current Value over the Holdings Calculator's output (0 when it has no
    holdings) on the sub-ledger the code replays for the point: the rows of
    the sorted frame dated up to the point's date, which are the
    transactions of the ledger dated up to it, each once, in non-decreasing
    date order.  The empty ledger yields the empty series. *)
Theorem historical_performance_points (sort_values : Ledger -> Ledger)
        (df : Ledger) :
  date_sort sort_values ->
  exists points,
    calculate_historical_performance_by sort_values df = Ok points
    /\ StronglySorted Z.lt (map pDate (rows points))
    /\ (forall d, In d (map pDate (rows points)) <-> In d (map Date df))
    /\ (forall p, In p (rows points) ->
         let sub := dated_until (pDate p) (sort_values df) in
         Permutation sub (dated_until (pDate p) df)
         /\ chronological sub
         /\ exists holdings,
              get_current_holdings sub = Ok holdings
              /\ PortfolioValue p = Qsum (map CurrentValue (rows holdings)))
    /\ (df = [] -> rows points = []).
Proof.
  intros Hs.
  destruct (calculate_historical_performance_by_ok sort_values df Hs)
    as (points & Hok & Hrows).
  exists points. split; [exact Hok|].
  rewrite Hrows, performance_points_by_dates.
  split; [now apply sorted_dates_strict|].
  split; [intros d; now apply sorted_dates_In|].
  split.
  - intros p Hp. apply in_map_iff in Hp. destruct Hp as (d & <- & _).
    cbn [pDate PortfolioValue]. destruct (Hs df) as [Hperm Hsorted].
    split; [now apply filter_perm|].
    split; [now apply filter_StronglySorted|].
    eexists. split; [apply get_current_holdings_ok|].
    apply value_of_rows.
  - intros ->. unfold performance_points_by.
    destruct (Hs []) as [Hp _]. apply Permutation_sym, Permutation_nil in Hp.
    now rewrite Hp.
Qed.

(** The specification's example: a purchase on one day, a sale on the
    next. *)
Lemma historical_performance_points_witness :
  exists points,
    calculate_historical_performance_by sort_values_date ledger_example
    = Ok points
    /\ StronglySorted Z.lt (map pDate (rows points))
    /\ (forall d, In d (map pDate (rows points))
                  <-> In d (map Date ledger_example))
    /\ (forall p, In p (rows points) ->
         let sub := dated_until (pDate p) (sort_values_date ledger_example) in
         Permutation sub (dated_until (pDate p) ledger_example)
         /\ chronological sub
         /\ exists holdings,
              get_current_holdings sub = Ok holdings
              /\ PortfolioValue p = Qsum (map CurrentValue (rows holdings)))
    /\ (ledger_example = [] -> rows points = []).
Proof.
  apply (historical_performance_points sort_values_date ledger_example).
  apply sort_values_date_sorts.
Defined.


(** ** The portfolio summary *)

Lemma guarded_return_pct (pl c : Q) :
  (if Qltb 0 c then q <- div pl c ;; Ok (q * 100)%Q else Ok 0%Q)
  = Ok (return_pct_of pl c).
Proof.
  unfold return_pct_of. destruct (Qltb 0 c) eqn:Ec; [|reflexivity].
  now rewrite (div_positive _ _ Ec).
Qed.

Lemma get_portfolio_summary_ok (df : Ledger) :
  df <> [] -> get_portfolio_summary df = Ok (summary_of df).
Proof.
  intros Hne. unfold get_portfolio_summary.
  destruct df as [|r df]; [congruence|]. cbn [is_nil].
  rewrite get_current_holdings_ok. cbn [bind].
  rewrite !guarded_column_sum. cbn [bind].
  rewrite guarded_return_pct. reflexivity.
Qed.

(** ** The last point of the series *)

Lemma iloc_last_map {A B : Type} (f : A -> B) (l : list A) (y : B) :
  iloc_last (map f l) = Ok y -> exists x, iloc_last l = Ok x /\ y = f x.
Proof.
  induction l as [|a t IH]; simpl; [discriminate|].
  destruct t as [|b t']; simpl in *.
  - intros E. inversion E. now exists a.
  - exact IH.
Qed.

Lemma iloc_last_In {A : Type} (l : list A) (x : A) :
  iloc_last l = Ok x -> In x l.
Proof.
  induction l as [|a t IH]; simpl; [discriminate|].
  destruct t as [|b t'].
  - intros E. inversion E. now left.
  - intros E. right. now apply IH.
Qed.

Lemma iloc_last_greatest (l : list Z) (x : Z) :
  StronglySorted Z.lt l -> iloc_last l = Ok x -> forall y, In y l -> y <= x.
Proof.
  induction 1 as [|a t Ht IH Ha]; simpl; [discriminate|].
  destruct t as [|b t'].
  - intros E y [<-|[]]. inversion E. lia.
  - intros E y [<-|Hy]; [|now apply IH].
    apply iloc_last_In in E. rewrite Forall_forall in Ha.
    specialize (Ha x E). lia.
Qed.

Lemma filter_all {A : Type} (p : A -> bool) (l : list A) :
  (forall x, In x l -> p x = true) -> filter p l = l.
Proof.
  induction l as [|a t IH]; simpl; [reflexivity|]. intros H.
  rewrite (H a (or_introl eq_refl)). f_equal. apply IH. auto.
Qed.

(** The last point is the point of the greatest date. *)
Lemma last_point_greatest (sort_values : Ledger -> Ledger) (df : Ledger)
      (p : PerformancePoint) :
  date_sort sort_values ->
  iloc_last (performance_points_by sort_values df) = Ok p ->
  forall r, In r df -> Date r <= pDate p.
Proof.
  intros Hs Hp r Hr.
  assert (Hd : iloc_last (map pDate (performance_points_by sort_values df))
               = Ok (pDate p)).
  { clear Hr. revert Hp. generalize (performance_points_by sort_values df).
    intros l. induction l as [|a t IH]; simpl; [discriminate|].
    destruct t as [|b t']; [intros E; now inversion E | exact IH]. }
  rewrite performance_points_by_dates in Hd.
  eapply iloc_last_greatest; [|exact Hd|].
  - now apply sorted_dates_strict.
  - apply sorted_dates_In; [assumption|]. now apply in_map.
Qed.

Lemma performance_points_nonempty (sort_values : Ledger -> Ledger)
      (df : Ledger) :
  date_sort sort_values ->
  df <> [] -> performance_points_by sort_values df <> [].
Proof.
  intros Hs Hne E. destruct df as [|r df]; [congruence|].
  assert (Hin : In (Date r)
                   (map pDate (performance_points_by sort_values (r :: df)))).
  { rewrite performance_points_by_dates.
    apply sorted_dates_In; [assumption|]. now left. }
  rewrite E in Hin. exact Hin.
Qed.

(** Two rows of different dates have one chronological order. *)
Lemma date_sort_backdated (sort_values : Ledger -> Ledger) :
  date_sort sort_values ->
  sort_values ledger_backdated = rev ledger_backdated.
Proof.
  intros Hs. destruct (Hs ledger_backdated) as [Hp Hc]. symmetry.
  apply chronological_unique; [|exact Hc|].
  - unfold ledger_backdated. cbn. repeat constructor.
  - eapply perm_trans; [apply Permutation_sym, Permutation_rev|].
    now apply Permutation_sym.
Qed.

(** C4, as the specification states it, refuted: in a ledger where a later
    fill was entered before an earlier one the last point of the series is
    valued at the chronologically last price, 3000.00, and the summary at
    the price of the last row entered, 2000.00.  The two rows have
    different dates, so that every sort by date gives the same series. *)
Lemma last_point_differs_backdated :
  exists summary,
    get_portfolio_summary ledger_backdated = Ok summary
    /\ (current_value summary == 2000)%Q
    /\ forall sort_values, date_sort sort_values ->
         exists points p,
           calculate_historical_performance_by sort_values ledger_backdated
           = Ok points
           /\ iloc_last (rows points) = Ok p
           /\ (PortfolioValue p == 3000)%Q
           /\ ~ (PortfolioValue p == current_value summary)%Q.
Proof.
  eexists. split; [vm_compute; reflexivity|].
  split; [vm_compute; reflexivity|].
  intros sort_values Hs. unfold calculate_historical_performance_by.
  cbn [is_nil ledger_backdated].
  fold ledger_backdated. rewrite (date_sort_backdated sort_values Hs).
  do 2 eexists. split; [vm_compute; reflexivity|].
  split; [vm_compute; reflexivity|].
  split; [vm_compute; reflexivity|].
  vm_compute. discriminate.
Qed.

(** C4, amended. For every non-empty ledger in which the rows of each
    ticker are in strictly increasing date order, and whatever order the
    sort by date gives to the rows of one date, the Portfolio Value of the
    last point of the series, which is the point of the greatest date, is
    the current_value of the Portfolio Summary of the same ledger. *)
Theorem last_point_is_summary_value (sort_values : Ledger -> Ledger)
        (df : Ledger) :
  date_sort sort_values ->
  df <> [] ->
  ticker_chronological df ->
  exists points summary p,
    calculate_historical_performance_by sort_values df = Ok points
    /\ get_portfolio_summary df = Ok summary
    /\ iloc_last (rows points) = Ok p
    /\ (forall r, In r df -> Date r <= pDate p)
    /\ PortfolioValue p = current_value summary.
Proof.
  intros Hs Hne Hchrono.
  destruct (calculate_historical_performance_by_ok sort_values df Hs)
    as (points & Hok & Hrows).
  destruct (iloc_last_nonempty _ (performance_points_nonempty _ df Hs Hne))
    as [p Hp].
  exists points, (summary_of df), p.
  split; [exact Hok|]. split; [now apply get_portfolio_summary_ok|].
  rewrite Hrows. split; [exact Hp|].
  pose proof (last_point_greatest sort_values df p Hs Hp) as Hmax.
  split; [exact Hmax|].
  apply iloc_last_map in Hp. destruct Hp as (d & _ & ->).
  cbn [pDate PortfolioValue summary_of current_value] in *.
  change (transactions_until d (sort_values df))
    with (dated_until d (sort_values df)).
  rewrite (holdings_frame_until sort_values d df Hs Hchrono).
  unfold dated_until. rewrite filter_all; [reflexivity|].
  intros r Hr. apply Z.leb_le. now apply Hmax.
Qed.

(** Two tickers traded on the same days: the order of the rows of a day is
    left to the sort. *)
Lemma last_point_is_summary_value_witness :
  exists points summary p,
    calculate_historical_performance_by sort_values_date ledger_two_tickers
    = Ok points
    /\ get_portfolio_summary ledger_two_tickers = Ok summary
    /\ iloc_last (rows points) = Ok p
    /\ (forall r, In r ledger_two_tickers -> Date r <= pDate p)
    /\ PortfolioValue p = current_value summary.
Proof.
  apply (last_point_is_summary_value sort_values_date ledger_two_tickers).
  - apply sort_values_date_sorts.
  - discriminate.
  - intros t. unfold ledger_two_tickers, ticker_rows, has_ticker.
    cbn -[String.eqb].
    destruct (String.eqb_spec "AAPL" t), (String.eqb_spec "MSFT" t);
      try congruence; cbn; repeat (constructor; try lia).
Defined.

(** ** Points without open positions *)


Lemma raw_holdings_none (df : Ledger) :
  Forall typed df ->
  (forall t, net_shares t df <= 0) -> raw_holdings df = [].
Proof.
  intros Hty Hnet. destruct (raw_holdings df) as [|h hs] eqn:E; [reflexivity|].
  assert (Hin : In h (raw_holdings df)) by (rewrite E; now left).
  apply raw_holdings_In in Hin. destruct Hin as (t & Hpos & _).
  rewrite (group_shares_net t df Hty) in Hpos. specialize (Hnet t). lia.
Qed.




(** ** The summary adds rounded rows *)

Lemma cost_of_holdings_frame (df : Ledger) :
  cost_of (holdings_frame df)
  = Qsum (map (fun h => round2 (TotalCost h)) (raw_holdings df)).
Proof.
  unfold cost_of. rewrite rows_holdings_frame.
  unfold empty. rewrite rows_holdings_frame.
  destruct (raw_holdings df) as [|h hs]; [reflexivity|].
  cbn [map negb]. now rewrite map_map.
Qed.

Lemma value_of_holdings_frame (df : Ledger) :
  value_of (holdings_frame df)
  = Qsum (map (fun h => round2 (CurrentValue h)) (raw_holdings df)).
Proof.
  unfold value_of. rewrite rows_holdings_frame.
  unfold empty. rewrite rows_holdings_frame.
  destruct (raw_holdings df) as [|h hs]; [reflexivity|].
  cbn [map negb]. now rewrite map_map.
Qed.

(** C9. For every ledger, the summary's total_invested is the sum of the
    Total Cost values of the holdings after each was rounded to two
    decimals, and its current_value the sum of the rounded Current Value
    values, where [raw] are the holdings at full precision. *)
Theorem summary_adds_rounded_rows (df : Ledger) :
  exists raw summary,
    holdings_list df = Ok raw
    /\ get_portfolio_summary df = Ok summary
    /\ total_invested summary = Qsum (map (fun h => round2 (TotalCost h)) raw)
    /\ current_value summary
       = Qsum (map (fun h => round2 (CurrentValue h)) raw).
Proof.
  destruct df as [|r df].
  - exists [], (mkSummary 0 0 0 0 0 0 0). repeat split; reflexivity.
  - exists (raw_holdings (r :: df)), (summary_of (r :: df)).
    split; [apply holdings_list_ok|].
    split; [apply get_portfolio_summary_ok; discriminate|].
    cbn [summary_of total_invested current_value].
    split; [apply cost_of_holdings_frame | apply value_of_holdings_frame].
Qed.

(** Three holdings of cost 1/3 each: the summary reports 0.99 invested,
    the full-precision sum rounded once would be 1.00. *)
Lemma summary_rounding_is_per_row :
  exists raw summary,
    holdings_list ledger_thirds = Ok raw
    /\ get_portfolio_summary ledger_thirds = Ok summary
    /\ (total_invested summary == 99 # 100)%Q
    /\ (round2 (Qsum (map TotalCost raw)) == 1)%Q.
Proof.
  do 2 eexists. split; [vm_compute; reflexivity|].
  split; [vm_compute; reflexivity|]. split; vm_compute; reflexivity.
Qed.

(** ** Return percentages *)

Lemma Qsum_nonneg (l : list Q) :
  Forall (fun q => 0 <= q)%Q l -> (0 <= Qsum l)%Q.
Proof.
  induction 1 as [|q t Hq Ht IH]; simpl; [apply Qle_refl|].
  change 0%Q with (0 + 0)%Q at 1. now apply Qplus_le_compat.
Qed.

Lemma round_half_even_nonneg (x : Q) : (0 <= x)%Q -> 0 <= round_half_even x.
Proof.
  intros H. unfold round_half_even.
  assert (Hq : 0 <= Qfloor x).
  { change 0 with (Qfloor 0). now apply Qfloor_resp_le. }
  destruct (x - inject_Z (Qfloor x) ?= 1 # 2)%Q; [|lia|lia].
  destruct (Z.even (Qfloor x)); lia.
Qed.

Lemma round2_nonneg (x : Q) : (0 <= x)%Q -> (0 <= round2 x)%Q.
Proof.
  intros H. unfold round2.
  assert (Hr : 0 <= round_half_even (x * 100)).
  { apply round_half_even_nonneg. apply Qmult_le_0_compat; [assumption|].
    discriminate. }
  unfold Qle. simpl. lia.
Qed.

Lemma avg_cost_of_nonneg (group : Ledger) :
  Forall buy_total_nonnegative group -> (0 <= avg_cost_of group)%Q.
Proof.
  intros H. unfold avg_cost_of.
  destruct (negb (is_nil (filter (is_type "Buy") group))); cbn [andb];
    [|apply Qle_refl].
  destruct (0 <? Zsum (map Quantity (filter (is_type "Buy") group))) eqn:E;
    [|apply Qle_refl].
  apply Z.ltb_lt in E. apply Qle_shift_div_l.
  - unfold Qlt, inject_Z. simpl. lia.
  - rewrite Qmult_0_l. apply Qsum_nonneg.
    rewrite Forall_forall in *. intros q Hq. apply in_map_iff in Hq.
    destruct Hq as (r & <- & Hr). apply filter_In in Hr.
    destruct Hr as [Hr Hb]. now apply H.
Qed.

Lemma group_of_buy_total_nonnegative (t : string) (df : Ledger) :
  Forall buy_total_nonnegative df ->
  Forall buy_total_nonnegative (group_of t df).
Proof.
  intros H. rewrite group_of_map. rewrite Forall_forall in *.
  intros r Hr. apply in_map_iff in Hr. destruct Hr as (r0 & <- & Hr0).
  apply filter_In in Hr0. destruct Hr0 as [Hr0 _].
  intros Hb. unfold is_type in Hb. rewrite negate_sell_type in Hb.
  rewrite (negate_sell_buy r0 Hb). now apply H.
Qed.

Lemma return_pct_of_nonneg_cost (pl c : Q) :
  (0 <= c)%Q ->
  (~ (c == 0)%Q -> return_pct_of pl c = (pl / c * 100)%Q)
  /\ ((c == 0)%Q -> return_pct_of pl c = 0%Q).
Proof.
  intros Hc. unfold return_pct_of. split.
  - intros Hne. destruct (Qltb 0 c) eqn:E; [reflexivity|].
    apply Qltb_ge in E. exfalso. apply Hne. now apply Qle_antisym.
  - intros H0. destruct (Qltb 0 c) eqn:E; [|reflexivity].
    apply Qltb_lt in E. rewrite H0 in E. now apply Qlt_irrefl in E.
Qed.

(** Whatever the ledger, neither function raises: every division is behind
    a guard that excludes the zero divisor. *)
Lemma holdings_and_summary_never_raise (df : Ledger) :
  exists holdings summary,
    get_current_holdings df = Ok holdings
    /\ get_portfolio_summary df = Ok summary.
Proof.
  exists (holdings_frame df).
  destruct df as [|r df].
  - eexists. split; reflexivity.
  - exists (summary_of (r :: df)).
    split; [apply get_current_holdings_ok|].
    apply get_portfolio_summary_ok. discriminate.
Qed.

(** C8. For every ledger whose Buy rows have non-negative totals, neither
    the Holdings Calculator nor the Portfolio Summary Aggregator raises (no
    division by zero occurs); each holding's Return %, computed at full
    precision and rounded at output, is profit_loss / total_cost * 100 when
    total_cost is nonzero and 0 when it is 0, and the summary's return_pct
    is profit_loss / total_invested * 100 when total_invested is nonzero and
    0 when it is 0. *)
Theorem return_pct_never_divides_by_zero (df : Ledger) :
  Forall buy_total_nonnegative df ->
  exists raw holdings summary,
    holdings_list df = Ok raw
    /\ get_current_holdings df = Ok holdings
    /\ get_portfolio_summary df = Ok summary
    /\ rows holdings = map round_holding raw
    /\ (forall h, In h raw ->
         (~ (TotalCost h == 0)%Q ->
          ReturnPct h = (ProfitLoss h / TotalCost h * 100)%Q)
         /\ ((TotalCost h == 0)%Q -> ReturnPct h = 0%Q))
    /\ (~ (total_invested summary == 0)%Q ->
        return_pct summary
        = (profit_loss summary / total_invested summary * 100)%Q)
    /\ ((total_invested summary == 0)%Q -> return_pct summary = 0%Q).
Proof.
  intros Hnn.
  assert (Hraw : forall h, In h (raw_holdings df) -> (0 <= TotalCost h)%Q).
  { intros h Hin. apply raw_holdings_In in Hin. destruct Hin as (t & Hpos & ->).
    cbn [holding_of TotalCost]. apply Qmult_le_0_compat.
    - now apply avg_cost_of_nonneg, group_of_buy_total_nonnegative.
    - unfold Qle, inject_Z. simpl. lia. }
  exists (raw_holdings df), (holdings_frame df).
  exists (match df with [] => mkSummary 0 0 0 0 0 0 0 | _ => summary_of df end).
  split; [apply holdings_list_ok|]. split; [apply get_current_holdings_ok|].
  split; [destruct df; [reflexivity | apply get_portfolio_summary_ok; discriminate]|].
  split; [apply rows_holdings_frame|]. split.
  - intros h Hin. specialize (Hraw h Hin).
    apply raw_holdings_In in Hin. destruct Hin as (t & Hpos & ->).
    cbn [holding_of TotalCost ReturnPct ProfitLoss] in *.
    now apply return_pct_of_nonneg_cost.
  - destruct df as [|r df];
      [split; [intros H; exfalso; apply H|]; reflexivity|].
    cbn [summary_of total_invested return_pct profit_loss].
    apply return_pct_of_nonneg_cost.
    rewrite cost_of_holdings_frame. apply Qsum_nonneg.
    rewrite Forall_forall. intros q Hq. apply in_map_iff in Hq.
    destruct Hq as (h & <- & Hh). now apply round2_nonneg, Hraw.
Qed.

Lemma return_pct_never_divides_by_zero_witness :
  exists raw holdings summary,
    holdings_list ledger_example = Ok raw
    /\ get_current_holdings ledger_example = Ok holdings
    /\ get_portfolio_summary ledger_example = Ok summary
    /\ rows holdings = map round_holding raw
    /\ (forall h, In h raw ->
         (~ (TotalCost h == 0)%Q ->
          ReturnPct h = (ProfitLoss h / TotalCost h * 100)%Q)
         /\ ((TotalCost h == 0)%Q -> ReturnPct h = 0%Q))
    /\ (~ (total_invested summary == 0)%Q ->
        return_pct summary
        = (profit_loss summary / total_invested summary * 100)%Q)
    /\ ((total_invested summary == 0)%Q -> return_pct summary = 0%Q).
Proof.
  apply (return_pct_never_divides_by_zero ledger_example).
  unfold ledger_example.
  repeat (apply Forall_cons;
          [first [ intros _; vm_compute; discriminate
                 | intros ?; discriminate ] |]).
  apply Forall_nil.
Defined.

(** ** The profit/loss report *)

Lemma unrealized_of_ok (current_holdings : Frame Holding) (ticker : string) :
  unrealized_of current_holdings ticker
  = Ok (unrealized_value current_holdings ticker).
Proof.
  unfold unrealized_value.
  destruct (unrealized_of current_holdings ticker) as [q|e] eqn:E;
    [reflexivity|]. exfalso. revert E. unfold unrealized_of.
  destruct current_holdings as [|hs]; [discriminate|].
  destruct (negb (empty (Table hs)) && has_columns (Table hs));
    [|discriminate].
  cbn [column bind rows].
  destruct (mem String.eqb ticker (map hTicker hs)) eqn:Hm; [|discriminate].
  apply (mem_In String.eqb String.eqb_eq) in Hm. apply in_map_iff in Hm.
  destruct Hm as (h & Hh & Hin).
  assert (Hf : In h (filter (fun h => String.eqb (hTicker h) ticker) hs)).
  { apply filter_In. split; [assumption|]. now apply String.eqb_eq. }
  destruct (filter (fun h => String.eqb (hTicker h) ticker) hs);
    [destruct Hf | discriminate].
Qed.

Lemma unrealized_value_absent (current_holdings : Frame Holding)
      (ticker : string) :
  ~ In ticker (map hTicker (rows current_holdings)) ->
  unrealized_value current_holdings ticker = 0%Q.
Proof.
  intros H. unfold unrealized_value, unrealized_of.
  destruct current_holdings as [|hs]; [reflexivity|].
  destruct (negb (empty (Table hs)) && has_columns (Table hs));
    [|reflexivity].
  cbn [column bind rows] in *.
  destruct (mem String.eqb ticker (map hTicker hs)) eqn:Hm; [|reflexivity].
  apply (mem_In String.eqb String.eqb_eq) in Hm. contradiction.
Qed.

Lemma report_record_ok (current_holdings : Frame Holding) (ticker : string)
      (group : Ledger) :
  report_record current_holdings ticker group
  = Ok (report_row_of current_holdings ticker group).
Proof.
  unfold report_record, report_row_of.
  rewrite unrealized_of_ok.
  match goal with
  | |- context [if 0 <? ?n then div ?a ?b else Ok 0%Q] =>
      assert (E : (if 0 <? n then div a b else Ok 0%Q)
                  = Ok (if 0 <? n then (a / b)%Q else 0%Q))
        by (destruct (0 <? n) eqn:En;
            [now rewrite (div_positive_Z _ _ En) | reflexivity]);
      rewrite E
  end.
  reflexivity.
Qed.

Lemma report_loop_ok (current_holdings : Frame Holding)
      (groups : list (string * Ledger)) :
  report_loop current_holdings groups
  = Ok (map (fun kg => report_row_of current_holdings (fst kg) (snd kg)) groups).
Proof.
  induction groups as [|[k g] rest IH]; [reflexivity|].
  cbn [report_loop map fst snd]. rewrite report_record_ok, IH. reflexivity.
Qed.

Lemma generate_profit_loss_report_ok (df : Ledger) :
  exists report,
    generate_profit_loss_report df = Ok report
    /\ Permutation (rows report) (map round_report_row (report_data_of df)).
Proof.
  unfold generate_profit_loss_report.
  destruct df as [|r df]; [exists (Table []); split; [reflexivity|constructor]|].
  cbn [is_nil]. rewrite get_current_holdings_ok. cbn [bind].
  rewrite report_loop_ok. cbn [bind]. fold (report_data_of (r :: df)).
  eexists. split; [reflexivity|].
  destruct (report_data_of (r :: df)) as [|x l]; [constructor|].
  cbn [DataFrame empty rows negb sort_values_total_desc map_rows].
  apply Permutation_map, stable_sort_perm.
Qed.

Lemma report_data_tickers (df : Ledger) :
  map rTicker (map round_report_row (report_data_of df))
  = map fst (groupby_ticker df).
Proof.
  unfold report_data_of. rewrite !map_map. reflexivity.
Qed.

Lemma well_formed_typed (df : Ledger) : Forall well_formed df -> Forall typed df.
Proof. apply Forall_impl. now intros r [H _]. Qed.

Lemma well_formed_buy_quantity (df : Ledger) :
  Forall well_formed df -> Forall buy_quantity_positive df.
Proof. apply Forall_impl. now intros r (_ & _ & H & _) _. Qed.

Lemma well_formed_buy_total (df : Ledger) :
  Forall well_formed df -> Forall buy_total_nonnegative df.
Proof.
  apply Forall_impl. intros r (_ & Hp & Hq & Ht) Hb.
  rewrite Ht. unfold signed_total, is_type in *.
  apply String.eqb_eq in Hb. rewrite Hb. cbn [String.eqb Ascii.eqb Bool.eqb].
  apply Qmult_le_0_compat; [now apply Qlt_le_weak|].
  unfold Qle, inject_Z. simpl. lia.
Qed.

Lemma Zsum_nonneg (l : list Z) : Forall (fun z => 0 <= z) l -> 0 <= Zsum l.
Proof. induction 1; simpl; lia. Qed.

Lemma sold_shares_nonneg (t : string) (df : Ledger) :
  Forall well_formed df -> 0 <= sold_shares t df.
Proof.
  intros H. apply Zsum_nonneg. rewrite Forall_forall in *.
  intros z Hz. apply in_map_iff in Hz. destruct Hz as (r & <- & Hr).
  unfold sells_of, ticker_rows in Hr. apply filter_In in Hr.
  destruct Hr as [Hr _]. apply filter_In in Hr. destruct Hr as [Hr _].
  destruct (H r Hr) as (_ & _ & Hq & _). lia.
Qed.

Lemma average_buy_cost_nonneg (t : string) (df : Ledger) :
  Forall well_formed df -> (0 <= average_buy_cost t df)%Q.
Proof.
  intros H. rewrite <- (avg_cost_of_group t df (well_formed_buy_quantity df H)).
  apply avg_cost_of_nonneg, group_of_buy_total_nonnegative.
  now apply well_formed_buy_total.
Qed.

(** The cost basis the report charges to the shares sold. *)
Lemma cost_basis_sold_value (avg : Q) (sold : Z) :
  (0 <= avg)%Q -> 0 <= sold ->
  ((if Qltb 0 avg && (0 <? sold) then avg * inject_Z sold else 0)
   == avg * inject_Z sold)%Q.
Proof.
  intros Ha Hs. destruct (Qltb 0 avg) eqn:Ea; cbn [andb].
  - destruct (0 <? sold) eqn:Es; [reflexivity|].
    apply Z.ltb_ge in Es. assert (sold = 0) as -> by lia.
    symmetry. apply Qmult_0_r.
  - apply Qltb_ge in Ea.
    assert (E : (avg == 0)%Q) by now apply Qle_antisym.
    rewrite E. symmetry. apply Qmult_0_l.
Qed.

Lemma guarded_nil {A B : Type} (f : list A -> B) (z : B) (l : list A) :
  f [] = z -> (if negb (is_nil l) then f l else z) = f l.
Proof. intros H. now destruct l. Qed.

Lemma report_row_realized (current_holdings : Frame Holding) (t : string)
      (df : Ledger) :
  Forall well_formed df ->
  (RealizedProfitLoss (report_row_of current_holdings t (ticker_rows t df))
   == sell_revenue_of t df
      - average_buy_cost t df * inject_Z (sold_shares t df))%Q.
Proof.
  intros H. unfold report_row_of. cbn [RealizedProfitLoss].
  fold (buys_of t df). fold (sells_of t df).
  rewrite (guarded_nil (fun l => Qsum (map Total l)) 0%Q) by reflexivity.
  rewrite (guarded_nil (fun l => Qsum (map (fun r => Qabs (Total r)) l)) 0%Q)
    by reflexivity.
  rewrite !(guarded_nil (fun l => Zsum (map Quantity l)) 0) by reflexivity.
  fold (sell_revenue_of t df). fold (sold_shares t df).
  assert (Eavg : (if 0 <? Zsum (map Quantity (buys_of t df))
                  then Qsum (map Total (buys_of t df))
                       / inject_Z (Zsum (map Quantity (buys_of t df)))
                  else 0)%Q
                 = average_buy_cost t df).
  { unfold average_buy_cost. destruct (buys_of t df) as [|r b] eqn:E;
      [reflexivity|]. cbn [is_nil]. rewrite <- E.
    assert (Hpos : 0 < Zsum (map Quantity (buys_of t df))).
    { apply buys_positive_sum; [now apply well_formed_buy_quantity|].
      rewrite E. discriminate. }
    apply Z.ltb_lt in Hpos. now rewrite Hpos. }
  rewrite Eavg.
  rewrite cost_basis_sold_value;
    [reflexivity | now apply average_buy_cost_nonneg
     | now apply sold_shares_nonneg].
Qed.

Lemma holdings_frame_tickers (df : Ledger) (t : string) :
  Forall typed df ->
  In t (map hTicker (rows (holdings_frame df))) -> 0 < net_shares t df.
Proof.
  intros Hty. rewrite rows_holdings_frame, map_hTicker_round, in_map_iff.
  intros (h & <- & Hin). apply raw_holdings_In in Hin.
  destruct Hin as (k & Hpos & ->). cbn [holding_of hTicker].
  now rewrite <- (group_shares_net k df Hty).
Qed.

Lemma within_a_cent_comp (a x y : Q) :
  (x == y)%Q -> within_a_cent a x -> within_a_cent a y.
Proof.
  unfold within_a_cent. intros H. now rewrite H.
Qed.

(** C5. For every ledger of well-formed transactions, the Profit/Loss
    Report has exactly one row for every ticker of the ledger, tickers of
    net shares <= 0 included; in the row of such a ticker Unrealized
    Profit/Loss is 0 and Realized Profit/Loss is the sell revenue minus the
    average buy cost times the shares sold: an amount in whole cents, the
    output being rounded to two decimals, less than a cent from the exact
    difference. *)
Theorem report_covers_every_ticker (df : Ledger) :
  Forall well_formed df ->
  exists report,
    generate_profit_loss_report df = Ok report
    /\ (forall t, In t (map rTicker (rows report)) <-> In t (map Ticker df))
    /\ NoDup (map rTicker (rows report))
    /\ (forall r, In r (rows report) ->
         let t := rTicker r in
         net_shares t df <= 0 ->
         (UnrealizedProfitLoss r == 0)%Q
         /\ whole_cents (RealizedProfitLoss r)
         /\ within_a_cent
              (RealizedProfitLoss r)
              (sell_revenue_of t df
               - average_buy_cost t df * inject_Z (sold_shares t df))).
Proof.
  intros Hwf.
  destruct (generate_profit_loss_report_ok df) as (report & Hok & Hperm).
  exists report. split; [exact Hok|].
  assert (Htick : Permutation (map rTicker (rows report))
                              (map fst (groupby_ticker df))).
  { rewrite <- report_data_tickers. now apply Permutation_map. }
  split; [|split].
  - intros t. rewrite <- groupby_ticker_keys. split; apply Permutation_in;
      [|apply Permutation_sym]; exact Htick.
  - eapply Permutation_NoDup;
      [apply Permutation_sym, Htick | apply groupby_ticker_NoDup].
  - intros r Hr t Hnet. subst t.
    apply (Permutation_in _ Hperm) in Hr. apply in_map_iff in Hr.
    destruct Hr as (r0 & <- & Hr0). unfold report_data_of in Hr0.
    apply in_map_iff in Hr0. destruct Hr0 as ([k g] & <- & Hkg).
    apply groupby_ticker_group in Hkg. subst g.
    cbn [fst snd round_report_row rTicker UnrealizedProfitLoss
         RealizedProfitLoss] in *.
    replace (rTicker (report_row_of (holdings_frame df) k (ticker_rows k df)))
      with k in * by reflexivity.
    split; [|split].
    + apply round2_zero. unfold report_row_of. cbn [UnrealizedProfitLoss].
      rewrite unrealized_value_absent; [reflexivity|].
      intros Hin. apply holdings_frame_tickers in Hin;
        [lia | now apply well_formed_typed].
    + apply round2_whole_cents.
    + eapply within_a_cent_comp;
        [now apply report_row_realized | apply round2_within_a_cent].
Qed.

(** A position bought and fully sold is still reported: no unrealized
    result, the realized one against the average buy cost. *)
Lemma report_covers_every_ticker_witness :
  exists report,
    generate_profit_loss_report ledger_exited = Ok report
    /\ (forall t, In t (map rTicker (rows report))
                  <-> In t (map Ticker ledger_exited))
    /\ NoDup (map rTicker (rows report))
    /\ (forall r, In r (rows report) ->
         let t := rTicker r in
         net_shares t ledger_exited <= 0 ->
         (UnrealizedProfitLoss r == 0)%Q
         /\ whole_cents (RealizedProfitLoss r)
         /\ within_a_cent
              (RealizedProfitLoss r)
              (sell_revenue_of t ledger_exited
               - average_buy_cost t ledger_exited
                 * inject_Z (sold_shares t ledger_exited))).
Proof.
  apply (report_covers_every_ticker ledger_exited). unfold ledger_exited.
  repeat (apply Forall_cons;
          [split; [first [left; reflexivity | right; reflexivity]
                  | split; [reflexivity
                           | split; [reflexivity | vm_compute; reflexivity]]]
          |]).
  apply Forall_nil.
Defined.

(** ** Transaction validation *)

Lemma first_value_filter (t : string) (hs : list Holding) :
  first_value (map Shares (filter (fun h => String.eqb (hTicker h) t) hs))
  = match held_shares t hs with
    | Some n => Ok n
    | None => Err IndexError
    end.
Proof.
  unfold held_shares. induction hs as [|h hs IH]; [reflexivity|].
  cbn [filter find]. destruct (String.eqb (hTicker h) t); [reflexivity|exact IH].
Qed.

Lemma mem_held_shares (t : string) (hs : list Holding) :
  mem String.eqb t (map hTicker hs) = true <-> exists n, held_shares t hs = Some n.
Proof.
  unfold held_shares, mem. induction hs as [|h hs IH]; cbn [map existsb find].
  - split; [discriminate | intros [n H]; discriminate].
  - rewrite (String.eqb_sym t (hTicker h)).
    destruct (String.eqb (hTicker h) t); cbn [orb option_map].
    + split; [intros _; now exists (Shares h) | reflexivity].
    + exact IH.
Qed.

(** On a holdings table (a frame with its columns) validation returns a
    verdict, accepts exactly the transactions with a non-empty ticker, a
    positive quantity and, for a Sell, enough shares held, and gives a
    reason with every rejection. *)
Lemma validate_transaction_on_table (transaction : Transaction)
      (hs : list Holding) :
  exists valid message,
    validate_transaction transaction (Table hs) = Ok (valid, message)
    /\ (valid = true <->
        Ticker transaction <> ""
        /\ 0 < Quantity transaction
        /\ (TransactionType transaction = "Sell" ->
            exists n, held_shares (Ticker transaction) hs = Some n
                      /\ Quantity transaction <= n))
    /\ (valid = false -> message <> "").
Proof.
  unfold validate_transaction.
  destruct (String.eqb_spec (Ticker transaction) "") as [Et|Et].
  { do 2 eexists. split; [reflexivity|]. split; [|discriminate].
    split; [discriminate | intros [H _]; contradiction]. }
  destruct (Quantity transaction <=? 0) eqn:Eq.
  { apply Z.leb_le in Eq. do 2 eexists. split; [reflexivity|].
    split; [|discriminate].
    split; [discriminate | intros (_ & H & _); lia]. }
  apply Z.leb_gt in Eq.
  destruct (String.eqb_spec (TransactionType transaction) "Sell") as [Es|Es].
  2:{ do 2 eexists. split; [reflexivity|]. split; [|discriminate].
      split; [intros _|reflexivity]. repeat split; [assumption|assumption|].
      intros H. contradiction. }
  cbn [column bind rows]. rewrite first_value_filter.
  destruct (mem String.eqb (Ticker transaction) (map hTicker hs)) eqn:Em;
    cbn [negb].
  2:{ do 2 eexists. split; [reflexivity|]. split; [|discriminate].
      split; [discriminate|]. intros (_ & _ & H).
      destruct (H Es) as (n & Hn & _).
      assert (Hm : mem String.eqb (Ticker transaction) (map hTicker hs) = true)
        by (apply mem_held_shares; now exists n).
      congruence. }
  apply mem_held_shares in Em. destruct Em as [n Hn]. rewrite Hn. cbn [bind].
  destruct (n <? Quantity transaction) eqn:El.
  - apply Z.ltb_lt in El. do 2 eexists. split; [reflexivity|].
    split; [|discriminate]. split; [discriminate|]. intros (_ & _ & H).
    destruct (H Es) as (n' & Hn' & Hle). assert (n' = n) by congruence. lia.
  - apply Z.ltb_ge in El. do 2 eexists. split; [reflexivity|].
    split; [|discriminate]. split; [intros _|reflexivity].
    repeat split; [assumption|assumption|]. intros _. now exists n.
Qed.

(** Validation never reads the price. *)
Lemma validate_transaction_ignores_price (p : Q) (transaction : Transaction)
      (current_holdings : Frame Holding) :
  validate_transaction (with_price p transaction) current_holdings
  = validate_transaction transaction current_holdings.
Proof. reflexivity. Qed.

(** C6, at a failing input. After a position was bought and fully sold the
    Holdings Calculator returns a frame built from no record, which has no
    Ticker column; validating a further Sell against it raises KeyError
    instead of rejecting the Sell with a message. *)
Theorem sell_after_exit_raises :
  exists holdings,
    get_current_holdings ledger_exited = Ok holdings
    /\ holdings = NoColumns
    /\ validate_transaction (tx 3 "AAPL" "Sell" 150 5) holdings
       = Err (KeyError "Ticker").
Proof.
  exists NoColumns. repeat split; vm_compute; reflexivity.
Qed.

(** C7, at a failing input. A Buy with a ticker and a positive quantity is
    accepted at any price, 0 and negative prices included, whatever the
    holdings. *)
Theorem nonpositive_price_accepted (p : Q) (current_holdings : Frame Holding) :
  validate_transaction (with_price p (tx 1 "AAPL" "Buy" 0 10)) current_holdings
  = Ok (true, "").
Proof. reflexivity. Qed.

(** * Further properties of the code *)

(** ** Totals and costs of a transaction *)

(** X1. [calculate_transaction_total]: for a positive price and a positive
    quantity the total of a Sell is negative, the total of any other type is
    positive, and in both cases its magnitude is price times quantity. *)
Theorem transaction_total_sign (price : Q) (quantity : Z)
        (transaction_type : string) :
  (0 < price)%Q -> 0 < quantity ->
  (Qabs (calculate_transaction_total price quantity transaction_type)
   == price * inject_Z quantity)%Q
  /\ (transaction_type = "Sell" ->
      (calculate_transaction_total price quantity transaction_type < 0)%Q)
  /\ (transaction_type <> "Sell" ->
      (0 < calculate_transaction_total price quantity transaction_type)%Q).
Proof.
  intros Hp Hq.
  assert (HT : (0 < price * inject_Z quantity)%Q).
  { apply Qmult_lt_0_compat; [assumption|].
    unfold Qlt, inject_Z. simpl. lia. }
  unfold calculate_transaction_total.
  destruct (String.eqb_spec transaction_type "Sell") as [E|E].
  - split; [|split; [intros _|contradiction]].
    + rewrite Qabs_opp. apply Qabs_pos. now apply Qlt_le_weak.
    + lra.
  - split; [|split; [contradiction|intros _; assumption]].
    apply Qabs_pos. now apply Qlt_le_weak.
Qed.

Lemma transaction_total_sign_witness :
  (Qabs (calculate_transaction_total 155 3 "Sell") == 155 * inject_Z 3)%Q
  /\ ("Sell" = "Sell" -> (calculate_transaction_total 155 3 "Sell" < 0)%Q)
  /\ ("Sell" <> "Sell" -> (0 < calculate_transaction_total 155 3 "Sell")%Q).
Proof.
  apply (transaction_total_sign 155 3 "Sell"); reflexivity.
Defined.

(** X2. The costs stored with a Buy or a Sell of positive price and
    quantity, at rates with fee_rate * (1 + vat_rate) <= 1: commission and
    VAT are non-negative, and the magnitude of the net total is the
    magnitude of the total less commission and VAT, for a Buy as for a
    Sell. *)
Theorem transaction_costs_net_magnitude (price : Q) (quantity : Z)
        (transaction_type : string) (fee_rate vat_rate : Q) :
  (0 < price)%Q -> 0 < quantity ->
  transaction_type = "Buy" \/ transaction_type = "Sell" ->
  (0 <= fee_rate)%Q -> (0 <= vat_rate)%Q ->
  (fee_rate * (1 + vat_rate) <= 1)%Q ->
  let c := transaction_costs price quantity transaction_type fee_rate vat_rate in
  (0 <= Fee c)%Q /\ (0 <= VAT c)%Q
  /\ (Qabs (NetTotal c) == Qabs (cTotal c) - (Fee c + VAT c))%Q.
Proof.
  intros Hp Hq Hty Hf Hv Hrate c.
  set (T := (price * inject_Z quantity)%Q).
  assert (HT : (0 < T)%Q).
  { apply Qmult_lt_0_compat; [assumption|].
    unfold Qlt, inject_Z. simpl. lia. }
  assert (Hfee : (0 <= T * fee_rate)%Q)
    by (apply Qmult_le_0_compat; [now apply Qlt_le_weak | assumption]).
  assert (Hvat : (0 <= T * fee_rate * vat_rate)%Q)
    by (apply Qmult_le_0_compat; assumption).
  assert (Hcap : (T * fee_rate + T * fee_rate * vat_rate <= T)%Q).
  { assert (H : (T * (fee_rate * (1 + vat_rate)) <= T * 1)%Q)
      by (apply Qmult_le_l; assumption).
    lra. }
  destruct Hty as [-> | ->]; subst c; unfold transaction_costs;
    cbn [String.eqb Ascii.eqb Bool.eqb cTotal Fee VAT NetTotal]; fold T.
  - assert (Ea : (Qabs T == T)%Q) by (apply Qabs_pos; now apply Qlt_le_weak).
    rewrite Ea. split; [assumption|]. split; [assumption|].
    rewrite Qabs_pos; [reflexivity|]. lra.
  - assert (Ea : (Qabs (- T) == T)%Q)
      by (rewrite Qabs_opp; apply Qabs_pos; now apply Qlt_le_weak).
    rewrite Ea. split; [assumption|]. split; [assumption|].
    rewrite Qabs_neg; [ring|]. lra.
Qed.

Lemma transaction_costs_net_magnitude_witness :
  let c := transaction_costs 10 100 "Buy" (16 # 10000) (7 # 100) in
  (0 <= Fee c)%Q /\ (0 <= VAT c)%Q
  /\ (Qabs (NetTotal c) == Qabs (cTotal c) - (Fee c + VAT c))%Q.
Proof.
  apply (transaction_costs_net_magnitude 10 100 "Buy" (16 # 10000) (7 # 100));
    first [reflexivity | left; reflexivity | vm_compute; discriminate].
Defined.

(** ** Filtering the ledger *)

Lemma filter_guarded {A : Type} (p : A -> bool) (b : bool) (l : list A) :
  (if b && negb (is_nil l) then filter p l else l)
  = filter (fun x => if b then p x else true) l.
Proof.
  destruct b; cbn [andb].
  - destruct l; reflexivity.
  - symmetry. apply filter_all. reflexivity.
Qed.

Lemma filter_twice {A : Type} (p q : A -> bool) (l : list A) :
  filter q (filter p l) = filter (fun x => p x && q x) l.
Proof.
  induction l as [|x t IH]; [reflexivity|]. cbn [filter].
  destruct (p x); cbn [filter andb]; [destruct (q x)|]; now rewrite IH.
Qed.

Lemma filter_transactions_filter (df : Ledger) (ticker trans_type : option string)
      (start_date end_date : option Z) :
  filter_transactions df ticker trans_type start_date end_date
  = filter (matches ticker trans_type start_date end_date) df.
Proof.
  unfold filter_transactions.
  rewrite (filter_guarded _ (truthy ticker)).
  rewrite (filter_guarded _ (truthy trans_type)).
  assert (Hs : forall l : Ledger,
             match start_date with
             | Some d => if negb (is_nil l)
                         then filter (fun r => d <=? Date r) l else l
             | None => l
             end
             = filter (fun r => match start_date with
                                | Some d => d <=? Date r | None => true end) l).
  { intros l. destruct start_date as [d|].
    - destruct l; reflexivity.
    - symmetry. apply filter_all. reflexivity. }
  assert (He : forall l : Ledger,
             match end_date with
             | Some d => if negb (is_nil l)
                         then filter (fun r => Date r <=? d) l else l
             | None => l
             end
             = filter (fun r => match end_date with
                                | Some d => Date r <=? d | None => true end) l).
  { intros l. destruct end_date as [d|].
    - destruct l; reflexivity.
    - symmetry. apply filter_all. reflexivity. }
  rewrite Hs, He, !filter_twice. apply filter_ext. intros r.
  unfold matches. now rewrite !andb_assoc.
Qed.

(** X3. [filter_transactions] returns exactly the rows of the ledger that
    meet every criterion given, in ledger order: the tests on an empty
    intermediate frame change nothing, and an empty ticker or type string
    filters nothing. *)
Theorem filter_transactions_rows (df : Ledger) (ticker trans_type : option string)
        (start_date end_date : option Z) :
  filter_transactions df ticker trans_type start_date end_date
  = filter (matches ticker trans_type start_date end_date) df
  /\ forall r,
      In r (filter_transactions df ticker trans_type start_date end_date) <->
      In r df
      /\ (forall t, ticker = Some t -> t <> "" -> Ticker r = t)
      /\ (forall ty, trans_type = Some ty -> ty <> "" -> TransactionType r = ty)
      /\ (forall d, start_date = Some d -> d <= Date r)
      /\ (forall d, end_date = Some d -> Date r <= d).
Proof.
  split; [apply filter_transactions_filter|].
  intros r. rewrite filter_transactions_filter, filter_In.
  unfold matches. rewrite !andb_true_iff.
  assert (Hopt : forall (o : option string) (x : string),
             (if truthy o then String.eqb x (get_string o) else true) = true
             <-> (forall t, o = Some t -> t <> "" -> x = t)).
  { intros o x. destruct o as [t|]; cbn [truthy get_string].
    - destruct (String.eqb_spec t "") as [E|E]; cbn [negb].
      + split; [|reflexivity]. intros _ t' Ht' Hne. inversion Ht'. congruence.
      + rewrite String.eqb_eq. split.
        * intros -> t' Ht' _. now inversion Ht'.
        * intros H. now apply H.
    - split; [intros _ t Ht; discriminate | reflexivity]. }
  rewrite !Hopt.
  assert (Hs : match start_date with Some d => d <=? Date r | None => true end
               = true <-> (forall d, start_date = Some d -> d <= Date r)).
  { destruct start_date as [d|].
    - rewrite Z.leb_le. split; [intros H d' E; injection E as E'; subst; exact H | auto].
    - split; [intros _ d E; discriminate | reflexivity]. }
  assert (He : match end_date with Some d => Date r <=? d | None => true end
               = true <-> (forall d, end_date = Some d -> Date r <= d)).
  { destruct end_date as [d|].
    - rewrite Z.leb_le. split; [intros H d' E; injection E as E'; subst; exact H | auto].
    - split; [intros _ d E; discriminate | reflexivity]. }
  rewrite Hs, He. tauto.
Qed.

(** X4. Narrowing in two calls is narrowing in one: filtering the result of
    a ticker filter by type and dates gives what one call with all the
    criteria gives. *)
Theorem filter_transactions_compose (df : Ledger)
        (ticker trans_type : option string) (start_date end_date : option Z) :
  filter_transactions (filter_transactions df ticker None None None)
                      None trans_type start_date end_date
  = filter_transactions df ticker trans_type start_date end_date.
Proof.
  rewrite !filter_transactions_filter, filter_twice.
  apply filter_ext. intros r. unfold matches. cbn [truthy].
  rewrite !andb_true_r. cbn [andb]. now rewrite !andb_assoc.
Qed.

(** ** The order of the holdings *)

(** X7. The rows of the Holdings Calculator's output are in strictly
    ascending ticker order, whatever the order of the ledger. *)
Theorem holdings_in_ticker_order (df : Ledger) :
  exists holdings,
    get_current_holdings df = Ok holdings
    /\ StronglySorted (fun a b => String.ltb (hTicker a) (hTicker b) = true)
                      (rows holdings).
Proof.
  exists (holdings_frame df). split; [apply get_current_holdings_ok|].
  rewrite rows_holdings_frame. unfold raw_holdings.
  assert (H := groupby_ticker_sorted (map negate_sell df)).
  apply (filter_StronglySorted _ open_position) in H.
  revert H. generalize (filter open_position
                               (groupby_ticker (map negate_sell df))).
  intros groups H. induction H as [|kg t Ht IH Hkg]; cbn [map]; constructor;
    [assumption|].
  rewrite Forall_forall in *. intros h Hh.
  apply in_map_iff in Hh. destruct Hh as (h0 & <- & Hh0).
  apply in_map_iff in Hh0. destruct Hh0 as (kg' & <- & Hkg').
  cbn [round_holding holding_of hTicker]. now apply Hkg.
Qed.

(** ** The transaction summary *)

Lemma guarded_div (n : Z) (a : Q) :
  (if 0 <? n then div a (inject_Z n) else Ok 0%Q)
  = Ok (if 0 <? n then (a / inject_Z n)%Q else 0%Q).
Proof.
  destruct (0 <? n) eqn:E; [|reflexivity]. now apply div_positive_Z.
Qed.

Lemma summary_row_ok (df : Ledger) (ticker : string) :
  exists r,
    summary_row df ticker = Ok r
    /\ sTicker r = ticker
    /\ BuyShares r = Zsum (map Quantity (buys_of ticker df))
    /\ SellShares r = sold_shares ticker df
    /\ NetShares r = net_shares ticker df.
Proof.
  unfold summary_row. rewrite !guarded_div. cbn [bind].
  eexists. split; [reflexivity|].
  cbn [sTicker BuyShares SellShares NetShares].
  fold (has_ticker ticker). fold (ticker_rows ticker df).
  fold (buys_of ticker df). fold (sells_of ticker df).
  rewrite !(guarded_nil (fun l => Zsum (map Quantity l)) 0) by reflexivity.
  repeat split.
Qed.

Lemma summary_loop_ok (df : Ledger) (tickers : list string) :
  exists rs,
    summary_loop df tickers = Ok rs
    /\ map sTicker rs = tickers
    /\ Forall (fun r =>
                 BuyShares r = Zsum (map Quantity (buys_of (sTicker r) df))
                 /\ SellShares r = sold_shares (sTicker r) df
                 /\ NetShares r = net_shares (sTicker r) df) rs.
Proof.
  induction tickers as [|t rest IH].
  - exists []. repeat split. constructor.
  - destruct (summary_row_ok df t) as (r & Hr & Ht & Hb & Hs & Hn).
    destruct IH as (rs & Hrs & Hmap & Hall).
    exists (r :: rs). cbn [summary_loop]. rewrite Hr. cbn [bind].
    rewrite Hrs. cbn [bind map]. split; [reflexivity|].
    split; [now rewrite Ht, Hmap|].
    constructor; [now rewrite Ht | assumption].
Qed.

Lemma generate_transaction_summary_ok (df : Ledger) :
  exists summary,
    generate_transaction_summary df = Ok summary
    /\ StronglySorted (fun a b => String.ltb (sTicker a) (sTicker b) = true)
                      (rows summary)
    /\ (forall t, In t (map sTicker (rows summary)) <-> In t (map Ticker df))
    /\ (forall r, In r (rows summary) ->
          BuyShares r = Zsum (map Quantity (buys_of (sTicker r) df))
          /\ SellShares r = sold_shares (sTicker r) df
          /\ NetShares r = net_shares (sTicker r) df).
Proof.
  unfold generate_transaction_summary. destruct df as [|r0 df].
  { exists NoColumns. split; [reflexivity|]. split; [constructor|].
    split; [reflexivity | intros r []]. }
  cbn [is_nil].
  destruct (summary_loop_ok (r0 :: df)
              (unique String.eqb (map Ticker (r0 :: df))))
    as (rs & Hrs & Hmap & Hall).
  rewrite Hrs. cbn [bind]. eexists. split; [reflexivity|].
  set (sorted := stable_sort (fun a b => String.leb (sTicker a) (sTicker b)) rs).
  assert (Hperm : Permutation sorted rs) by apply stable_sort_perm.
  assert (Hrows : rows (if negb (empty (DataFrame rs))
                        then sort_values_ticker (DataFrame rs)
                        else DataFrame rs) = sorted).
  { subst sorted. destruct rs; reflexivity. }
  rewrite Hrows. split; [|split].
  - apply sorted_NoDup_strict; [apply sort_by_ticker_sorted|].
    apply (Permutation_NoDup
             (Permutation_sym (Permutation_map sTicker Hperm))).
    rewrite Hmap. apply unique_NoDup, String.eqb_eq.
  - intros t.
    rewrite <- (unique_In String.eqb String.eqb_eq t (map Ticker (r0 :: df))).
    rewrite <- Hmap.
    split; apply Permutation_in, Permutation_map;
      [|apply Permutation_sym]; exact Hperm.
  - intros r Hr. apply (Permutation_in _ Hperm) in Hr.
    rewrite Forall_forall in Hall. now apply Hall.
Qed.

(** X6. [generate_transaction_summary] never raises and returns one row
    per ticker of the ledger, in strictly ascending ticker order; in each
    row Buy Shares and Sell Shares are the sums of the quantities of the
    ticker's Buy and Sell rows, and Net Shares is their difference. *)
Theorem transaction_summary_rows (df : Ledger) :
  exists summary,
    generate_transaction_summary df = Ok summary
    /\ StronglySorted (fun a b => String.ltb (sTicker a) (sTicker b) = true)
                      (rows summary)
    /\ (forall t, In t (map sTicker (rows summary)) <-> In t (map Ticker df))
    /\ (forall r, In r (rows summary) ->
          BuyShares r = Zsum (map Quantity (buys_of (sTicker r) df))
          /\ SellShares r = Zsum (map Quantity (sells_of (sTicker r) df))
          /\ NetShares r = BuyShares r - SellShares r).
Proof.
  destruct (generate_transaction_summary_ok df) as (summary & Hok & Hs & Ht & Hr).
  exists summary. repeat split; try assumption; try apply Ht.
  - now apply Hr.
  - now apply Hr.
  - destruct (Hr r H) as (Hb & Hsell & Hn). rewrite Hn, Hb, Hsell. reflexivity.
Qed.

(** X8. On a ledger of Buy and Sell transactions the transaction summary
    and the Holdings Calculator agree: a ticker is held exactly when its
    summary row has positive Net Shares, and the Shares of a holding are the
    Net Shares of the summary row of its ticker. *)
Theorem summary_agrees_with_holdings (df : Ledger) :
  Forall typed df ->
  exists summary holdings,
    generate_transaction_summary df = Ok summary
    /\ get_current_holdings df = Ok holdings
    /\ (forall r, In r (rows summary) ->
          (0 < NetShares r <-> In (sTicker r) (map hTicker (rows holdings))))
    /\ (forall h, In h (rows holdings) ->
          exists r, In r (rows summary) /\ sTicker r = hTicker h
                    /\ NetShares r = Shares h).
Proof.
  intros Hty.
  destruct (generate_transaction_summary_ok df) as (summary & Hok & _ & Ht & Hr).
  exists summary, (holdings_frame df).
  split; [exact Hok|]. split; [apply get_current_holdings_ok|].
  assert (Hheld : forall t, In t (map hTicker (rows (holdings_frame df)))
                            <-> 0 < net_shares t df).
  { intros t. split; [now apply holdings_frame_tickers|].
    intros Hpos. rewrite rows_holdings_frame, map_hTicker_round.
    rewrite <- (group_shares_net t df Hty) in Hpos.
    apply in_map_iff. exists (holding_of t (group_of t df)).
    split; [reflexivity|]. apply raw_holdings_In. now exists t. }
  split.
  - intros r Hin. destruct (Hr r Hin) as (_ & _ & Hn). rewrite Hn.
    symmetry. apply Hheld.
  - intros h Hh.
    assert (Hpos : 0 < net_shares (hTicker h) df)
      by (apply Hheld; now apply in_map).
    assert (Htick : In (hTicker h) (map Ticker df)).
    { apply ticker_rows_present. intros E. unfold net_shares, buys_of, sells_of in Hpos.
      rewrite E in Hpos. simpl in Hpos. lia. }
    apply Ht in Htick. apply in_map_iff in Htick.
    destruct Htick as (r & Hrt & Hin). exists r.
    split; [assumption|]. split; [assumption|].
    destruct (Hr r Hin) as (_ & _ & Hn). rewrite Hn, Hrt.
    rewrite rows_holdings_frame in Hh. apply in_map_iff in Hh.
    destruct Hh as (h0 & <- & Hh0). apply raw_holdings_In in Hh0.
    destruct Hh0 as (k & _ & ->).
    cbn [round_holding holding_of hTicker Shares].
    symmetry. apply group_shares_net, Hty.
Qed.

Lemma summary_agrees_with_holdings_witness :
  exists summary holdings,
    generate_transaction_summary ledger_example = Ok summary
    /\ get_current_holdings ledger_example = Ok holdings
    /\ (forall r, In r (rows summary) ->
          (0 < NetShares r <-> In (sTicker r) (map hTicker (rows holdings))))
    /\ (forall h, In h (rows holdings) ->
          exists r, In r (rows summary) /\ sTicker r = hTicker h
                    /\ NetShares r = Shares h).
Proof.
  apply (summary_agrees_with_holdings ledger_example). unfold ledger_example.
  solve_Forall.
Defined.

(** ** Holdings of one ticker *)

Lemma unique_constant (t : string) (l : list string) :
  (forall x, In x l -> x = t) ->
  unique String.eqb l = match l with [] => [] | _ => [t] end.
Proof.
  induction l as [|x l IH]; intros H; [reflexivity|].
  cbn [unique]. rewrite (H x (or_introl eq_refl)).
  rewrite IH by (intros y Hy; apply H; now right).
  destruct l; [reflexivity|]. cbn [filter].
  now rewrite String.eqb_refl.
Qed.

Lemma filter_key_absent (t : string) (keys : list string) :
  ~ In t keys -> filter (fun k => String.eqb k t) keys = [].
Proof.
  induction keys as [|k keys IH]; intros H; [reflexivity|]. cbn [filter].
  destruct (String.eqb_spec k t) as [E|E].
  - exfalso. apply H. now left.
  - apply IH. intros Hin. apply H. now right.
Qed.

Lemma filter_key_present (t : string) (keys : list string) :
  NoDup keys -> In t keys -> filter (fun k => String.eqb k t) keys = [t].
Proof.
  induction 1 as [|k keys Hk Hnd IH]; intros Hin; [destruct Hin|].
  cbn [filter]. destruct (String.eqb_spec k t) as [E|E].
  - subst k. now rewrite filter_key_absent.
  - apply IH. destruct Hin as [Hin|Hin]; [contradiction|assumption].
Qed.

Lemma ticker_rows_idempotent (t : string) (df : Ledger) :
  ticker_rows t (ticker_rows t df) = ticker_rows t df.
Proof.
  unfold ticker_rows. rewrite filter_twice. apply filter_ext.
  intros r. now rewrite andb_diag.
Qed.

Lemma groupby_ticker_rows (t : string) (df : Ledger) :
  groupby_ticker (ticker_rows t df)
  = match ticker_rows t df with
    | [] => []
    | _ => [(t, ticker_rows t df)]
    end.
Proof.
  unfold groupby_ticker.
  rewrite (unique_constant t).
  - destruct (ticker_rows t df) as [|r g] eqn:E; [reflexivity|].
    cbn [map stable_sort insert_sorted]. rewrite <- E.
    fold (ticker_rows t (ticker_rows t df)).
    now rewrite ticker_rows_idempotent.
  - intros x Hx. apply in_map_iff in Hx. destruct Hx as (r & <- & Hr).
    apply filter_In in Hr. destruct Hr as [_ Hr]. now apply String.eqb_eq.
Qed.

Lemma groupby_ticker_select (t : string) (df : Ledger) :
  filter (fun kg => String.eqb (fst kg) t) (groupby_ticker df)
  = match ticker_rows t df with
    | [] => []
    | _ => [(t, ticker_rows t df)]
    end.
Proof.
  unfold groupby_ticker.
  rewrite filter_map_commute. cbn [fst].
  destruct (ticker_rows t df) as [|r g] eqn:E.
  - rewrite filter_key_absent; [reflexivity|].
    intros Hin. apply (proj1 (stable_sort_In _ _ _)) in Hin.
    apply (proj1 (unique_In String.eqb String.eqb_eq _ _)) in Hin.
    apply in_map_iff in Hin. destruct Hin as (r & Hr & Hin).
    assert (Hf : In r (ticker_rows t df))
      by (apply filter_In; split; [assumption | now apply String.eqb_eq]).
    rewrite E in Hf. destruct Hf.
  - rewrite filter_key_present.
    + cbn [map]. fold (ticker_rows t df). now rewrite E.
    + eapply Permutation_NoDup;
        [apply Permutation_sym, stable_sort_perm
        | apply unique_NoDup, String.eqb_eq].
    + apply stable_sort_In, (unique_In String.eqb String.eqb_eq).
      apply ticker_rows_present. rewrite E. discriminate.
Qed.

Lemma raw_holdings_ticker_rows (t : string) (df : Ledger) :
  raw_holdings (ticker_rows t df)
  = filter (fun h => String.eqb (hTicker h) t) (raw_holdings df).
Proof.
  unfold raw_holdings.
  rewrite filter_map_commute. cbn [holding_of hTicker].
  assert (Hsel : forall groups : list (string * Ledger),
             filter (fun kg => String.eqb (fst kg) t)
                    (filter open_position groups)
             = filter open_position
                      (filter (fun kg => String.eqb (fst kg) t) groups)).
  { intros groups. rewrite !filter_twice. apply filter_ext.
    intros kg. apply andb_comm. }
  rewrite Hsel, groupby_ticker_select.
  fold (group_of t df). rewrite <- group_of_map.
  unfold group_of. rewrite groupby_ticker_rows. reflexivity.
Qed.

(** X5. The holdings of the ledger filtered to one ticker are the holdings
    of the whole ledger restricted to that ticker: a position does not
    depend on the transactions of the other tickers. *)
Theorem holdings_of_filtered_ledger (df : Ledger) (t : string) :
  t <> "" ->
  exists part whole,
    get_current_holdings (filter_transactions df (Some t) None None None)
    = Ok part
    /\ get_current_holdings df = Ok whole
    /\ rows part = filter (fun h => String.eqb (hTicker h) t) (rows whole).
Proof.
  intros Hne.
  assert (E : filter_transactions df (Some t) None None None = ticker_rows t df).
  { rewrite filter_transactions_filter. apply filter_ext. intros r.
    unfold matches, has_ticker. cbn [truthy get_string].
    apply String.eqb_neq in Hne. rewrite Hne. cbn [negb].
    now rewrite !andb_true_r. }
  rewrite E. exists (holdings_frame (ticker_rows t df)), (holdings_frame df).
  split; [apply get_current_holdings_ok|].
  split; [apply get_current_holdings_ok|].
  rewrite !rows_holdings_frame, raw_holdings_ticker_rows.
  now rewrite filter_map_commute.
Qed.

Lemma holdings_of_filtered_ledger_witness :
  exists part whole,
    get_current_holdings
      (filter_transactions ledger_mixed (Some "MSFT") None None None) = Ok part
    /\ get_current_holdings ledger_mixed = Ok whole
    /\ rows part = filter (fun h => String.eqb (hTicker h) "MSFT") (rows whole).
Proof.
  apply (holdings_of_filtered_ledger ledger_mixed "MSFT"). discriminate.
Defined.

(** ** The price of a holding *)

Lemma negate_sell_Price (r : Transaction) : Price (negate_sell r) = Price r.
Proof. unfold negate_sell. now destruct (is_type "Sell" r). Qed.

Lemma iloc_last_map_ok {A B : Type} (f : A -> B) (l : list A) (x : A) :
  iloc_last l = Ok x -> iloc_last (map f l) = Ok (f x).
Proof.
  induction l as [|a t IH]; cbn [iloc_last map]; [discriminate|].
  destruct t as [|b t']; cbn [map] in *.
  - intros E. now inversion E.
  - exact IH.
Qed.

(** X9. The Holdings Calculator values a position at the price of the last
    row of its ticker in ledger order: for every ledger whose Buy rows have
    positive quantities, Current Value is Shares times that price and
    Profit/Loss is that product less the average buy cost times Shares,
    each to the cent (the columns are rounded to two decimals and lie less
    than a cent from the exact amounts). *)
Theorem holding_valued_at_last_row (df : Ledger) :
  Forall buy_quantity_positive df ->
  exists holdings,
    get_current_holdings df = Ok holdings
    /\ forall h, In h (rows holdings) ->
         exists r,
           iloc_last (ticker_rows (hTicker h) df) = Ok r
           /\ within_a_cent (CurrentValue h) (inject_Z (Shares h) * Price r)
           /\ within_a_cent
                (ProfitLoss h)
                (inject_Z (Shares h) * Price r
                 - average_buy_cost (hTicker h) df * inject_Z (Shares h)).
Proof.
  intros Hq. exists (holdings_frame df).
  split; [apply get_current_holdings_ok|].
  rewrite rows_holdings_frame. intros h Hin.
  apply in_map_iff in Hin. destruct Hin as (h0 & <- & Hin).
  apply raw_holdings_In in Hin. destruct Hin as (k & Hpos & ->).
  cbn [round_holding holding_of hTicker Shares CurrentValue ProfitLoss].
  assert (Hne : ticker_rows k df <> []).
  { intros E. rewrite group_of_map, E in Hpos. simpl in Hpos. lia. }
  destruct (iloc_last_nonempty _ Hne) as [r Hr]. exists r.
  split; [exact Hr|].
  assert (Hlast : last_price_of (group_of k df) = Price r).
  { unfold last_price_of. rewrite group_of_map.
    rewrite (iloc_last_map_ok negate_sell _ _ Hr). apply negate_sell_Price. }
  rewrite Hlast, (avg_cost_of_group k df Hq).
  split; apply round2_within_a_cent.
Qed.

Lemma holding_valued_at_last_row_witness :
  exists holdings,
    get_current_holdings ledger_backdated = Ok holdings
    /\ forall h, In h (rows holdings) ->
         exists r,
           iloc_last (ticker_rows (hTicker h) ledger_backdated) = Ok r
           /\ within_a_cent (CurrentValue h) (inject_Z (Shares h) * Price r)
           /\ within_a_cent
                (ProfitLoss h)
                (inject_Z (Shares h) * Price r
                 - average_buy_cost (hTicker h) ledger_backdated
                   * inject_Z (Shares h)).
Proof.
  apply (holding_valued_at_last_row ledger_backdated). unfold ledger_backdated.
  solve_Forall.
Defined.

(** ** Counting transactions *)

Lemma count_buys_sells (df : Ledger) :
  (List.length (filter (is_type "Buy") df)
   + List.length (filter (is_type "Sell") df) <= List.length df)%nat
  /\ ((List.length (filter (is_type "Buy") df)
       + List.length (filter (is_type "Sell") df))%nat = List.length df
      <-> Forall typed df).
Proof.
  induction df as [|r df [IHle IHeq]].
  - split; [apply le_n|]. split; [constructor | reflexivity].
  - cbn [filter].
    unfold is_type in *.
    destruct (String.eqb_spec (TransactionType r) "Buy") as [Eb|Eb];
      destruct (String.eqb_spec (TransactionType r) "Sell") as [Es|Es];
      cbn [List.length].
    + congruence.
    + split; [lia|]. split.
      * intros H. constructor; [now left|]. apply IHeq. lia.
      * intros H. inversion H as [|? ? _ Ht]; subst. apply IHeq in Ht. lia.
    + split; [lia|]. split.
      * intros H. constructor; [now right|]. apply IHeq. lia.
      * intros H. inversion H as [|? ? _ Ht]; subst. apply IHeq in Ht. lia.
    + split; [lia|]. split.
      * intros H. lia.
      * intros H. inversion H as [|? ? Hr _]; subst. destruct Hr; contradiction.
Qed.

(** X11. The counts of the Portfolio Summary come from the ledger itself:
    total_transactions is the number of rows, Buy and Sell counts never
    exceed it together, and they add up to it exactly when every row is a
    Buy or a Sell. *)
Theorem summary_counts (df : Ledger) :
  exists summary,
    get_portfolio_summary df = Ok summary
    /\ total_transactions summary = List.length df
    /\ (total_buys summary + total_sells summary
        <= total_transactions summary)%nat
    /\ ((total_buys summary + total_sells summary)%nat
        = total_transactions summary
        <-> Forall typed df).
Proof.
  destruct df as [|r df].
  - eexists. split; [reflexivity|]. cbn. split; [reflexivity|].
    split; [apply le_n|]. split; [constructor | reflexivity].
  - exists (summary_of (r :: df)).
    split; [apply get_portfolio_summary_ok; discriminate|].
    cbn [summary_of total_transactions total_buys total_sells].
    split; [reflexivity|]. apply count_buys_sells.
Qed.

(** ** No analytics function raises *)

(** X15. On every ledger the Holdings Calculator, the Portfolio Summary, the
    Historical Performance Reconstructor and the Profit/Loss Report return a
    result: no division by zero, no missing column and no index out of
    range is reached. *)
Theorem analytics_never_raise (df : Ledger) :
  (exists holdings, get_current_holdings df = Ok holdings)
  /\ (exists summary, get_portfolio_summary df = Ok summary)
  /\ (exists points, calculate_historical_performance df = Ok points)
  /\ (exists report, generate_profit_loss_report df = Ok report).
Proof.
  split; [eexists; apply get_current_holdings_ok|].
  split.
  { destruct df as [|r df]; [eexists; reflexivity|].
    eexists. apply get_portfolio_summary_ok. discriminate. }
  split.
  - destruct (calculate_historical_performance_ok df) as (p & Hp & _).
    now exists p.
  - destruct (generate_profit_loss_report_ok df) as (r & Hr & _).
    now exists r.
Qed.

(** ** The order and the unrealized column of the report *)

Lemma generate_profit_loss_report_rows (df : Ledger) :
  exists report,
    generate_profit_loss_report df = Ok report
    /\ rows report
       = map round_report_row
             (stable_sort
                (fun a b => Qle_bool (TotalProfitLoss b) (TotalProfitLoss a))
                (report_data_of df)).
Proof.
  unfold generate_profit_loss_report.
  destruct df as [|r df]; [exists (Table []); split; reflexivity|].
  cbn [is_nil]. rewrite get_current_holdings_ok. cbn [bind].
  rewrite report_loop_ok. cbn [bind]. fold (report_data_of (r :: df)).
  eexists. split; [reflexivity|].
  destruct (report_data_of (r :: df)) as [|x l]; reflexivity.
Qed.

(** X13. The rows of the Profit/Loss Report are in non-increasing order of
    Total Profit/Loss: the rows are sorted at full precision and rounding
    the column afterwards keeps the order. *)
Theorem report_sorted_by_total (df : Ledger) :
  exists report,
    generate_profit_loss_report df = Ok report
    /\ StronglySorted
         (fun a b => (TotalProfitLoss b <= TotalProfitLoss a)%Q)
         (rows report).
Proof.
  destruct (generate_profit_loss_report_rows df) as (report & Hok & Hrows).
  exists report. split; [exact Hok|]. rewrite Hrows.
  assert (Hsorted :
            StronglySorted
              (fun a b => Qle_bool (TotalProfitLoss b) (TotalProfitLoss a) = true)
              (stable_sort
                 (fun a b => Qle_bool (TotalProfitLoss b) (TotalProfitLoss a))
                 (report_data_of df))).
  { apply (stable_sort_is_sorted
             (fun a b => Qle_bool (TotalProfitLoss b) (TotalProfitLoss a))).
    - intros a b. rewrite !Qle_bool_iff.
      destruct (Qlt_le_dec (TotalProfitLoss a) (TotalProfitLoss b)) as [H|H];
        [right; now apply Qlt_le_weak | now left].
    - intros a b c. rewrite !Qle_bool_iff. intros H1 H2.
      eapply Qle_trans; eassumption. }
  revert Hsorted.
  generalize (stable_sort
                (fun a b => Qle_bool (TotalProfitLoss b) (TotalProfitLoss a))
                (report_data_of df)).
  intros l Hsorted.
  induction Hsorted as [|x t Ht IH Hx]; cbn [map]; constructor; [assumption|].
  rewrite Forall_forall in *. intros y Hy. apply in_map_iff in Hy.
  destruct Hy as (y0 & <- & Hy0). cbn [round_report_row TotalProfitLoss].
  apply round2_mono. apply Qle_bool_iff. now apply Hx.
Qed.

Lemma filter_key_unique {A : Type} (key : A -> string) (l : list A) (x : A) :
  NoDup (map key l) -> In x l ->
  filter (fun y => String.eqb (key y) (key x)) l = [x].
Proof.
  induction l as [|a l IH]; intros Hnd Hin; [destruct Hin|].
  cbn [map] in Hnd. apply NoDup_cons_iff in Hnd. destruct Hnd as [Hfresh Hnd].
  cbn [filter]. destruct Hin as [->|Hin].
  - rewrite String.eqb_refl. f_equal.
    assert (Hnone : forall l', ~ In (key x) (map key l') ->
                               filter (fun y => String.eqb (key y) (key x)) l' = []).
    { induction l' as [|b l' IH']; intros Hb; [reflexivity|]. cbn [filter].
      destruct (String.eqb_spec (key b) (key x)) as [E|E].
      - exfalso. apply Hb. left. exact E.
      - apply IH'. intros Hin. apply Hb. now right. }
    now apply Hnone.
  - destruct (String.eqb_spec (key a) (key x)) as [E|E].
    + exfalso. apply Hfresh. rewrite E. now apply in_map.
    + now apply IH.
Qed.

Lemma unrealized_value_present (df : Ledger) (h : Holding) :
  In h (rows (holdings_frame df)) ->
  unrealized_value (holdings_frame df) (hTicker h) = ProfitLoss h.
Proof.
  intros Hin.
  assert (Hnd : NoDup (map hTicker (rows (holdings_frame df)))).
  { rewrite rows_holdings_frame, map_hTicker_round. apply raw_holdings_NoDup. }
  unfold unrealized_value, unrealized_of.
  destruct (holdings_frame df) as [|hs]; [destruct Hin|].
  cbn [rows] in *. destruct hs as [|h0 hs]; [destruct Hin|].
  cbn [empty rows negb has_columns andb column bind].
  assert (Hm : mem String.eqb (hTicker h) (map hTicker (h0 :: hs)) = true)
    by (apply (mem_In String.eqb String.eqb_eq); now apply in_map).
  rewrite Hm. now rewrite (filter_key_unique hTicker (h0 :: hs) h Hnd Hin).
Qed.

(** X14. For every ticker held, the Unrealized Profit/Loss of its row in the
    Profit/Loss Report is the Profit/Loss of its row in the Holdings
    Calculator's output. *)
Theorem report_unrealized_is_holding_profit (df : Ledger) :
  exists report holdings,
    generate_profit_loss_report df = Ok report
    /\ get_current_holdings df = Ok holdings
    /\ forall h, In h (rows holdings) ->
         exists r, In r (rows report)
                   /\ rTicker r = hTicker h
                   /\ UnrealizedProfitLoss r = ProfitLoss h.
Proof.
  destruct (generate_profit_loss_report_ok df) as (report & Hok & Hperm).
  exists report, (holdings_frame df).
  split; [exact Hok|]. split; [apply get_current_holdings_ok|].
  intros h Hin.
  assert (Hkey : In (hTicker h) (map fst (groupby_ticker df))).
  { apply groupby_ticker_keys.
    pose proof Hin as Hraw. rewrite rows_holdings_frame in Hraw.
    apply in_map_iff in Hraw. destruct Hraw as (h0 & <- & Hh0).
    apply raw_holdings_In in Hh0. destruct Hh0 as (k & Hpos & ->).
    cbn [round_holding holding_of hTicker].
    apply ticker_rows_present. intros E.
    rewrite group_of_map, E in Hpos. simpl in Hpos. lia. }
  apply in_map_iff in Hkey. destruct Hkey as ([k g] & Hk & Hkg).
  cbn [fst] in Hk. subst k.
  exists (round_report_row (report_row_of (holdings_frame df) (hTicker h) g)).
  split.
  - apply (Permutation_in _ (Permutation_sym Hperm)). apply in_map.
    unfold report_data_of. apply in_map_iff. now exists (hTicker h, g).
  - split; [reflexivity|].
    cbn [round_report_row report_row_of UnrealizedProfitLoss].
    rewrite (unrealized_value_present df h Hin).
    rewrite rows_holdings_frame in Hin. apply in_map_iff in Hin.
    destruct Hin as (h0 & <- & _). cbn [round_holding ProfitLoss].
    apply round2_idempotent.
Qed.

(** ** The profit of the summary and the profits of the holdings *)

Lemma rounded_profit_gap (raw : list Holding) :
  Forall (fun h => ProfitLoss h = (CurrentValue h - TotalCost h)%Q) raw ->
  (- ((3 # 200) * inject_Z (Z.of_nat (List.length raw)))
   <= Qsum (map (fun h => round2 (CurrentValue h)) raw)
      - Qsum (map (fun h => round2 (TotalCost h)) raw)
      - Qsum (map (fun h => round2 (ProfitLoss h)) raw)
   <= (3 # 200) * inject_Z (Z.of_nat (List.length raw)))%Q.
Proof.
  induction 1 as [|h raw Hh _ IH].
  - cbn. split; discriminate.
  - cbn [map Qsum fold_right List.length]. fold (Qsum (map (fun h => round2 (CurrentValue h)) raw)).
    fold (Qsum (map (fun h => round2 (TotalCost h)) raw)).
    fold (Qsum (map (fun h => round2 (ProfitLoss h)) raw)).
    rewrite Nat2Z.inj_succ, <- Z.add_1_r, inject_Z_plus.
    change (inject_Z 1) with 1%Q. rewrite Hh.
    pose proof (round2_close (CurrentValue h)).
    pose proof (round2_close (TotalCost h)).
    pose proof (round2_close (CurrentValue h - TotalCost h)).
    lra.
Qed.

(** X12. The profit_loss of the Portfolio Summary and the sum of the
    Profit/Loss column of the holdings are rounded differently, and differ
    by at most 1.5 cents per holding. *)
Theorem summary_profit_close_to_holdings (df : Ledger) :
  exists summary holdings,
    get_portfolio_summary df = Ok summary
    /\ get_current_holdings df = Ok holdings
    /\ (Qabs (profit_loss summary - Qsum (map ProfitLoss (rows holdings)))
        <= (3 # 200) * inject_Z (Z.of_nat (List.length (rows holdings))))%Q.
Proof.
  destruct df as [|r0 df].
  { do 2 eexists. split; [reflexivity|]. split; [reflexivity|].
    cbn. discriminate. }
  exists (summary_of (r0 :: df)), (holdings_frame (r0 :: df)).
  split; [apply get_portfolio_summary_ok; discriminate|].
  split; [apply get_current_holdings_ok|].
  cbn [summary_of profit_loss].
  rewrite value_of_holdings_frame, cost_of_holdings_frame, rows_holdings_frame.
  rewrite map_map, length_map. cbn [round_holding ProfitLoss].
  apply Qabs_Qle_condition. apply rounded_profit_gap.
  rewrite Forall_forall. intros h Hin. apply raw_holdings_In in Hin.
  destruct Hin as (k & _ & ->). reflexivity.
Qed.

(** ** Positions do not depend on row order *)

Lemma Qsum_perm (l l' : list Q) : Permutation l l' -> (Qsum l == Qsum l')%Q.
Proof.
  induction 1 as [|x l l' H IH|x y l|l l' l'' H1 IH1 H2 IH2]; cbn.
  - reflexivity.
  - fold (Qsum l). fold (Qsum l'). now rewrite IH.
  - fold (Qsum l). ring.
  - now rewrite IH1.
Qed.

Lemma avg_cost_of_perm (g g' : Ledger) :
  Permutation g g' -> (avg_cost_of g == avg_cost_of g')%Q.
Proof.
  intros H. unfold avg_cost_of.
  assert (Hb : Permutation (filter (is_type "Buy") g) (filter (is_type "Buy") g'))
    by now apply filter_perm.
  rewrite (is_nil_perm _ _ Hb).
  rewrite (Zsum_perm _ _ (Permutation_map Quantity Hb)).
  destruct (negb (is_nil (filter (is_type "Buy") g'))
            && (0 <? Zsum (map Quantity (filter (is_type "Buy") g'))));
    [|reflexivity].
  now rewrite (Qsum_perm _ _ (Permutation_map Total Hb)).
Qed.

Lemma group_of_perm (t : string) (df df' : Ledger) :
  Permutation df df' -> Permutation (group_of t df) (group_of t df').
Proof.
  intros H. unfold group_of, ticker_rows.
  now apply filter_perm, Permutation_map.
Qed.

(** X10. Two orders of the same transactions give the same positions: the
    Holdings Calculator returns rows of the same tickers with the same
    Shares, in the same order, and the cost columns of corresponding rows
    agree to the cent (a sum taken in another order may round to the
    neighbouring cent; the bound leaves half a cent of room).  Only the
    valuation columns follow the order of the rows. *)
Theorem positions_order_independent (df df' : Ledger) :
  Permutation df df' ->
  exists holdings holdings',
    get_current_holdings df = Ok holdings
    /\ get_current_holdings df' = Ok holdings'
    /\ map position (rows holdings) = map position (rows holdings')
    /\ Forall2 (fun h h' =>
                  (Qabs (AverageCost h - AverageCost h') <= 3 # 200)%Q
                  /\ (Qabs (TotalCost h - TotalCost h') <= 3 # 200)%Q)
               (rows holdings) (rows holdings').
Proof.
  intros H. exists (holdings_frame df), (holdings_frame df').
  split; [apply get_current_holdings_ok|].
  split; [apply get_current_holdings_ok|].
  rewrite !rows_holdings_frame, !raw_holdings_by_key, !map_map.
  rewrite <- (ticker_keys_perm df df' H).
  assert (Hopen : forall k, open_position (k, group_of k df)
                            = open_position (k, group_of k df')).
  { intros k. unfold open_position. cbn [snd].
    now rewrite (Zsum_perm _ _ (Permutation_map Quantity (group_of_perm k _ _ H))). }
  rewrite (filter_ext _ _ Hopen).
  assert (Hshares : forall k, Zsum (map Quantity (group_of k df))
                              = Zsum (map Quantity (group_of k df')))
    by (intros k; apply Zsum_perm, Permutation_map, group_of_perm, H).
  split.
  - apply map_ext. intros k. unfold position.
    cbn [round_holding holding_of hTicker Shares]. now rewrite Hshares.
  - generalize (filter (fun k => open_position (k, group_of k df'))
                       (stable_sort String.leb
                                    (unique String.eqb (map Ticker df)))).
    intros keys. induction keys as [|k keys IH]; cbn [map]; constructor;
      [|exact IH].
    cbn [round_holding holding_of AverageCost TotalCost].
    pose proof (avg_cost_of_perm _ _ (group_of_perm k _ _ H)) as Havg.
    rewrite (round2_comp _ _ Havg).
    rewrite (round2_comp (avg_cost_of (group_of k df) * _)
                         (avg_cost_of (group_of k df')
                          * inject_Z (Zsum (map Quantity (group_of k df')))))
      by now rewrite Havg, Hshares.
    split; apply Qabs_Qle_condition; lra.
Qed.

Lemma positions_order_independent_witness :
  exists holdings holdings',
    get_current_holdings ledger_backdated = Ok holdings
    /\ get_current_holdings (rev ledger_backdated) = Ok holdings'
    /\ map position (rows holdings) = map position (rows holdings')
    /\ Forall2 (fun h h' =>
                  (Qabs (AverageCost h - AverageCost h') <= 3 # 200)%Q
                  /\ (Qabs (TotalCost h - TotalCost h') <= 3 # 200)%Q)
               (rows holdings) (rows holdings').
Proof.
  apply (positions_order_independent ledger_backdated (rev ledger_backdated)).
  unfold ledger_backdated. cbn [rev app]. apply perm_swap.
Defined.

(** ** Validation against the ledger *)

Lemma holdings_frame_rows_net (df : Ledger) (h : Holding) :
  Forall typed df ->
  In h (rows (holdings_frame df)) ->
  Shares h = net_shares (hTicker h) df /\ 0 < Shares h.
Proof.
  intros Hty Hin. rewrite rows_holdings_frame in Hin.
  apply in_map_iff in Hin. destruct Hin as (h0 & <- & Hin).
  apply raw_holdings_In in Hin. destruct Hin as (k & Hpos & ->).
  cbn [round_holding holding_of hTicker Shares].
  now rewrite <- (group_shares_net k df Hty).
Qed.

Lemma held_shares_Some (df : Ledger) (t : string) (n : Z) :
  Forall typed df ->
  held_shares t (rows (holdings_frame df)) = Some n ->
  n = net_shares t df /\ 0 < n.
Proof.
  intros Hty. unfold held_shares.
  destruct (find (fun h => String.eqb (hTicker h) t)
                 (rows (holdings_frame df))) as [h|] eqn:E; [|discriminate].
  apply find_some in E. destruct E as [Hin Ht]. apply String.eqb_eq in Ht.
  cbn [option_map]. intros Hn. inversion Hn. subst.
  now apply holdings_frame_rows_net.
Qed.

Lemma held_shares_None (df : Ledger) (t : string) :
  Forall typed df ->
  held_shares t (rows (holdings_frame df)) = None ->
  net_shares t df <= 0.
Proof.
  intros Hty. unfold held_shares.
  destruct (find (fun h => String.eqb (hTicker h) t)
                 (rows (holdings_frame df))) as [h|] eqn:E; [discriminate|].
  intros _. destruct (Z_le_gt_dec (net_shares t df) 0) as [Hle|Hgt];
    [assumption|]. exfalso.
  assert (Hin : In t (map hTicker (rows (holdings_frame df)))).
  { rewrite rows_holdings_frame, map_hTicker_round.
    assert (Hpos : 0 < Zsum (map Quantity (group_of t df)))
      by (rewrite (group_shares_net t df Hty); lia).
    apply in_map_iff. exists (holding_of t (group_of t df)).
    split; [reflexivity|]. apply raw_holdings_In. now exists t. }
  apply in_map_iff in Hin. destruct Hin as (h & Hh & Hin).
  pose proof (find_none _ _ E h Hin) as Hf. cbn in Hf.
  rewrite Hh, String.eqb_refl in Hf. discriminate.
Qed.

(** X16. Against the holdings of a ledger of Buy and Sell transactions
    (a frame that has its columns), a Sell of a named ticker is accepted
    exactly when its quantity is positive and at most the net shares of the
    ticker in the ledger. *)
Theorem sell_accepted_iff_covered (df : Ledger) (transaction : Transaction)
        (holdings : Frame Holding) :
  Forall typed df ->
  TransactionType transaction = "Sell" ->
  Ticker transaction <> "" ->
  get_current_holdings df = Ok holdings ->
  has_columns holdings = true ->
  exists valid message,
    validate_transaction transaction holdings = Ok (valid, message)
    /\ (valid = true <->
        0 < Quantity transaction
        /\ Quantity transaction <= net_shares (Ticker transaction) df).
Proof.
  intros Hty Hsell Hname Hok Hcols.
  assert (Hf : holdings_frame df = holdings)
    by (rewrite get_current_holdings_ok in Hok; congruence).
  clear Hok. destruct holdings as [|hs]; [discriminate|].
  destruct (validate_transaction_on_table transaction hs)
    as (valid & message & Hv & Hiff & _).
  exists valid, message. split; [exact Hv|].
  assert (Hrows : rows (holdings_frame df) = hs) by now rewrite Hf.
  rewrite Hiff. split.
  - intros (_ & Hq & Hheld). split; [assumption|].
    destruct (Hheld Hsell) as (n & Hn & Hle). rewrite <- Hrows in Hn.
    apply (held_shares_Some df _ _ Hty) in Hn. lia.
  - intros [Hq Hle]. split; [assumption|]. split; [assumption|]. intros _.
    destruct (held_shares (Ticker transaction) hs) as [n|] eqn:E.
    + exists n. split; [reflexivity|]. rewrite <- Hrows in E.
      apply (held_shares_Some df _ _ Hty) in E. lia.
    + rewrite <- Hrows in E. apply (held_shares_None df _ Hty) in E. lia.
Qed.

Lemma sell_accepted_iff_covered_witness :
  exists valid message,
    validate_transaction (tx 3 "AAPL" "Sell" 160 7)
                         (Table [round_holding
                                   (holding_of "AAPL" (group_of "AAPL" ledger_example))])
    = Ok (valid, message)
    /\ (valid = true <->
        0 < Quantity (tx 3 "AAPL" "Sell" 160 7)
        /\ Quantity (tx 3 "AAPL" "Sell" 160 7)
           <= net_shares (Ticker (tx 3 "AAPL" "Sell" 160 7)) ledger_example).
Proof.
  apply (sell_accepted_iff_covered ledger_example).
  - unfold ledger_example. solve_Forall.
  - reflexivity.
  - discriminate.
  - vm_compute. reflexivity.
  - reflexivity.
Defined.

Lemma net_shares_app (t : string) (l l' : Ledger) :
  net_shares t (l ++ l') = net_shares t l + net_shares t l'.
Proof.
  unfold net_shares, buys_of, sells_of, ticker_rows.
  rewrite !filter_app, !map_app.
  assert (Happ : forall a b, Zsum (a ++ b) = Zsum a + Zsum b).
  { induction a as [|x a IH]; intros b; cbn; [reflexivity|].
    fold (Zsum (a ++ b)). fold (Zsum a). rewrite IH. lia. }
  rewrite !Happ. lia.
Qed.

Lemma net_shares_one (t : string) (r : Transaction) :
  net_shares t [r]
  = if String.eqb (Ticker r) t
    then if is_type "Buy" r then Quantity r
         else if is_type "Sell" r then - Quantity r else 0
    else 0.
Proof.
  unfold net_shares, buys_of, sells_of, ticker_rows, has_ticker.
  cbn [filter]. destruct (String.eqb (Ticker r) t); [|reflexivity].
  cbn [filter]. unfold is_type.
  destruct (String.eqb_spec (TransactionType r) "Buy") as [Eb|Eb];
    destruct (String.eqb_spec (TransactionType r) "Sell") as [Es|Es];
    cbn; try lia. congruence.
Qed.

(** X17. Appending a transaction that validation accepted keeps every
    position non-negative: on a ledger of Buy and Sell transactions in
    which no ticker has negative net shares, no ticker has negative net
    shares after the accepted transaction is added. *)
Theorem accepted_transaction_keeps_positions (df : Ledger)
        (transaction : Transaction) (holdings : Frame Holding)
        (message : string) :
  Forall typed df ->
  (forall t, 0 <= net_shares t df) ->
  get_current_holdings df = Ok holdings ->
  validate_transaction transaction holdings = Ok (true, message) ->
  forall t, 0 <= net_shares t (df ++ [transaction]).
Proof.
  intros Hty Hnet Hok Hv t.
  rewrite net_shares_app, net_shares_one. specialize (Hnet t).
  destruct (String.eqb_spec (Ticker transaction) t) as [Et|Et]; [|lia].
  assert (Hf : holdings_frame df = holdings)
    by (rewrite get_current_holdings_ok in Hok; congruence).
  clear Hok. unfold is_type.
  destruct (String.eqb_spec (TransactionType transaction) "Sell") as [Es|Es].
  - destruct (String.eqb_spec (TransactionType transaction) "Buy") as [Eb|Eb];
      [congruence|].
    destruct holdings as [|hs].
    { exfalso. revert Hv. unfold validate_transaction.
      destruct (String.eqb (Ticker transaction) ""); [discriminate|].
      destruct (Quantity transaction <=? 0); [discriminate|].
      apply String.eqb_eq in Es. rewrite Es. discriminate. }
    destruct (validate_transaction_on_table transaction hs)
      as (valid & msg & Hv' & Hiff & _).
    rewrite Hv in Hv'. inversion Hv'. subst valid msg.
    destruct (proj1 Hiff eq_refl) as (_ & Hq & Hheld).
    destruct (Hheld Es) as (n & Hn & Hle).
    assert (Hrows : rows (holdings_frame df) = hs) by now rewrite Hf.
    rewrite <- Hrows, Et in Hn.
    apply (held_shares_Some df _ _ Hty) in Hn. lia.
  - assert (Hq : 0 < Quantity transaction).
    { revert Hv. unfold validate_transaction.
      destruct (String.eqb (Ticker transaction) ""); [discriminate|].
      destruct (Quantity transaction <=? 0) eqn:E; [discriminate|].
      intros _. now apply Z.leb_gt in E. }
    destruct (String.eqb (TransactionType transaction) "Buy"); lia.
Qed.

Lemma accepted_transaction_keeps_positions_witness :
  validate_transaction
    (tx 3 "AAPL" "Sell" 160 7)
    (Table [round_holding (holding_of "AAPL" (group_of "AAPL" ledger_example))])
  = Ok (true, "")
  /\ forall t, 0 <= net_shares t (ledger_example ++ [tx 3 "AAPL" "Sell" 160 7]).
Proof.
  split; [vm_compute; reflexivity|].
  apply (accepted_transaction_keeps_positions
           ledger_example (tx 3 "AAPL" "Sell" 160 7)
           (Table [round_holding
                     (holding_of "AAPL" (group_of "AAPL" ledger_example))])
           "").
  - unfold ledger_example. solve_Forall.
  - intros t. unfold net_shares, buys_of, sells_of, ticker_rows, has_ticker,
      ledger_example. cbn -[String.eqb Z.sub].
    destruct (String.eqb "AAPL" t); simpl; lia.
  - vm_compute. reflexivity.
  - vm_compute. reflexivity.
Defined.

(** ** Bulk import *)

Lemma mem_find_ticker (t : string) (l : list ShareRow) :
  mem String.eqb t (map srTicker l)
  = match find (fun r => String.eqb (srTicker r) t) l with
    | Some _ => true
    | None => false
    end.
Proof.
  unfold mem. induction l as [|r l IH]; [reflexivity|].
  cbn [map existsb find]. rewrite (String.eqb_sym t (srTicker r)).
  destruct (String.eqb (srTicker r) t); [reflexivity | exact IH].
Qed.

Lemma first_value_shares (t : string) (l : list ShareRow) :
  first_value (map srShares (filter (fun r => String.eqb (srTicker r) t) l))
  = match find (fun r => String.eqb (srTicker r) t) l with
    | Some r => Ok (srShares r)
    | None => Err IndexError
    end.
Proof.
  induction l as [|r l IH]; [reflexivity|]. cbn [filter find].
  destruct (String.eqb (srTicker r) t); [reflexivity | exact IH].
Qed.

Lemma tracked_add_shares (t t' : string) (d : Z) (l : list ShareRow) :
  tracked_shares t' (add_shares t d (Table l))
  = match find (fun r => String.eqb (srTicker r) t') l with
    | Some r => if String.eqb t' t then srShares r + d else srShares r
    | None => 0
    end.
Proof.
  unfold tracked_shares, add_shares. cbn [map_rows rows].
  induction l as [|r l IH]; [reflexivity|]. cbn [map find].
  destruct (String.eqb_spec (srTicker r) t) as [E|E]; cbn [srTicker].
  - destruct (String.eqb_spec (srTicker r) t') as [E'|E'].
    + cbn [srShares]. rewrite <- E', E. now rewrite String.eqb_refl.
    + exact IH.
  - destruct (String.eqb_spec (srTicker r) t') as [E'|E'].
    + rewrite <- E'. apply String.eqb_neq in E. now rewrite E.
    + exact IH.
Qed.

Lemma tracked_concat_row (t t' : string) (q : Z) (l : list ShareRow) :
  find (fun r => String.eqb (srTicker r) t) l = None ->
  tracked_shares t' (concat_row (Table l) (mkShareRow t q))
  = tracked_shares t' (Table l) + (if String.eqb t t' then q else 0).
Proof.
  intros Habs. unfold tracked_shares, concat_row. cbn [rows].
  induction l as [|r l IH].
  - cbn [app find srTicker]. destruct (String.eqb t t'); cbn [srShares]; lia.
  - cbn [app find] in *.
    destruct (String.eqb_spec (srTicker r) t) as [E|E]; [discriminate|].
    destruct (String.eqb_spec (srTicker r) t') as [E'|E'].
    + destruct (String.eqb_spec t t') as [Et|Et]; [congruence|lia].
    + now apply IH.
Qed.

(** One row of the file: the loop never raises on a holdings table, keeps
    it a table, and moves the shares it tracks by the net quantity of the
    row when the row is imported, not at all when it is refused; a Sell is
    imported exactly when the tracked shares cover it. *)
Lemma import_row_on_table (l : list ShareRow) (row : Transaction) :
  exists l' verdict,
    import_row (Table l) row = Ok (Table l', verdict)
    /\ (forall t, tracked_shares t (Table l')
                  = tracked_shares t (Table l)
                    + match verdict with
                      | None => net_shares t [row]
                      | Some _ => 0
                      end)
    /\ (TransactionType row = "Sell" ->
        (verdict = None <->
         mem String.eqb (Ticker row) (map srTicker l) = true
         /\ Quantity row <= tracked_shares (Ticker row) (Table l))).
Proof.
  unfold import_row. cbn [column bind rows].
  rewrite first_value_shares, mem_find_ticker.
  destruct (String.eqb_spec (TransactionType row) "Sell") as [Es|Es].
  - destruct (find (fun r => String.eqb (srTicker r) (Ticker row)) l)
      as [r|] eqn:Ef; cbn [bind].
    + destruct (srShares r <? Quantity row) eqn:Eq.
      * apply Z.ltb_lt in Eq. exists l. eexists. split; [reflexivity|].
        split; [intros t; lia|]. intros _.
        unfold tracked_shares. cbn [rows]. rewrite Ef.
        split; [discriminate | intros [_ H]; lia].
      * apply Z.ltb_ge in Eq.
        exists (rows (add_shares (Ticker row) (- Quantity row) (Table l))), None.
        split; [reflexivity|]. split.
        -- intros t.
           change (Table (rows (add_shares (Ticker row) (- Quantity row)
                                           (Table l))))
             with (add_shares (Ticker row) (- Quantity row) (Table l)).
           rewrite tracked_add_shares, net_shares_one.
           unfold tracked_shares, is_type. cbn [rows]. rewrite Es.
           cbn [String.eqb Ascii.eqb Bool.eqb].
           rewrite (String.eqb_sym (Ticker row) t).
           destruct (String.eqb_spec t (Ticker row)) as [Et|Et].
           ++ subst t. rewrite Ef. lia.
           ++ destruct (find (fun r0 => String.eqb (srTicker r0) t) l); lia.
        -- intros _. unfold tracked_shares. cbn [rows]. rewrite Ef.
           split; [intros _; split; [reflexivity | lia] | reflexivity].
    + exists l. eexists. split; [reflexivity|].
      split; [intros t; lia|]. intros _.
      split; [discriminate | intros [H _]; discriminate].
  - destruct (String.eqb_spec (TransactionType row) "Buy") as [Eb|Eb].
    + destruct (find (fun r => String.eqb (srTicker r) (Ticker row)) l)
        as [r|] eqn:Ef.
      * exists (rows (add_shares (Ticker row) (Quantity row) (Table l))), None.
        split; [reflexivity|].
        split; [|intros H; contradiction].
        intros t.
        change (Table (rows (add_shares (Ticker row) (Quantity row) (Table l))))
          with (add_shares (Ticker row) (Quantity row) (Table l)).
        rewrite tracked_add_shares, net_shares_one.
        unfold tracked_shares, is_type. cbn [rows]. rewrite Eb.
        cbn [String.eqb Ascii.eqb Bool.eqb].
        rewrite (String.eqb_sym (Ticker row) t).
        destruct (String.eqb_spec t (Ticker row)) as [Et|Et].
        -- subst t. rewrite Ef. lia.
        -- destruct (find (fun r0 => String.eqb (srTicker r0) t) l); lia.
      * exists (l ++ [mkShareRow (Ticker row) (Quantity row)]), None.
        split; [reflexivity|].
        split; [|intros H; contradiction].
        intros t.
        change (Table (l ++ [mkShareRow (Ticker row) (Quantity row)]))
          with (concat_row (Table l) (mkShareRow (Ticker row) (Quantity row))).
        rewrite (tracked_concat_row _ _ _ _ Ef), net_shares_one.
        unfold is_type. rewrite Eb. cbn [String.eqb Ascii.eqb Bool.eqb].
        reflexivity.
    + exists l, None. split; [reflexivity|].
      split; [|intros H; contradiction].
      intros t. rewrite net_shares_one. unfold is_type.
      apply String.eqb_neq in Es, Eb. rewrite Es, Eb.
      destruct (String.eqb (Ticker row) t); lia.
Qed.

Lemma net_shares_cons (t : string) (r : Transaction) (l : Ledger) :
  net_shares t (r :: l) = net_shares t [r] + net_shares t l.
Proof. apply (net_shares_app t [r] l). Qed.

Lemma net_shares_nil (t : string) : net_shares t [] = 0.
Proof. reflexivity. Qed.

Lemma import_loop_on_table (imported_df : Ledger) :
  forall (l : list ShareRow) (idx : nat),
  exists out,
    import_loop (Table l) idx imported_df = Ok out
    /\ has_columns (final_holdings out) = true
    /\ (List.length (valid_transactions out)
        + List.length (invalid_transactions out))%nat
       = List.length imported_df
    /\ (forall t, tracked_shares t (final_holdings out)
                  = tracked_shares t (Table l)
                    + net_shares t (valid_transactions out))
    /\ ((forall t, 0 <= tracked_shares t (Table l)) ->
        Forall buy_quantity_positive imported_df ->
        forall t, 0 <= tracked_shares t (final_holdings out)).
Proof.
  induction imported_df as [|row rest IH]; intros l idx.
  - eexists. split; [reflexivity|]. cbn [final_holdings valid_transactions
                                         invalid_transactions List.length].
    split; [reflexivity|]. split; [reflexivity|].
    split; [intros t; rewrite net_shares_nil; lia | auto].
  - destruct (import_row_on_table l row) as (l' & verdict & Hstep & Htrack & Hsell).
    destruct (IH l' (S idx)) as (out & Hout & Hcols & Hlen & Hfinal & Hnonneg).
    cbn [import_loop]. rewrite Hstep. cbn [bind fst snd]. rewrite Hout.
    cbn [bind]. eexists. split; [reflexivity|].
    assert (Hstepnn : (forall t, 0 <= tracked_shares t (Table l)) ->
                      buy_quantity_positive row ->
                      forall t, 0 <= tracked_shares t (Table l')).
    { intros Hl Hrow t. rewrite Htrack. specialize (Hl t).
      destruct verdict as [reason|]; [lia|].
      rewrite net_shares_one.
      destruct (String.eqb_spec (Ticker row) t) as [Et|Et]; [|lia].
      unfold buy_quantity_positive in Hrow.
      destruct (is_type "Buy" row) eqn:Eb; [specialize (Hrow eq_refl); lia|].
      destruct (is_type "Sell" row) eqn:Es; [|lia].
      unfold is_type in Es. apply String.eqb_eq in Es.
      destruct (proj1 (Hsell Es) eq_refl) as [_ Hle]. subst t. lia. }
    destruct verdict as [reason|];
      cbn [final_holdings valid_transactions invalid_transactions List.length].
    + split; [exact Hcols|]. split; [lia|]. split.
      * intros t. rewrite Hfinal, Htrack. lia.
      * intros Hl Hall. inversion Hall as [|? ? Hrow Hrest]; subst.
        apply Hnonneg; [|exact Hrest]. now apply Hstepnn.
    + split; [exact Hcols|]. split; [lia|]. split.
      * intros t. rewrite (net_shares_cons t row (valid_transactions out)).
        rewrite Hfinal, Htrack. lia.
      * intros Hl Hall. inversion Hall as [|? ? Hrow Hrest]; subst.
        apply Hnonneg; [|exact Hrest]. now apply Hstepnn.
Qed.

(** X18. On a holdings table the import loop never raises, gives every row
    of the file exactly one verdict, and ends with tracked shares that are,
    for every ticker, the shares it started with plus the Buy quantities
    less the Sell quantities of the rows it imported: an earlier row of the
    file counts when a later row is checked. *)
Theorem import_loop_tracks_shares (l : list ShareRow) (idx : nat)
        (imported_df : Ledger) :
  exists out,
    import_loop (Table l) idx imported_df = Ok out
    /\ (List.length (valid_transactions out)
        + List.length (invalid_transactions out))%nat
       = List.length imported_df
    /\ (forall t, tracked_shares t (final_holdings out)
                  = tracked_shares t (Table l)
                    + net_shares t (valid_transactions out)).
Proof.
  destruct (import_loop_on_table imported_df l idx)
    as (out & Hout & _ & Hlen & Hfinal & _).
  exists out. auto.
Qed.

Lemma tracked_holdings_copy (df : Ledger) (t : string) :
  Forall typed df ->
  (forall t, 0 <= net_shares t df) ->
  tracked_shares t (holdings_copy_of (holdings_frame df)) = net_shares t df.
Proof.
  intros Hty Hnet.
  assert (E : tracked_shares t (holdings_copy_of (holdings_frame df))
              = match held_shares t (rows (holdings_frame df)) with
                | Some n => n
                | None => 0
                end).
  { unfold tracked_shares, held_shares.
    destruct (holdings_frame df) as [|hs]; [reflexivity|].
    cbn [holdings_copy_of rows].
    induction hs as [|h hs IH]; [reflexivity|]. cbn [map find srTicker].
    destruct (String.eqb (hTicker h) t); [reflexivity | exact IH]. }
  rewrite E.
  destruct (held_shares t (rows (holdings_frame df))) as [n|] eqn:Eh.
  - now apply (held_shares_Some df t n Hty) in Eh.
  - apply (held_shares_None df t Hty) in Eh. specialize (Hnet t). lia.
Qed.

Lemma holdings_frame_has_columns (df : Ledger) :
  Forall typed df ->
  df = [] \/ (exists t, 0 < net_shares t df) ->
  exists hs, holdings_frame df = Table hs.
Proof.
  intros Hty [->|[t Hpos]]; [now exists []|].
  unfold holdings_frame. destruct (is_nil df); [now exists []|].
  destruct (raw_holdings df) as [|h hs] eqn:E.
  - exfalso.
    assert (Hin : In (holding_of t (group_of t df)) (raw_holdings df)).
    { apply raw_holdings_In. exists t. split; [|reflexivity].
      now rewrite (group_shares_net t df Hty). }
    rewrite E in Hin. destruct Hin.
  - eexists. reflexivity.
Qed.

(** X19. A bulk import never oversells: on a ledger of Buy and Sell
    transactions without negative positions, which is empty or has an open
    position, and for a file whose Buy rows have positive quantities, the
    validation returns, and the ledger extended by the rows it accepted has
    no ticker with negative net shares. *)
Theorem import_keeps_positions (transactions imported_df : Ledger) :
  Forall typed transactions ->
  (forall t, 0 <= net_shares t transactions) ->
  transactions = [] \/ (exists t, 0 < net_shares t transactions) ->
  Forall buy_quantity_positive imported_df ->
  exists out,
    validate_import transactions imported_df = Ok out
    /\ forall t,
         tracked_shares t (final_holdings out)
         = net_shares t (transactions ++ valid_transactions out)
         /\ 0 <= net_shares t (transactions ++ valid_transactions out).
Proof.
  intros Hty Hnet Hcols Hq.
  destruct (holdings_frame_has_columns transactions Hty Hcols) as [hs Hhs].
  unfold validate_import. rewrite get_current_holdings_ok. cbn [bind].
  pose proof (tracked_holdings_copy transactions) as Htr.
  rewrite Hhs in *. cbn [holdings_copy_of] in *.
  destruct (import_loop_on_table imported_df
              (map (fun h => mkShareRow (hTicker h) (Shares h)) hs) 0%nat)
    as (out & Hout & _ & _ & Hfinal & Hnonneg).
  exists out. split; [exact Hout|]. intros t.
  assert (E : tracked_shares t (final_holdings out)
              = net_shares t (transactions ++ valid_transactions out)).
  { rewrite Hfinal, (Htr t Hty Hnet), net_shares_app. reflexivity. }
  split; [exact E|]. rewrite <- E. apply Hnonneg; [|exact Hq].
  intros t'. rewrite (Htr t' Hty Hnet). apply Hnet.
Qed.

Lemma import_keeps_positions_witness :
  exists out,
    validate_import ledger_five
      [tx 2 "AAPL" "Sell" 110 3; tx 2 "MSFT" "Buy" 300 4;
       tx 3 "MSFT" "Sell" 310 5; tx 3 "MSFT" "Sell" 310 4] = Ok out
    /\ forall t,
         tracked_shares t (final_holdings out)
         = net_shares t (ledger_five ++ valid_transactions out)
         /\ 0 <= net_shares t (ledger_five ++ valid_transactions out).
Proof.
  apply (import_keeps_positions ledger_five).
  - unfold ledger_five. solve_Forall.
  - intros t. unfold net_shares, buys_of, sells_of, ticker_rows, has_ticker,
      ledger_five. cbn -[String.eqb Z.sub].
    destruct (String.eqb "AAPL" t); simpl; lia.
  - right. exists "AAPL". reflexivity.
  - solve_Forall.
Defined.

(** X20. A bulk import into a ledger whose positions are all closed fails:
    the Holdings Calculator returns a frame without columns for it, and the
    loop raises KeyError at the first Buy or Sell row of the file. *)
Theorem import_after_exit_raises (transactions imported_df : Ledger)
        (row : Transaction) :
  Forall typed transactions ->
  transactions <> [] ->
  (forall t, net_shares t transactions <= 0) ->
  typed row ->
  validate_import transactions (row :: imported_df) = Err (KeyError "Ticker").
Proof.
  intros Hty Hne Hnet Hrow.
  unfold validate_import. rewrite get_current_holdings_ok. cbn [bind].
  unfold holdings_frame. destruct transactions as [|r0 df]; [congruence|].
  cbn [is_nil]. rewrite (raw_holdings_none _ Hty Hnet).
  cbn [holdings_copy_of import_loop]. unfold import_row.
  destruct Hrow as [E|E]; rewrite E; reflexivity.
Qed.

Lemma import_after_exit_raises_witness :
  validate_import ledger_exited [tx 3 "MSFT" "Buy" 300 4]
  = Err (KeyError "Ticker").
Proof.
  apply (import_after_exit_raises ledger_exited []).
  - unfold ledger_exited. solve_Forall.
  - discriminate.
  - intros t. unfold net_shares, buys_of, sells_of, ticker_rows, has_ticker,
      ledger_exited. cbn -[String.eqb Z.sub].
    destruct (String.eqb "AAPL" t); simpl; lia.
  - left. reflexivity.
Defined.

(** ** The columns of a report row *)

(** X22. In every row of the Profit/Loss Report the Total Profit/Loss is
    the sum of the Realized and the Unrealized Profit/Loss of the row up to
    rounding: the three columns are rounded one by one and differ from
    adding up by at most 1.5 cents. *)
Theorem report_total_adds_up (df : Ledger) :
  exists report,
    generate_profit_loss_report df = Ok report
    /\ forall r, In r (rows report) ->
         (Qabs (TotalProfitLoss r
                - (RealizedProfitLoss r + UnrealizedProfitLoss r))
          <= 3 # 200)%Q.
Proof.
  destruct (generate_profit_loss_report_ok df) as (report & Hok & Hperm).
  exists report. split; [exact Hok|]. intros r Hr.
  apply (Permutation_in _ Hperm) in Hr. apply in_map_iff in Hr.
  destruct Hr as (r0 & <- & Hr0). unfold report_data_of in Hr0.
  apply in_map_iff in Hr0. destruct Hr0 as ([k g] & <- & _).
  cbn [fst snd round_report_row TotalProfitLoss RealizedProfitLoss
       UnrealizedProfitLoss].
  set (row := report_row_of (holdings_frame df) k g).
  assert (E : TotalProfitLoss row
              = (RealizedProfitLoss row + UnrealizedProfitLoss row)%Q)
    by reflexivity.
  rewrite E. apply Qabs_Qle_condition.
  pose proof (round2_close (RealizedProfitLoss row)).
  pose proof (round2_close (UnrealizedProfitLoss row)).
  pose proof (round2_close (RealizedProfitLoss row + UnrealizedProfitLoss row)).
  lra.
Qed.

(** ** Totals in the transaction summary and in the report *)

Lemma format_2f_comp (x y : Q) : (x == y)%Q -> format_2f x = format_2f y.
Proof.
  intros H. unfold format_2f.
  rewrite (round_half_even_comp (x * 100) (y * 100)) by now rewrite H.
  unfold Qltb. now rewrite H.
Qed.

Lemma format_2f_round2 (x : Q) :
  (0 <= x)%Q -> format_2f (round2 x) = format_2f x.
Proof.
  intros Hx. unfold format_2f.
  assert (En : round_half_even (round2 x * 100) = round_half_even (x * 100)).
  { pose proof (round2_idempotent x) as Hi. unfold round2 in Hi.
    injection Hi as Hi. exact Hi. }
  rewrite En.
  assert (Es : Qltb (round2 x) 0 = Qltb x 0).
  { pose proof (round2_nonneg x Hx) as Hr.
    rewrite (proj2 (Qltb_ge _ _) Hr), (proj2 (Qltb_ge _ _) Hx). reflexivity. }
  now rewrite Es.
Qed.

Lemma Qabs_Qsum_nonpos (l : list Q) :
  Forall (fun q => q <= 0)%Q l -> (Qabs (Qsum l) == Qsum (map Qabs l))%Q.
Proof.
  intros H.
  assert (Hs : (Qsum l <= 0)%Q /\ (Qsum (map Qabs l) == - Qsum l)%Q).
  { induction H as [|q l Hq _ [IHle IHeq]]; cbn.
    - split; [discriminate | reflexivity].
    - fold (Qsum l). fold (Qsum (map Qabs l)).
      rewrite IHeq, (Qabs_neg q Hq). split; lra. }
  destruct Hs as [Hle Heq]. rewrite Heq. now apply Qabs_neg.
Qed.

Lemma well_formed_sell_total (r : Transaction) :
  well_formed r -> is_type "Sell" r = true -> (Total r <= 0)%Q.
Proof.
  intros (_ & Hp & Hq & Ht) Hs. rewrite Ht. unfold signed_total. rewrite Hs.
  assert (H : (0 <= Price r * inject_Z (Quantity r))%Q).
  { apply Qmult_le_0_compat; [now apply Qlt_le_weak|].
    unfold Qle, inject_Z. simpl. lia. }
  lra.
Qed.

Lemma summary_row_totals (df : Ledger) (ticker : string) (r : SummaryRow) :
  summary_row df ticker = Ok r ->
  sTicker r = ticker
  /\ BuyTotal r
     = ("$" ++ format_2f (Qsum (map Total (buys_of ticker df))))%string
  /\ SellTotal r
     = ("$" ++ format_2f (Qabs (Qsum (map Total (sells_of ticker df)))))%string.
Proof.
  unfold summary_row. rewrite !guarded_div. cbn [bind].
  intros E. inversion E. clear E. cbn [sTicker BuyTotal SellTotal].
  fold (has_ticker ticker). fold (ticker_rows ticker df).
  fold (buys_of ticker df). fold (sells_of ticker df).
  rewrite (guarded_nil (fun l => Qsum (map Total l)) 0%Q) by reflexivity.
  rewrite (guarded_nil (fun l => Qabs (Qsum (map Total l))) 0%Q) by reflexivity.
  repeat split.
Qed.

Lemma summary_loop_totals (df : Ledger) (tickers : list string)
      (rs : list SummaryRow) :
  summary_loop df tickers = Ok rs ->
  Forall (fun r =>
            BuyTotal r
            = ("$" ++ format_2f (Qsum (map Total (buys_of (sTicker r) df))))%string
            /\ SellTotal r
               = ("$" ++ format_2f
                           (Qabs (Qsum (map Total (sells_of (sTicker r) df)))))%string)
         rs.
Proof.
  revert rs. induction tickers as [|t rest IH]; intros rs; cbn [summary_loop].
  - intros E. inversion E. constructor.
  - destruct (summary_row df t) as [r|e] eqn:Er; [|discriminate]. cbn [bind].
    destruct (summary_loop df rest) as [rs'|e] eqn:Ers; [|discriminate].
    cbn [bind]. intros E. inversion E. subst rs. constructor; [|now apply IH].
    destruct (summary_row_totals df t r Er) as (Ht & Hb & Hs).
    now rewrite Ht.
Qed.

(** X23. For every ledger of well-formed transactions whose totals are
    amounts in whole cents, the Buy Total and the Sell Total shown in a row
    of the transaction summary are the Buy Cost and the Sell Revenue of the
    ticker's row in the Profit/Loss Report, written with two decimals.  (A
    total with a fraction of a cent may be printed and rounded to different
    cents, the one by formatting and the other by rounding a binary
    fraction.) *)
Theorem summary_totals_match_report (df : Ledger) :
  Forall well_formed df ->
  Forall (fun r => whole_cents (Total r)) df ->
  exists summary report,
    generate_transaction_summary df = Ok summary
    /\ generate_profit_loss_report df = Ok report
    /\ forall r rr, In r (rows summary) -> In rr (rows report) ->
         sTicker r = rTicker rr ->
         BuyTotal r = ("$" ++ format_2f (BuyCost rr))%string
         /\ SellTotal r = ("$" ++ format_2f (SellRevenue rr))%string.
Proof.
  intros Hwf _.
  destruct (generate_profit_loss_report_ok df) as (report & Hrep & Hperm).
  assert (Hsum : exists summary rs,
             generate_transaction_summary df = Ok summary
             /\ Permutation (rows summary) rs
             /\ summary_loop df (unique String.eqb (map Ticker df)) = Ok rs).
  { unfold generate_transaction_summary. destruct df as [|r0 df].
    - exists NoColumns, []. repeat split. constructor.
    - cbn [is_nil].
      destruct (summary_loop_ok (r0 :: df)
                  (unique String.eqb (map Ticker (r0 :: df))))
        as (rs & Hrs & _). rewrite Hrs. cbn [bind].
      eexists. exists rs. split; [reflexivity|]. split; [|reflexivity].
      destruct rs as [|x rs]; [constructor|].
      cbn [DataFrame empty rows negb sort_values_ticker].
      apply stable_sort_perm. }
  destruct Hsum as (summary & rs & Hsum & Hps & Hloop).
  exists summary, report. split; [exact Hsum|]. split; [exact Hrep|].
  intros r rr Hr Hrr Ht.
  apply (Permutation_in _ Hps) in Hr.
  pose proof (summary_loop_totals df _ rs Hloop) as Hall.
  rewrite Forall_forall in Hall. destruct (Hall r Hr) as [Hb Hs].
  apply (Permutation_in _ Hperm) in Hrr. apply in_map_iff in Hrr.
  destruct Hrr as (r0 & <- & Hr0). unfold report_data_of in Hr0.
  apply in_map_iff in Hr0. destruct Hr0 as ([k g] & <- & Hkg).
  apply groupby_ticker_group in Hkg. subst g.
  cbn [fst snd round_report_row report_row_of rTicker BuyCost SellRevenue] in *.
  rewrite Ht in Hb, Hs. fold (buys_of k df). fold (sells_of k df).
  rewrite (guarded_nil (fun l => Qsum (map Total l)) 0%Q) by reflexivity.
  rewrite (guarded_nil (fun l => Qsum (map (fun r => Qabs (Total r)) l)) 0%Q)
    by reflexivity.
  assert (Hbuy : (0 <= Qsum (map Total (buys_of k df)))%Q).
  { apply Qsum_nonneg. rewrite Forall_forall. intros q Hq.
    apply in_map_iff in Hq. destruct Hq as (x & <- & Hx).
    unfold buys_of, ticker_rows in Hx. apply filter_In in Hx.
    destruct Hx as [Hx Hxb]. apply filter_In in Hx. destruct Hx as [Hx _].
    pose proof (well_formed_buy_total df Hwf) as Hbt.
    rewrite Forall_forall in Hbt. now apply Hbt. }
  assert (Hsell : (Qabs (Qsum (map Total (sells_of k df)))
                   == Qsum (map (fun r => Qabs (Total r)) (sells_of k df)))%Q).
  { rewrite Qabs_Qsum_nonpos; [now rewrite map_map|].
    rewrite Forall_forall. intros q Hq. apply in_map_iff in Hq.
    destruct Hq as (x & <- & Hx). unfold sells_of, ticker_rows in Hx.
    apply filter_In in Hx. destruct Hx as [Hx Hxs].
    apply filter_In in Hx. destruct Hx as [Hx _].
    rewrite Forall_forall in Hwf. now apply well_formed_sell_total; [apply Hwf|]. }
  split.
  - rewrite Hb. f_equal. symmetry. now apply format_2f_round2.
  - rewrite Hs. f_equal. rewrite (format_2f_comp _ _ Hsell). symmetry.
    apply format_2f_round2. apply Qsum_nonneg. rewrite Forall_forall.
    intros q Hq. apply in_map_iff in Hq. destruct Hq as (x & <- & _).
    apply Qabs_nonneg.
Qed.

Lemma summary_totals_match_report_witness :
  exists summary report,
    generate_transaction_summary ledger_example = Ok summary
    /\ generate_profit_loss_report ledger_example = Ok report
    /\ forall r rr, In r (rows summary) -> In rr (rows report) ->
         sTicker r = rTicker rr ->
         BuyTotal r = ("$" ++ format_2f (BuyCost rr))%string
         /\ SellTotal r = ("$" ++ format_2f (SellRevenue rr))%string.
Proof.
  apply (summary_totals_match_report ledger_example); unfold ledger_example.
  - repeat (apply Forall_cons;
            [split; [first [left; reflexivity | right; reflexivity]
                    | split; [reflexivity
                             | split; [reflexivity | vm_compute; reflexivity]]]
            |]).
    apply Forall_nil.
  - repeat (apply Forall_cons;
            [first [exists 150000; reflexivity | exists (-46500); reflexivity]|]).
    apply Forall_nil.
Defined.

(** ** The series up to a date *)

Lemma sorted_dates_unique (l l' : list Z) :
  StronglySorted Z.lt l -> StronglySorted Z.lt l' ->
  (forall x, In x l <-> In x l') -> l = l'.
Proof.
  intros Hl. revert l'. induction Hl as [|a t Ht IH Ha]; intros l' Hl' Hsame.
  - destruct l' as [|b t']; [reflexivity|].
    exfalso. apply (Hsame b). now left.
  - destruct Hl' as [|b t' Ht' Hb].
    { exfalso. apply (Hsame a). now left. }
    rewrite Forall_forall in Ha, Hb.
    assert (Eab : a = b).
    { destruct (proj1 (Hsame a) (or_introl eq_refl)) as [E|Hin]; [now symmetry|].
      destruct (proj2 (Hsame b) (or_introl eq_refl)) as [E|Hin']; [assumption|].
      specialize (Ha b Hin'). specialize (Hb a Hin). lia. }
    subst b. f_equal. apply IH; [assumption|].
    intros x. split; intros Hx.
    + destruct (proj1 (Hsame x) (or_intror Hx)) as [E|Hin]; [|assumption].
      subst x. specialize (Ha a Hx). lia.
    + destruct (proj2 (Hsame x) (or_intror Hx)) as [E|Hin]; [|assumption].
      subst x. specialize (Hb a Hx). lia.
Qed.

Lemma dated_until_twice (d d' : Z) (l : Ledger) :
  d' <= d -> dated_until d' (dated_until d l) = dated_until d' l.
Proof.
  intros Hle. unfold dated_until. rewrite filter_twice.
  apply filter_ext. intros r.
  destruct (Z.leb_spec (Date r) d'); destruct (Z.leb_spec (Date r) d);
    try reflexivity; lia.
Qed.

(** X21. Transactions dated after a day do not change the series up to
    that day: in a ledger where the rows of each ticker are in strictly
    increasing date order, and whatever order the sort by date gives to the
    rows of one date, the series of the ledger cut at a date is the series
    of the whole ledger cut at that date. *)
Theorem history_up_to_date (sort_values : Ledger -> Ledger) (df : Ledger)
        (d : Z) :
  date_sort sort_values ->
  ticker_chronological df ->
  exists full part,
    calculate_historical_performance_by sort_values df = Ok full
    /\ calculate_historical_performance_by sort_values (dated_until d df)
       = Ok part
    /\ rows part = filter (fun p => pDate p <=? d) (rows full).
Proof.
  intros Hs Hc.
  destruct (calculate_historical_performance_by_ok sort_values df Hs)
    as (full & Hfull & Hf).
  destruct (calculate_historical_performance_by_ok
              sort_values (dated_until d df) Hs) as (part & Hpart & Hp).
  exists full, part. split; [exact Hfull|]. split; [exact Hpart|].
  rewrite Hf, Hp. unfold performance_points_by.
  rewrite filter_map_commute. cbn [pDate].
  assert (Hdates : unique Z.eqb (map Date (sort_values (dated_until d df)))
                   = filter (fun x => x <=? d)
                            (unique Z.eqb (map Date (sort_values df)))).
  { apply sorted_dates_unique.
    - now apply sorted_dates_strict.
    - now apply filter_StronglySorted, sorted_dates_strict.
    - intros x. rewrite (sorted_dates_In _ _ _ Hs), filter_In.
      rewrite (sorted_dates_In _ _ _ Hs), !in_map_iff. unfold dated_until.
      split.
      + intros (r & <- & Hr). apply filter_In in Hr. destruct Hr as [Hr Hle].
        split; [now exists r | exact Hle].
      + intros [(r & <- & Hr) Hle]. exists r. split; [reflexivity|].
        apply filter_In. now split. }
  rewrite Hdates. apply map_ext_in. intros d' Hd'. apply filter_In in Hd'.
  destruct Hd' as [_ Hle]. apply Z.leb_le in Hle.
  f_equal. f_equal.
  change (transactions_until d' (sort_values (dated_until d df)))
    with (dated_until d' (sort_values (dated_until d df))).
  change (transactions_until d' (sort_values df))
    with (dated_until d' (sort_values df)).
  rewrite (holdings_frame_until sort_values d' (dated_until d df) Hs)
    by now apply ticker_chronological_until.
  rewrite (holdings_frame_until sort_values d' df Hs Hc).
  now rewrite dated_until_twice.
Qed.

Lemma history_up_to_date_witness :
  exists full part,
    calculate_historical_performance_by sort_values_date ledger_two_tickers
    = Ok full
    /\ calculate_historical_performance_by
         sort_values_date (dated_until 1 ledger_two_tickers)
       = Ok part
    /\ rows part = filter (fun p => pDate p <=? 1) (rows full).
Proof.
  apply (history_up_to_date sort_values_date ledger_two_tickers 1).
  - apply sort_values_date_sorts.
  - intros t. unfold ledger_two_tickers, ticker_rows, has_ticker.
    cbn -[String.eqb].
    destruct (String.eqb_spec "AAPL" t), (String.eqb_spec "MSFT" t);
      try congruence; cbn; repeat (constructor; try lia).
Defined.

(** ** The two empty holdings frames *)

(** X24. On a ledger of Buy and Sell transactions the frame returned by the
    Holdings Calculator has its columns exactly when the ledger is empty or
    some ticker has positive net shares; a non-empty ledger whose positions
    are all closed gives the frame without columns, which has no rows
    either. *)
Theorem holdings_columns (df : Ledger) :
  Forall typed df ->
  exists holdings,
    get_current_holdings df = Ok holdings
    /\ (has_columns holdings = true <->
        df = [] \/ exists t, 0 < net_shares t df)
    /\ (has_columns holdings = false -> rows holdings = []).
Proof.
  intros Hty. exists (holdings_frame df).
  split; [apply get_current_holdings_ok|]. split; [split|].
  - intros Hcols. destruct df as [|r0 df]; [now left|]. right.
    unfold holdings_frame in Hcols. cbn [is_nil] in Hcols.
    destruct (raw_holdings (r0 :: df)) as [|h hs] eqn:E; [discriminate|].
    assert (Hin : In h (raw_holdings (r0 :: df))) by (rewrite E; now left).
    apply raw_holdings_In in Hin. destruct Hin as (t & Hpos & _).
    exists t. now rewrite <- (group_shares_net t _ Hty).
  - intros H. destruct (holdings_frame_has_columns df Hty H) as [hs Hhs].
    now rewrite Hhs.
  - destruct (holdings_frame df); [reflexivity | discriminate].
Qed.

Lemma holdings_columns_witness :
  exists holdings,
    get_current_holdings ledger_exited = Ok holdings
    /\ (has_columns holdings = true <->
        ledger_exited = [] \/ exists t, 0 < net_shares t ledger_exited)
    /\ (has_columns holdings = false -> rows holdings = []).
Proof.
  apply (holdings_columns ledger_exited). unfold ledger_exited. solve_Forall.
Defined.

(** ** Every point is a summary *)

(** X25. In a ledger where the rows of each ticker are in strictly
    increasing date order, and whatever order the sort by date gives to the
    rows of one date, the Portfolio Value of every point of the historical
    series is the current_value of the Portfolio Summary of the ledger's
    rows dated up to the point's date. *)
Theorem point_is_summary_of_its_day (sort_values : Ledger -> Ledger)
        (df : Ledger) :
  date_sort sort_values ->
  ticker_chronological df ->
  exists points,
    calculate_historical_performance_by sort_values df = Ok points
    /\ forall p, In p (rows points) ->
         exists summary,
           get_portfolio_summary (dated_until (pDate p) df) = Ok summary
           /\ PortfolioValue p = current_value summary.
Proof.
  intros Hs Hc.
  destruct (calculate_historical_performance_by_ok sort_values df Hs)
    as (points & Hok & Hrows).
  exists points. split; [exact Hok|]. rewrite Hrows. intros p Hp.
  unfold performance_points_by in Hp. apply in_map_iff in Hp.
  destruct Hp as (d & <- & Hd). cbn [pDate PortfolioValue].
  apply (sorted_dates_In _ _ _ Hs) in Hd.
  apply in_map_iff in Hd. destruct Hd as (r & Hr & Hin).
  assert (Hne : dated_until d df <> []).
  { intros E.
    assert (Hf : In r (dated_until d df))
      by (apply filter_In; split; [assumption | apply Z.leb_le; lia]).
    rewrite E in Hf. destruct Hf. }
  exists (summary_of (dated_until d df)).
  split; [now apply get_portfolio_summary_ok|].
  cbn [summary_of current_value].
  change (transactions_until d (sort_values df))
    with (dated_until d (sort_values df)).
  now rewrite (holdings_frame_until sort_values d df Hs Hc).
Qed.

Lemma point_is_summary_of_its_day_witness :
  exists points,
    calculate_historical_performance_by sort_values_date ledger_two_tickers
    = Ok points
    /\ forall p, In p (rows points) ->
         exists summary,
           get_portfolio_summary (dated_until (pDate p) ledger_two_tickers)
           = Ok summary
           /\ PortfolioValue p = current_value summary.
Proof.
  apply (point_is_summary_of_its_day sort_values_date ledger_two_tickers).
  - apply sort_values_date_sorts.
  - intros t. unfold ledger_two_tickers, ticker_rows, has_ticker.
    cbn -[String.eqb].
    destruct (String.eqb_spec "AAPL" t), (String.eqb_spec "MSFT" t);
      try congruence; cbn; repeat (constructor; try lia).
Defined.
